(** * Propositional formulas: syntax and semantics

    A shallow embedding of [propositions/syntax.py] and
    [propositions/semantics.py], and the properties of the parsers, the
    substitutions, the evaluator, the model enumeration and the synthesis of
    formulas from truth tables. *)

From Stdlib Require Import NArith List Lia Bool String Ascii.
From stdpp Require Import base list gmap sets sorting.

Open Scope N_scope.

(** ** Python strings and exceptions *)

(** A Python [str] is a sequence of Unicode code points. *)
Abbreviation str := (list N).

Definition chr (a : ascii) : N := N_of_ascii a.

(** The [str] of an ASCII literal. *)
Definition py (s : string) : str := map chr (list_ascii_of_string s).

(** The exceptions the modelled code can raise.  [OutOfFuel] is not a Python
    exception: it marks the recursion budget of a fuelled definition running
    out, and the totality lemmas show that it never happens. *)
Inductive exn : Type :=
| AssertionError
| IndexError
| KeyError
| AttributeError
| OutOfFuel.

Inductive result (A : Type) : Type :=
| Ok (a : A)
| Raise (e : exn).

Arguments Ok {A} a.
Arguments Raise {A} e.

Definition bind {A B : Type} (r : result A) (k : A -> result B) : result B :=
  match r with
  | Ok a => k a
  | Raise e => Raise e
  end.

Notation "'let*' x ':=' e 'in' k" := (bind e (fun x => k))
  (at level 10, x pattern, e at level 100, k at level 200).

(** [assert b] *)
Definition assert (b : bool) : result unit :=
  if b then Ok tt else Raise AssertionError.

#[global] Instance exn_eq_dec : EqDecision exn.
Proof. solve_decision. Defined.

#[global] Instance result_eq_dec {A} `{EqDecision A} : EqDecision (result A).
Proof. solve_decision. Defined.

(** ** Character classes *)

(** [str.isdecimal] on one character: the code points of general category Nd,
    as inclusive ranges (Unicode 14.0, the table of CPython 3.11). *)
Definition Nd_ranges : list (N * N) :=
  [ (48, 57); (1632, 1641); (1776, 1785); (1984, 1993); (2406, 2415);
    (2534, 2543); (2662, 2671); (2790, 2799); (2918, 2927); (3046, 3055);
    (3174, 3183); (3302, 3311); (3430, 3439); (3558, 3567); (3664, 3673);
    (3792, 3801); (3872, 3881); (4160, 4169); (4240, 4249); (6112, 6121);
    (6160, 6169); (6470, 6479); (6608, 6617); (6784, 6793); (6800, 6809);
    (6992, 7001); (7088, 7097); (7232, 7241); (7248, 7257); (42528, 42537);
    (43216, 43225); (43264, 43273); (43472, 43481); (43504, 43513);
    (43600, 43609); (44016, 44025); (65296, 65305); (66720, 66729);
    (68912, 68921); (69734, 69743); (69872, 69881); (69942, 69951);
    (70096, 70105); (70384, 70393); (70736, 70745); (70864, 70873);
    (71248, 71257); (71360, 71369); (71472, 71481); (71904, 71913);
    (72016, 72025); (72784, 72793); (73040, 73049); (73120, 73129);
    (92768, 92777); (92864, 92873); (93008, 93017); (120782, 120831);
    (123200, 123209); (123632, 123641); (125264, 125273); (130032, 130041) ].

Definition isdecimal (c : N) : bool :=
  existsb (fun r => (fst r <=? c) && (c <=? snd r)) Nd_ranges.

(** [s.isdecimal()]: every character is a decimal digit and there is at least
    one character. *)
Definition str_isdecimal (s : str) : bool :=
  match s with
  | [] => false
  | _ => forallb isdecimal s
  end.

(** The ASCII letters, on which every version of [str.isalpha] agrees. *)
Definition ascii_letter (c : N) : bool :=
  ((65 <=? c) && (c <=? 90)) || ((97 <=? c) && (c <=? 122)).

(** ** Token classifiers *)

(** [string[0]] raises [IndexError] on the empty string. *)
Definition is_variable (string : str) : result bool :=
  match string with
  | [] => Raise IndexError
  | c :: rest =>
      Ok ((chr "p" <=? c) && (c <=? chr "z") &&
          ((length string =? 1)%nat || str_isdecimal rest))
  end.

Definition is_constant (string : str) : bool :=
  bool_decide (string = py "T") || bool_decide (string = py "F").

Definition is_unary (string : str) : bool :=
  bool_decide (string = py "~").

Definition binary_operators : list str :=
  [py "&"; py "|"; py "->"; py "+"; py "<->"; py "-&"; py "-|"].

Definition is_binary (string : str) : bool :=
  bool_decide (string ∈ binary_operators).

(** ** Formulas *)

(** A formula object has a [root] and, by the assertions of its constructor,
    no operand when the root is a variable name or a constant, one when it is
    the unary operator and two when it is a binary operator. *)
Inductive Formula : Type :=
| Atom (root : str)
| Unary (root : str) (first : Formula)
| Binary (root : str) (first second : Formula).

#[global] Instance Formula_eq_dec : EqDecision Formula.
Proof. solve_decision. Defined.

Definition root (self : Formula) : str :=
  match self with
  | Atom r | Unary r _ | Binary r _ _ => r
  end.

(** [Formula.__init__] *)
Definition Formula_init (root : str) (first second : option Formula)
  : result Formula :=
  let* v := is_variable root in
  if v || is_constant root then
    match first, second with
    | None, None => Ok (Atom root)
    | _, _ => Raise AssertionError
    end
  else if is_unary root then
    match first, second with
    | Some f, None => Ok (Unary root f)
    | _, _ => Raise AssertionError
    end
  else
    let* _ := assert (is_binary root) in
    match first, second with
    | Some f, Some s => Ok (Binary root f s)
    | _, _ => Raise AssertionError
    end.

(** The formulas that the constructor can build. *)
Inductive constructed : Formula -> Prop :=
| constructed_init root first second f :
    (forall g, first = Some g -> constructed g) ->
    (forall g, second = Some g -> constructed g) ->
    Formula_init root first second = Ok f ->
    constructed f.

Definition holds (r : result bool) : bool :=
  match r with
  | Ok true => true
  | _ => false
  end.

(** The same, as a test on the tree. *)
Fixpoint well_formed (f : Formula) : bool :=
  match f with
  | Atom r => holds (is_variable r) || is_constant r
  | Unary r a => is_unary r && well_formed a
  | Binary r a b => is_binary r && well_formed a && well_formed b
  end.

(** [Formula.__repr__] *)
Fixpoint __repr__ (self : Formula) : result str :=
  let* v := is_variable (root self) in
  if v || is_constant (root self) then Ok (root self)
  else if is_unary (root self) then
    match self with
    | Unary _ first | Binary _ first _ =>
        let* s := __repr__ first in Ok (py "~" ++ s)
    | Atom _ => Raise AttributeError
    end
  else
    match self with
    | Binary _ first second =>
        let* s1 := __repr__ first in
        let* s2 := __repr__ second in
        Ok (py "(" ++ s1 ++ root self ++ s2 ++ py ")")
    | _ => Raise AttributeError
    end.

(** [Formula.__eq__], on two formulas: equality of the printed strings. *)
Definition Formula_eq (self other : Formula) : result bool :=
  let* s1 := __repr__ self in
  let* s2 := __repr__ other in
  Ok (bool_decide (s1 = s2)).

(** [Formula.variables] *)
Fixpoint variables (self : Formula) : result (gset str) :=
  let* v := is_variable (root self) in
  if v then Ok {[ root self ]}
  else if is_constant (root self) then Ok ∅
  else if is_unary (root self) then
    match self with
    | Unary _ first | Binary _ first _ => variables first
    | Atom _ => Raise AttributeError
    end
  else
    match self with
    | Binary _ first second =>
        let* s1 := variables first in
        let* s2 := variables second in
        Ok (s1 ∪ s2)
    | _ => Raise AttributeError
    end.

(** [Formula.polish] *)
Fixpoint polish (self : Formula) : result str :=
  let* v := is_variable (root self) in
  if v || is_constant (root self) then Ok (root self)
  else if is_unary (root self) then
    match self with
    | Unary _ first | Binary _ first _ =>
        let* s := polish first in Ok (py "~" ++ s)
    | Atom _ => Raise AttributeError
    end
  else
    match self with
    | Binary _ first second =>
        let* s1 := polish first in
        let* s2 := polish second in
        Ok (root self ++ s1 ++ s2)
    | _ => Raise AttributeError
    end.

(** ** Parsing *)

(** [i = 1; while i < len(string) and string[i].isdecimal(): i += 1], where
    [s] is [string[i:]]: the index at which the loop stops. *)
Fixpoint scan_decimal (s : str) (i : nat) : nat :=
  match s with
  | c :: s' => if isdecimal c then scan_decimal s' (S i) else i
  | [] => i
  end.

(** [rest.startswith(p)] *)
Definition startswith (rest p : str) : bool :=
  bool_decide (take (length p) rest = p).

(** The chain of tests that reads the binary operator at the head of [rest]:
    the operator and what follows it, or [None] when no operator is there. *)
Definition read_binary (rest : str) : option (str * str) :=
  if startswith rest (py "->") then Some (py "->", drop 2 rest)
  else if (3 <=? length rest)%nat && is_binary (take 3 rest) then
    Some (take 3 rest, drop 3 rest)
  else if (2 <=? length rest)%nat && is_binary (take 2 rest) then
    Some (take 2 rest, drop 2 rest)
  else if (1 <=? length rest)%nat && is_binary (take 1 rest) then
    Some (take 1 rest, drop 1 rest)
  else None.

Section Parsing.

(** [str.isalpha] on one character.  The properties of the parsers need it
    on the ASCII characters only, where it is the test for a letter, so the
    rest of its table is left open. *)
Variable isalpha : N -> bool.

(** [Formula._parse_prefix], with a bound on the depth of the recursion. *)
Fixpoint _parse_prefix_fuel (fuel : nat) (string : str)
  : result (option Formula * str) :=
  match fuel with
  | O => Raise OutOfFuel
  | S fuel =>
      match string with
      | [] => Ok (None, py "unexpected end of input")
      | char :: _ =>
          if is_constant [char] then
            let* f := Formula_init [char] None None in
            Ok (Some f, drop 1 string)
          else if isalpha char then
            let i := scan_decimal (drop 1 string) 1 in
            let token := take i string in
            let* v := is_variable token in
            if v then
              let* f := Formula_init token None None in
              Ok (Some f, drop i string)
            else Ok (None, py "invalid variable name: " ++ token)
          else if bool_decide (char = chr "~") then
            let* (inner, rest) := _parse_prefix_fuel fuel (drop 1 string) in
            match inner with
            | None => Ok (None, rest)
            | Some inner =>
                let* f := Formula_init (py "~") (Some inner) None in
                Ok (Some f, rest)
            end
          else if bool_decide (char = chr "(") then
            let* (left_, rest) := _parse_prefix_fuel fuel (drop 1 string) in
            match left_ with
            | None => Ok (None, rest)
            | Some left_ =>
                match read_binary rest with
                | None => Ok (None, py "expected binary operator")
                | Some (op, rest) =>
                    let* (right_, rest) := _parse_prefix_fuel fuel rest in
                    match right_ with
                    | None => Ok (None, rest)
                    | Some right_ =>
                        match rest with
                        | c :: rest' =>
                            if bool_decide (c = chr ")") then
                              let* f := Formula_init op (Some left_) (Some right_) in
                              Ok (Some f, rest')
                            else Ok (None, py "expected ')'")
                        | [] => Ok (None, py "expected ')'")
                        end
                    end
                end
            end
          else Ok (None, py "unexpected token: " ++ [char])
      end
  end.

(** Every call consumes at least one character, so the length of the
    string bounds the depth. *)
Definition _parse_prefix (string : str) : result (option Formula * str) :=
  _parse_prefix_fuel (S (length string)) string.

(** [Formula.is_formula] *)
Definition is_formula (string : str) : result bool :=
  let* (parsed, rest) := _parse_prefix string in
  Ok (bool_decide (parsed <> None) && bool_decide (rest = [])).

(** [Formula.parse] *)
Definition parse (string : str) : result Formula :=
  let* ok := is_formula string in
  let* _ := assert ok in
  let* (formula, rest) := _parse_prefix string in
  match formula with
  | Some f => let* _ := assert (bool_decide (rest = [])) in Ok f
  | None => Raise AssertionError
  end.

(** [Formula._parse_polish_prefix], with a bound on the depth of the
    recursion. *)
Fixpoint _parse_polish_prefix_fuel (fuel : nat) (string : str)
  : result (option Formula * str) :=
  match fuel with
  | O => Raise OutOfFuel
  | S fuel =>
      match string with
      | [] => Ok (None, py "unexpected end of input")
      | char :: _ =>
          if startswith string (py "->") then
            let* (left_, rest) :=
              _parse_polish_prefix_fuel fuel (drop 2 string) in
            match left_ with
            | None => Ok (None, rest)
            | Some left_ =>
                let* (right_, rest) := _parse_polish_prefix_fuel fuel rest in
                match right_ with
                | None => Ok (None, rest)
                | Some right_ =>
                    let* f := Formula_init (py "->") (Some left_) (Some right_) in
                    Ok (Some f, rest)
                end
            end
          else if is_constant [char] then
            let* f := Formula_init [char] None None in
            Ok (Some f, drop 1 string)
          else if bool_decide (char = chr "~") then
            let* (inner, rest) :=
              _parse_polish_prefix_fuel fuel (drop 1 string) in
            match inner with
            | None => Ok (None, rest)
            | Some inner =>
                let* f := Formula_init (py "~") (Some inner) None in
                Ok (Some f, rest)
            end
          else if bool_decide ([char] ∈ [py "&"; py "|"]) then
            let* (left_, rest) :=
              _parse_polish_prefix_fuel fuel (drop 1 string) in
            match left_ with
            | None => Ok (None, rest)
            | Some left_ =>
                let* (right_, rest) := _parse_polish_prefix_fuel fuel rest in
                match right_ with
                | None => Ok (None, rest)
                | Some right_ =>
                    let* f := Formula_init [char] (Some left_) (Some right_) in
                    Ok (Some f, rest)
                end
            end
          else if isalpha char then
            let i := scan_decimal (drop 1 string) 1 in
            let token := take i string in
            let* v := is_variable token in
            if v then
              let* f := Formula_init token None None in
              Ok (Some f, drop i string)
            else Ok (None, py "invalid variable name: " ++ token)
          else Ok (None, py "unexpected token: " ++ [char])
      end
  end.

Definition _parse_polish_prefix (string : str)
  : result (option Formula * str) :=
  _parse_polish_prefix_fuel (S (length string)) string.

(** [Formula.parse_polish] *)
Definition parse_polish (string : str) : result Formula :=
  let* (parsed, rest) := _parse_polish_prefix string in
  match parsed with
  | Some f => let* _ := assert (bool_decide (rest = [])) in Ok f
  | None => Raise AssertionError
  end.

End Parsing.

(** ** Dictionaries *)

(** A Python [dict] with string keys: the items in insertion order.
    [dict_set] keeps the keys unique, and [dict_get] reads the first item
    with the key. *)
Abbreviation dict V := (list (str * V)).

Fixpoint dict_get {V : Type} (d : dict V) (k : str) : option V :=
  match d with
  | [] => None
  | (k', v) :: d' => if bool_decide (k' = k) then Some v else dict_get d' k
  end.

(** [d[k] = v] *)
Fixpoint dict_set {V : Type} (d : dict V) (k : str) (v : V) : dict V :=
  match d with
  | [] => [(k, v)]
  | (k', v') :: d' =>
      if bool_decide (k' = k) then (k, v) :: d' else (k', v') :: dict_set d' k v
  end.

(** The keys, in the order a [for] loop visits them. *)
Definition dict_keys {V : Type} (d : dict V) : list str := map fst d.

(** [d[k]] *)
Definition dict_item {V : Type} (d : dict V) (k : str) : result V :=
  match dict_get d k with
  | Some v => Ok v
  | None => Raise KeyError
  end.

(** [for x in xs: assert check(x)] *)
Fixpoint assert_each {A : Type} (check : A -> result bool) (xs : list A)
  : result unit :=
  match xs with
  | [] => Ok tt
  | x :: xs' =>
      let* b := check x in
      let* _ := assert b in
      assert_each check xs'
  end.

(** ** Substitutions *)

(** [Formula.substitute_variables] *)
Fixpoint substitute_variables (self : Formula) (substitution_map : dict Formula)
  : result Formula :=
  let* _ := assert_each is_variable (dict_keys substitution_map) in
  let* v := is_variable (root self) in
  if v then
    Ok (default self (dict_get substitution_map (root self)))
  else if is_constant (root self) then Ok self
  else
    let* new_first :=
      match self with
      | Unary _ first | Binary _ first _ =>
          let* g := substitute_variables first substitution_map in Ok (Some g)
      | Atom _ => Ok None
      end in
    let* new_second :=
      match self with
      | Binary _ _ second =>
          let* g := substitute_variables second substitution_map in Ok (Some g)
      | _ => Ok None
      end in
    Formula_init (root self) new_first new_second.

(** The two assertions on an item of the map of [substitute_operators]. *)
Definition check_operator (item : str * Formula) : result bool :=
  let (operator, template) := item in
  if is_constant operator || is_unary operator || is_binary operator then
    let* vs := variables template in
    Ok (bool_decide (vs ⊆ {[ py "p"; py "q" ]}))
  else Ok false.

(** [Formula.substitute_operators] *)
Fixpoint substitute_operators (self : Formula) (substitution_map : dict Formula)
  : result Formula :=
  let* _ := assert_each check_operator substitution_map in
  let* v := is_variable (root self) in
  if v then Ok self
  else
    let* new_first :=
      match self with
      | Unary _ first | Binary _ first _ =>
          let* g := substitute_operators first substitution_map in Ok (Some g)
      | Atom _ => Ok None
      end in
    let* new_second :=
      match self with
      | Binary _ _ second =>
          let* g := substitute_operators second substitution_map in Ok (Some g)
      | _ => Ok None
      end in
    match dict_get substitution_map (root self) with
    | None => Formula_init (root self) new_first new_second
    | Some template =>
        let subs := [] in
        let subs :=
          match new_first with
          | Some g => dict_set subs (py "p") g
          | None => subs
          end in
        let subs :=
          match new_second with
          | Some g => dict_set subs (py "q") g
          | None => subs
          end in
        substitute_variables template subs
    end.

(** ** Semantics *)

(** A model is a [dict] from variable names to truth values. *)
Abbreviation Model := (dict bool).

(** [is_model]: the loop returns at the first key that is not a variable
    name. *)
Fixpoint is_model_keys (keys : list str) : result bool :=
  match keys with
  | [] => Ok true
  | key :: keys' =>
      let* v := is_variable key in
      if negb v then Ok false else is_model_keys keys'
  end.

Definition is_model (model : Model) : result bool :=
  is_model_keys (dict_keys model).

(** [variables(model)] of [semantics.py] *)
Definition variables_of_model (model : Model) : result (list str) :=
  let* m := is_model model in
  let* _ := assert m in
  Ok (dict_keys model).

(** [evaluate] *)
Fixpoint evaluate (formula : Formula) (model : Model) : result bool :=
  let* m := is_model model in
  let* _ := assert m in
  let* vs := variables formula in
  let* ks := variables_of_model model in
  let* _ := assert (bool_decide (vs ⊆ list_to_set ks)) in
  let root := root formula in
  let* v := is_variable root in
  if v then dict_item model root
  else if is_constant root then Ok (bool_decide (root = py "T"))
  else if is_unary root then
    match formula with
    | Unary _ first | Binary _ first _ =>
        let* a := evaluate first model in Ok (negb a)
    | Atom _ => Raise AttributeError
    end
  else
    let* _ := assert (is_binary root) in
    match formula with
    | Binary _ first second =>
        if bool_decide (root = py "&") then
          let* a := evaluate first model in
          if a then evaluate second model else Ok false
        else if bool_decide (root = py "|") then
          let* a := evaluate first model in
          if a then Ok true else evaluate second model
        else if bool_decide (root = py "->") then
          let* a := evaluate first model in
          if negb a then Ok true else evaluate second model
        else if bool_decide (root = py "+") then
          let* a := evaluate first model in
          let* b := evaluate second model in
          Ok (negb (Bool.eqb a b))
        else if bool_decide (root = py "<->") then
          let* a := evaluate first model in
          let* b := evaluate second model in
          Ok (Bool.eqb a b)
        else if bool_decide (root = py "-&") then
          let* a := evaluate first model in
          if a then let* b := evaluate second model in Ok (negb b)
          else Ok true
        else if bool_decide (root = py "-|") then
          let* a := evaluate first model in
          if a then Ok false
          else let* b := evaluate second model in Ok (negb b)
        else Raise AssertionError
    | _ => Raise AttributeError
    end.

(** [enumerate(xs)] *)
Definition enumerate {A : Type} (xs : list A) : list (nat * A) :=
  zip (seq 0 (length xs)) xs.

(** [range(n)] *)
Definition range (n : nat) : list N := map N.of_nat (seq 0 n).

(** The body of the outer loop of [all_models]: the model of one [mask]. *)
Definition model_of_mask (variables : list str) (mask : N) : Model :=
  let n := length variables in
  fold_left
    (fun m iv =>
       let bit := N.land (N.shiftr mask (N.of_nat (n - 1 - fst iv))) 1 in
       dict_set m (snd iv) (negb (bit =? 0)))
    (enumerate variables) [].

(** [all_models]: the models the generator yields, in order. *)
Definition all_models (variables : list str) : result (list Model) :=
  let* _ := assert_each is_variable variables in
  let n := length variables in
  Ok (map (model_of_mask variables) (range (2 ^ n))).

(** [truth_values] *)
Fixpoint truth_values (formula : Formula) (models : list Model)
  : result (list bool) :=
  match models with
  | [] => Ok []
  | m :: models' =>
      let* b := evaluate formula m in
      let* bs := truth_values formula models' in
      Ok (b :: bs)
  end.

(** The order of Python strings: lexicographic on the code points. *)
Fixpoint str_leb (s t : str) : bool :=
  match s, t with
  | [], _ => true
  | _ :: _, [] => false
  | a :: s', b :: t' => (a <? b) || ((a =? b) && str_leb s' t')
  end.

Definition str_le (s t : str) : Prop := Is_true (str_leb s t).

(** [sorted] on a list of strings. *)
Definition sorted (xs : list str) : list str := merge_sort str_le xs.

(** The literal of [v] in a clause: [Formula(v)] when [positive], otherwise
    [Formula('~', Formula(v))]. *)
Definition literal (v : str) (positive : bool) : result Formula :=
  if positive then Formula_init v None None
  else
    let* a := Formula_init v None None in
    Formula_init (py "~") (Some a) None.

(** [for x in xs: acc = Formula(op, acc, make(x))] *)
Fixpoint accumulate {A : Type} (op : str) (make : A -> result Formula)
  (acc : Formula) (xs : list A) : result Formula :=
  match xs with
  | [] => Ok acc
  | x :: xs' =>
      let* g := make x in
      let* acc' := Formula_init op (Some acc) (Some g) in
      accumulate op make acc' xs'
  end.

(** [_synthesize_for_model] *)
Definition _synthesize_for_model (model : Model) : result Formula :=
  let* m := is_model model in
  let* _ := assert m in
  let* _ := assert (0 <? length (dict_keys model))%nat in
  let vars_sorted := sorted (dict_keys model) in
  match vars_sorted with
  | [] => Raise IndexError
  | v0 :: rest =>
      let* b0 := dict_item model v0 in
      let* conj_ := literal v0 b0 in
      accumulate (py "&")
        (fun v => let* b := dict_item model v in literal v b) conj_ rest
  end.

(** [[models[i] for i, val in enumerate(values_list) if keep(val)]] *)
Fixpoint select_models (models : list Model) (keep : bool -> bool)
  (items : list (nat * bool)) : result (list Model) :=
  match items with
  | [] => Ok []
  | (i, val) :: items' =>
      if keep val then
        match models !! i with
        | Some m =>
            let* ms := select_models models keep items' in Ok (m :: ms)
        | None => Raise IndexError
        end
      else select_models models keep items'
  end.

(** [synthesize] *)
Definition synthesize (variables : list str) (values : list bool)
  : result Formula :=
  let* _ := assert (0 <? length variables)%nat in
  let* _ := assert_each is_variable variables in
  let* models := all_models variables in
  let values_list := values in
  let* _ := assert (length values_list =? length models)%nat in
  let* true_models := select_models models id (enumerate values_list) in
  match true_models with
  | [] =>
      match variables with
      | [] => Raise IndexError
      | p :: _ =>
          let* a := Formula_init p None None in
          let* b := Formula_init p None None in
          let* nb := Formula_init (py "~") (Some b) None in
          Formula_init (py "&") (Some a) (Some nb)
      end
  | m0 :: rest =>
      let* dnf := _synthesize_for_model m0 in
      accumulate (py "|") _synthesize_for_model dnf rest
  end.

(** [_synthesize_for_all_except_model] *)
Definition _synthesize_for_all_except_model (model : Model) : result Formula :=
  let* m := is_model model in
  let* _ := assert m in
  let* _ := assert (0 <? length (dict_keys model))%nat in
  let vars_sorted := sorted (dict_keys model) in
  match vars_sorted with
  | [] => Raise IndexError
  | v0 :: rest =>
      let* b0 := dict_item model v0 in
      let* disj := literal v0 (negb b0) in
      accumulate (py "|")
        (fun v => let* b := dict_item model v in literal v (negb b)) disj rest
  end.

(** [synthesize_cnf] *)
Definition synthesize_cnf (variables : list str) (values : list bool)
  : result Formula :=
  let* _ := assert (0 <? length variables)%nat in
  let* _ := assert_each is_variable variables in
  let* models := all_models variables in
  let values_list := values in
  let* _ := assert (length values_list =? length models)%nat in
  let* false_models := select_models models negb (enumerate values_list) in
  match false_models with
  | [] =>
      match variables with
      | [] => Raise IndexError
      | p :: _ =>
          let* a := Formula_init p None None in
          let* b := Formula_init p None None in
          let* nb := Formula_init (py "~") (Some b) None in
          Formula_init (py "|") (Some a) (Some nb)
      end
  | m0 :: rest =>
      let* cnf := _synthesize_for_all_except_model m0 in
      accumulate (py "&") _synthesize_for_all_except_model cnf rest
  end.

(** ** Specifications and auxiliary definitions *)

(** What a well-formed formula prints as, in the standard and in the Polish
    notation, and its variable names: the methods [__repr__], [polish] and
    [variables] by the shape of the tree. *)
Fixpoint show (f : Formula) : str :=
  match f with
  | Atom r => r
  | Unary _ a => py "~" ++ show a
  | Binary r a b => py "(" ++ show a ++ r ++ show b ++ py ")"
  end.

Fixpoint show_polish (f : Formula) : str :=
  match f with
  | Atom r => r
  | Unary _ a => py "~" ++ show_polish a
  | Binary r a b => r ++ show_polish a ++ show_polish b
  end.

Fixpoint vars_of (f : Formula) : gset str :=
  match f with
  | Atom r => if is_constant r then ∅ else {[ r ]}
  | Unary _ a => vars_of a
  | Binary _ a b => vars_of a ∪ vars_of b
  end.

(** The textbook truth tables of the seven binary operators: conjunction,
    disjunction, implication, exclusive or, bi-implication, NAND and NOR. *)
Definition textbook (op : str) (a b : bool) : bool :=
  if bool_decide (op = py "&") then a && b
  else if bool_decide (op = py "|") then a || b
  else if bool_decide (op = py "->") then implb a b
  else if bool_decide (op = py "+") then xorb a b
  else if bool_decide (op = py "<->") then Bool.eqb a b
  else if bool_decide (op = py "-&") then negb (a && b)
  else if bool_decide (op = py "-|") then negb (a || b)
  else false.

(** The truth value of a well-formed formula in a model that covers it. *)
Fixpoint value (f : Formula) (m : Model) : bool :=
  match f with
  | Atom r =>
      if is_constant r then bool_decide (r = py "T")
      else default false (dict_get m r)
  | Unary _ a => negb (value a m)
  | Binary r a b => textbook r (value a m) (value b m)
  end.

(** The model covers the formula: [formula.variables()] is a subset of the
    keys of the model. *)
Definition covers (model : Model) (formula : Formula) : Prop :=
  exists vs, variables formula = Ok vs /\ vs ⊆ list_to_set (dict_keys model).

(** [evaluate] gives the binary operator [op] the truth table [table]: on
    operands of values [a] and [b] the application has the value
    [table a b]. *)
Definition has_truth_table (model : Model) (op : str)
  (table : bool -> bool -> bool) : Prop :=
  forall f g : Formula,
    well_formed f = true -> well_formed g = true ->
    covers model f -> covers model g ->
    exists a b, evaluate f model = Ok a /\ evaluate g model = Ok b /\
                evaluate (Binary op f g) model = Ok (table a b).

(** The pattern [[p-z][0-9]*]: a letter from [p] to [z], then ASCII digits
    only. *)
Definition ascii_digit (c : N) : bool := (chr "0" <=? c) && (c <=? chr "9").

Definition matches_variable_pattern (s : str) : bool :=
  match s with
  | [] => false
  | c :: rest => (chr "p" <=? c) && (c <=? chr "z") && forallb ascii_digit rest
  end.

(** The substitution of variable names in one pass over the tree: a mapped
    variable name becomes its image, which is not visited again; the rest of
    the tree is kept. *)
Fixpoint single_pass (substitution_map : dict Formula) (f : Formula) : Formula :=
  match f with
  | Atom r =>
      if is_constant r then Atom r
      else default (Atom r) (dict_get substitution_map r)
  | Unary r a => Unary r (single_pass substitution_map a)
  | Binary r a b =>
      Binary r (single_pass substitution_map a) (single_pass substitution_map b)
  end.

(** The substitution of operators and constants, bottom-up: the operands are
    rewritten first; at a root that is a key, the template is instantiated
    with [p] as the rewritten first operand and [q] as the rewritten second
    operand, where there is one; at any other root the node is rebuilt from
    the rewritten operands. *)
Fixpoint bottom_up (substitution_map : dict Formula) (f : Formula) : Formula :=
  match f with
  | Atom r =>
      if is_constant r then
        match dict_get substitution_map r with
        | Some template => single_pass [] template
        | None => Atom r
        end
      else Atom r
  | Unary r a =>
      let a' := bottom_up substitution_map a in
      match dict_get substitution_map r with
      | Some template => single_pass [(py "p", a')] template
      | None => Unary r a'
      end
  | Binary r a b =>
      let a' := bottom_up substitution_map a in
      let b' := bottom_up substitution_map b in
      match dict_get substitution_map r with
      | Some template => single_pass [(py "p", a'); (py "q", b')] template
      | None => Binary r a' b'
      end
  end.

(** The maps that [substitute_operators] accepts: every key is a constant or
    an operator, every template is a formula over [p] and [q]. *)
Definition operator_map (substitution_map : dict Formula) : Prop :=
  Forall (fun item : str * Formula =>
            (is_constant item.1 || is_unary item.1 || is_binary item.1 = true) /\
            well_formed item.2 = true /\
            vars_of item.2 ⊆ {[ py "p"; py "q" ]})
         substitution_map.

(** The models count in binary, the first name the most significant bit:
    model number [k] gives the name at position [i] of [n] names the bit
    [n - 1 - i] of [k]. *)
Definition binary_counter (variables : list str) (models : list Model) : Prop :=
  forall (k i : nat) (m : Model) (v : str),
    models !! k = Some m -> variables !! i = Some v ->
    dict_get m v =
    Some (N.testbit (N.of_nat k) (N.of_nat (length variables - 1 - i))).

(** The items that the inner loop of [all_models] sets for one [mask]. *)
Definition mask_items (variables : list str) (mask : N) : list (str * bool) :=
  map (fun iv : nat * str =>
         (snd iv,
          negb (N.land (N.shiftr mask (N.of_nat (length variables - 1 - fst iv))) 1
                =? 0)))
      (enumerate variables).

(** The depth of the tree, which bounds the depth of the recursion that
    parses its string. *)
Fixpoint depth (f : Formula) : nat :=
  match f with
  | Atom _ => 0
  | Unary _ a => S (depth a)
  | Binary _ a b => S (Nat.max (depth a) (depth b))
  end.

(** The string starts with a decimal digit. *)
Definition starts_decimal (w : str) : bool :=
  match w with
  | c :: _ => isdecimal c
  | [] => false
  end.

(** The error messages of the two low-level parsers. *)
Inductive parse_error : str -> Prop :=
| error_end : parse_error (py "unexpected end of input")
| error_name token : parse_error (py "invalid variable name: " ++ token)
| error_operator : parse_error (py "expected binary operator")
| error_paren : parse_error (py "expected ')'")
| error_token c : parse_error (py "unexpected token: " ++ [c]).

(** The binary operators that [_parse_polish_prefix] reads. *)
Definition polish_operators : list str := [py "&"; py "|"; py "->"].

(** Every binary operator of the formula is one that the Polish parser
    reads. *)
Fixpoint polish_readable (f : Formula) : bool :=
  match f with
  | Atom _ => true
  | Unary _ a => polish_readable a
  | Binary r a b =>
      bool_decide (r ∈ polish_operators) && polish_readable a && polish_readable b
  end.

(** The value of a name in a model, [False] for a name that is not a key. *)
Definition get (m : Model) (v : str) : bool := default false (dict_get m v).

(** The formula that [literal] builds. *)
Definition lit (v : str) (positive : bool) : Formula :=
  if positive then Atom v else Unary (py "~") (Atom v).

(** The formula that the loop [accumulate] builds. *)
Definition joined {A : Type} (op : str) (mk : A -> Formula) (acc : Formula)
  (xs : list A) : Formula :=
  fold_left (fun acc x => Binary op acc (mk x)) xs acc.

(** The clause of a model: over the sorted names, joined by [op], the literal
    of each name, positive when the value of the name differs from [flip].
    [clause (py "&") false] is what [_synthesize_for_model] builds and
    [clause (py "|") true] what [_synthesize_for_all_except_model] builds. *)
Definition clause (op : str) (flip : bool) (m : Model) : Formula :=
  match sorted (dict_keys m) with
  | [] => Atom []
  | v0 :: rest =>
      joined op (fun v => lit v (xorb flip (get m v)))
        (lit v0 (xorb flip (get m v0))) rest
  end.

(** The two models give the same value to every name of the first. *)
Definition agree (m m' : Model) : bool :=
  forallb (fun v => Bool.eqb (get m v) (get m' v)) (sorted (dict_keys m)).

(** The models that the comprehension of [synthesize] selects. *)
Fixpoint selected (keep : bool -> bool) (models : list Model)
  (values : list bool) : list Model :=
  match models, values with
  | m :: models', val :: values' =>
      if keep val then m :: selected keep models' values'
      else selected keep models' values'
  | _, _ => []
  end.

(** The formula that [synthesize] ([op] is [|], [inner] is [&], [flip] is
    false) and [synthesize_cnf] ([op] is [&], [inner] is [|], [flip] is true)
    build from the selected models. *)
Definition normal_form (op inner : str) (flip : bool) (variables : list str)
  (ms : list Model) : Formula :=
  match ms with
  | [] =>
      match variables with
      | [] => Atom []
      | p :: _ => Binary inner (Atom p) (Unary (py "~") (Atom p))
      end
  | m0 :: rest => joined op (clause inner flip) (clause inner flip m0) rest
  end.

(** ** The other methods and functions *)

(** [Formula.__ne__] *)
Definition Formula_ne (self other : Formula) : result bool :=
  let* e := Formula_eq self other in
  Ok (negb e).

(** [Formula.operators] *)
Fixpoint operators (self : Formula) : result (gset str) :=
  let* v := is_variable (root self) in
  if v then Ok ∅
  else if is_constant (root self) then Ok {[ root self ]}
  else if is_unary (root self) then
    match self with
    | Unary _ first | Binary _ first _ =>
        let* s := operators first in
        Ok ({[ root self ]} ∪ s)
    | Atom _ => Raise AttributeError
    end
  else
    match self with
    | Binary _ first second =>
        let* s1 := operators first in
        let* s2 := operators second in
        Ok ({[ root self ]} ∪ s1 ∪ s2)
    | _ => Raise AttributeError
    end.

(** The loops of [is_tautology], [is_contradiction] and [is_satisfiable]:
    [for m in models: if evaluate(formula, m) is stop: return answer], and
    the opposite answer after the loop. *)
Fixpoint scan_models (formula : Formula) (stop answer : bool)
  (models : list Model) : result bool :=
  match models with
  | [] => Ok (negb answer)
  | m :: models' =>
      let* b := evaluate formula m in
      if Bool.eqb b stop then Ok answer
      else scan_models formula stop answer models'
  end.

(** [sorted(list(formula.variables()))] *)
Definition vars_sorted (formula : Formula) : result (list str) :=
  let* vs := variables formula in
  Ok (sorted (elements vs)).

(** [is_tautology]: [if not evaluate(formula, m): return False], then
    [return True]. *)
Definition is_tautology (formula : Formula) : result bool :=
  let* names := vars_sorted formula in
  let* models := all_models names in
  scan_models formula false false models.

(** [is_contradiction]: [if evaluate(formula, m): return False], then
    [return True]. *)
Definition is_contradiction (formula : Formula) : result bool :=
  let* names := vars_sorted formula in
  let* models := all_models names in
  scan_models formula true false models.

(** [is_satisfiable]: [if evaluate(formula, m): return True], then
    [return False]. *)
Definition is_satisfiable (formula : Formula) : result bool :=
  let* names := vars_sorted formula in
  let* models := all_models names in
  scan_models formula true true models.

(** The operators and constants of a well-formed formula: the method
    [operators] by the shape of the tree. *)
Fixpoint ops_of (f : Formula) : gset str :=
  match f with
  | Atom r => if is_constant r then {[ r ]} else ∅
  | Unary r a => {[ r ]} ∪ ops_of a
  | Binary r a b => {[ r ]} ∪ ops_of a ∪ ops_of b
  end.

(** The model that gives each key of the substitution map the value of its
    image in [m], and every other name its value in [m]. *)
Definition push (sm : dict Formula) (m : Model) : Model :=
  map (fun kt : str * Formula => (kt.1, value kt.2 m)) sm ++ m.

(** The template [t] has the truth table of [op]: it evaluates as [op] applied
    to [p] and [q] (to [p] for the unary operator, to nothing for a
    constant) in every model over the operands. *)
Definition equivalent_template (op : str) (t : Formula) : Prop :=
  if is_binary op then
    forall x y : bool,
      evaluate t [(py "p", x); (py "q", y)] =
      evaluate (Binary op (Atom (py "p")) (Atom (py "q")))
        [(py "p", x); (py "q", y)]
  else if is_unary op then
    forall x : bool,
      evaluate t [(py "p", x)] = evaluate (Unary op (Atom (py "p"))) [(py "p", x)]
  else evaluate t [] = evaluate (Atom op) [].


(** What a template with the truth table of its operator is worth in any
    model. *)
Definition template_table (op : str) (t : Formula) : Prop :=
  (is_binary op = true ->
   vars_of t ⊆ {[ py "p"; py "q" ]} /\
   forall m, value t m = textbook op (get m (py "p")) (get m (py "q"))) /\
  (is_unary op = true ->
   vars_of t ⊆ {[ py "p" ]} /\ forall m, value t m = negb (get m (py "p"))) /\
  (is_constant op = true ->
   vars_of t ⊆ ∅ /\ forall m, value t m = bool_decide (op = py "T")).

(** The mask of an assignment: the number whose bits, the first name the
    most significant, are the values of the names. *)
Fixpoint mask_of (names : list str) (g : str -> bool) : N :=
  match names with
  | [] => 0
  | v :: rest =>
      (if g v then 1 else 0) * 2 ^ N.of_nat (length rest) + mask_of rest g
  end.

(** [sep.join(xs)] *)
Definition str_join (sep : str) (xs : list str) : str :=
  match xs with
  | [] => []
  | x :: rest => x ++ concat (map (fun y => sep ++ y) rest)
  end.

(** ['T' if b else 'F'] *)
Definition truth_letter (b : bool) : str := if b then py "T" else py "F".

(** ['| ' + ' | '.join(cells) + ' |'] *)
Definition table_line (cells : list str) : str :=
  py "| " ++ str_join (py " | ") cells ++ py " |".

(** ['|' + '|'.join('-' * (len(name) + 2) for name in cells) + '|'] *)
Definition rule_line (cells : list str) : str :=
  py "|" ++
  str_join (py "|") (map (fun name => repeat (chr "-") (length name + 2)) cells)
  ++ py "|".

(** [[('T' if m[v] else 'F') for v in vars_sorted]] *)
Fixpoint row_cells (m : Model) (names : list str) : result (list str) :=
  match names with
  | [] => Ok []
  | v :: rest =>
      let* b := dict_item m v in
      let* cells := row_cells m rest in
      Ok (truth_letter b :: cells)
  end.

(** The line that the body of the loop of [print_truth_table] prints. *)
Definition row_line (formula : Formula) (names : list str) (m : Model)
  : result str :=
  let* row := row_cells m names in
  let* b := evaluate formula m in
  Ok (table_line (row ++ [truth_letter b])).

(** The loop of [print_truth_table]: the lines printed so far, and how the
    loop ended. *)
Fixpoint print_rows (formula : Formula) (names : list str)
  (models : list Model) (out : list str) : list str * result unit :=
  match models with
  | [] => (out, Ok tt)
  | m :: models' =>
      match row_line formula names m with
      | Ok line => print_rows formula names models' (out ++ [line])
      | Raise e => (out, Raise e)
      end
  end.

(** [print_truth_table]: the lines printed, and how the call ended.  The
    generator [all_models] checks the names when the loop asks for the first
    model, after the two lines of the header. *)
Definition print_truth_table (formula : Formula) : list str * result unit :=
  match vars_sorted formula with
  | Raise e => ([], Raise e)
  | Ok names =>
      match __repr__ formula with
      | Raise e => ([], Raise e)
      | Ok title =>
          let header_cells := names ++ [title] in
          let out := [table_line header_cells; rule_line header_cells] in
          match all_models names with
          | Raise e => (out, Raise e)
          | Ok models => print_rows formula names models out
          end
      end
  end.

(** ** Examples from the docstrings *)

Example ex_is_variable : is_variable (py "q76") = Ok true.
Proof. reflexivity. Qed.

Example ex_parse :
  parse ascii_letter (py "((p->q7)-&~T)") =
  Ok (Binary (py "-&") (Binary (py "->") (Atom (py "p")) (Atom (py "q7")))
        (Unary (py "~") (Atom (py "T")))).
Proof. vm_compute. reflexivity. Qed.

Example ex_repr :
  __repr__ (Binary (py "-&") (Binary (py "->") (Atom (py "p")) (Atom (py "q7")))
        (Unary (py "~") (Atom (py "T")))) = Ok (py "((p->q7)-&~T)").
Proof. vm_compute. reflexivity. Qed.

Example ex_variables :
  variables (Binary (py "-&") (Binary (py "->") (Atom (py "p")) (Atom (py "q7")))
        (Unary (py "~") (Atom (py "T")))) = Ok ({[ py "p"; py "q7" ]}).
Proof. vm_compute. reflexivity. Qed.

Example ex_evaluate :
  evaluate (Unary (py "~") (Binary (py "&") (Atom (py "p")) (Atom (py "q76"))))
    [(py "p", true); (py "q76", false)] = Ok true.
Proof. vm_compute. reflexivity. Qed.

Example ex_all_models_qp :
  all_models [py "q"; py "p"] =
  Ok [ [(py "q", false); (py "p", false)]; [(py "q", false); (py "p", true)];
       [(py "q", true); (py "p", false)]; [(py "q", true); (py "p", true)] ].
Proof. vm_compute. reflexivity. Qed.

Example ex_synthesize :
  (let* f := synthesize [py "p"; py "q"] [true; true; true; false] in
   let* ms := all_models [py "p"; py "q"] in
   truth_values f ms) = Ok [true; true; true; false].
Proof. vm_compute. reflexivity. Qed.

Example ex_synthesize_cnf :
  (let* f := synthesize_cnf [py "q"; py "p"] [true; false; true; false] in
   let* ms := all_models [py "q"; py "p"] in
   truth_values f ms) = Ok [true; false; true; false].
Proof. vm_compute. reflexivity. Qed.

Example ex_substitute_variables :
  (let* f := parse ascii_letter (py "((p->p)|r)") in
   let* g := parse ascii_letter (py "(q&r)") in
   let* h := substitute_variables f [(py "p", g); (py "r", Atom (py "p"))] in
   __repr__ h) = Ok (py "(((q&r)->(q&r))|p)").
Proof. vm_compute. reflexivity. Qed.

Example ex_substitute_operators :
  (let* f := parse ascii_letter (py "((x&y)&~z)") in
   let* g := parse ascii_letter (py "~(~p|~q)") in
   let* h := substitute_operators f [(py "&", g)] in
   __repr__ h) = Ok (py "~(~~(~x|~y)|~~z)").
Proof. vm_compute. reflexivity. Qed.

(** ** The classifiers on the roots of well-formed formulas *)

Arguments isdecimal : simpl never.

Lemma bind_Ok {A B : Type} (r : result A) (k : A -> result B) (b : B) :
  bind r k = Ok b -> exists a, r = Ok a /\ k a = Ok b.
Proof. destruct r as [a|e]; simpl; [eauto | discriminate]. Qed.

Lemma assert_Ok (b : bool) (u : unit) : assert b = Ok u -> b = true.
Proof. destruct b; [reflexivity | discriminate]. Qed.

Lemma is_variable_Ok_true (s : str) :
  is_variable s = Ok true <->
  exists c rest, s = c :: rest /\ chr "p" <= c /\ c <= chr "z" /\
                 forallb isdecimal rest = true.
Proof.
  split.
  - destruct s as [|c rest]; [discriminate|]. intros H. injection H as H.
    apply andb_true_iff in H as [H H3]. apply andb_true_iff in H as [H1 H2].
    exists c, rest. repeat split; [by apply N.leb_le | by apply N.leb_le |].
    destruct rest as [|d rest]; [reflexivity|]. simpl in H3. exact H3.
  - intros (c & rest & -> & H1 & H2 & H3). unfold is_variable. f_equal.
    apply N.leb_le in H1, H2. rewrite H1, H2. simpl.
    destruct rest as [|d rest]; [reflexivity|]. exact H3.
Qed.

Lemma is_variable_nonempty (c : N) (s : str) :
  exists b, is_variable (c :: s) = Ok b.
Proof. eexists. reflexivity. Qed.

Lemma is_constant_cases (s : str) :
  is_constant s = true -> s = py "T" \/ s = py "F".
Proof.
  unfold is_constant. intros H. apply orb_true_iff in H as [H|H];
    apply bool_decide_eq_true in H; auto.
Qed.

Lemma constant_not_variable (s : str) :
  is_constant s = true -> is_variable s = Ok false.
Proof. intros H. apply is_constant_cases in H as [-> | ->]; reflexivity. Qed.

Lemma variable_not_constant (s : str) :
  is_variable s = Ok true -> is_constant s = false.
Proof.
  intros H. destruct (is_constant s) eqn:E; [|reflexivity].
  apply constant_not_variable in E. congruence.
Qed.

Lemma is_unary_eq (s : str) : is_unary s = true -> s = py "~".
Proof. apply bool_decide_eq_true. Qed.

Lemma is_binary_elem (s : str) : is_binary s = true <-> s ∈ binary_operators.
Proof. apply bool_decide_eq_true. Qed.

(** The seven operators, one case each. *)
Ltac each_operator H :=
  unfold binary_operators in H;
  repeat (apply elem_of_cons in H as [-> | H]);
  [ .. | by apply elem_of_nil in H ].

Lemma binary_root (s : str) :
  is_binary s = true ->
  is_variable s = Ok false /\ is_constant s = false /\ is_unary s = false.
Proof.
  intros H. apply is_binary_elem in H. each_operator H; by vm_compute.
Qed.

(** The shape of a formula follows from its root, as in the constructor. *)
Lemma Atom_cases (r : str) :
  well_formed (Atom r) = true ->
  (is_variable r = Ok true /\ is_constant r = false) \/
  (is_variable r = Ok false /\ is_constant r = true).
Proof.
  simpl. intros H. apply orb_true_iff in H as [H|H].
  - assert (is_variable r = Ok true) as Hv.
    { destruct (is_variable r) as [[]|]; simpl in H; congruence. }
    left. split; [exact Hv | by apply variable_not_constant].
  - right. split; [by apply constant_not_variable | exact H].
Qed.

Lemma Unary_cases (r : str) (a : Formula) :
  well_formed (Unary r a) = true -> r = py "~" /\ well_formed a = true.
Proof.
  simpl. intros H. apply andb_true_iff in H as [H1 H2].
  split; [by apply is_unary_eq | exact H2].
Qed.

Lemma Binary_cases (r : str) (a b : Formula) :
  well_formed (Binary r a b) = true ->
  is_binary r = true /\ is_variable r = Ok false /\ is_constant r = false /\
  is_unary r = false /\ well_formed a = true /\ well_formed b = true.
Proof.
  simpl. intros H. apply andb_true_iff in H as [H H3].
  apply andb_true_iff in H as [H1 H2].
  destruct (binary_root r H1) as (? & ? & ?). auto 10.
Qed.

(** Case analysis on a well-formed formula and its root. *)
Ltac by_shape f H :=
  induction f as [r|r a IH|r a IHa b IHb]; intros H;
  [ destruct (Atom_cases _ H) as [[Hvar Hconst]|[Hvar Hconst]]
  | destruct (Unary_cases _ _ H) as [-> Hwa]
  | destruct (Binary_cases _ _ _ H) as (Hbin & Hvar & Hconst & Hun & Hwa & Hwb) ].

(** [well_formed] is what the constructor builds. *)
Lemma Formula_init_well_formed root first second f :
  (forall g, first = Some g -> well_formed g = true) ->
  (forall g, second = Some g -> well_formed g = true) ->
  Formula_init root first second = Ok f -> well_formed f = true.
Proof.
  intros H1 H2. unfold Formula_init. intros H.
  apply bind_Ok in H as (v & Hv & H).
  destruct (v || is_constant root) eqn:E.
  - destruct first, second; try discriminate. injection H as <-. simpl.
    rewrite Hv. destruct v; simpl in *; congruence.
  - destruct (is_unary root) eqn:E'.
    + destruct first as [g|], second; try discriminate. injection H as <-.
      simpl. rewrite E'. simpl. by apply H1.
    + apply bind_Ok in H as (u & Hu & H). apply assert_Ok in Hu.
      destruct first as [g|], second as [g'|]; try discriminate.
      injection H as <-. simpl. rewrite Hu, (H1 g), (H2 g'); reflexivity.
Qed.

Lemma constructed_well_formed (f : Formula) :
  constructed f <-> well_formed f = true.
Proof.
  split.
  - induction 1 as [root first second f _ IH1 _ IH2 H].
    by apply (Formula_init_well_formed root first second).
  - by_shape f H.
    + apply (constructed_init r None None); [discriminate.. |].
      unfold Formula_init. rewrite Hvar. reflexivity.
    + apply (constructed_init r None None); [discriminate.. |].
      unfold Formula_init. rewrite Hvar, Hconst. reflexivity.
    + apply (constructed_init (py "~") (Some a) None);
        [intros g [= <-]; by apply IH | discriminate | reflexivity].
    + apply (constructed_init r (Some a) (Some b));
        [intros g [= <-]; by apply IHa | intros g [= <-]; by apply IHb |].
      unfold Formula_init. rewrite Hvar, Hconst, Hun, Hbin. reflexivity.
Qed.

(** The constructor on well-formed operands. *)
Lemma Formula_init_variable (r : str) :
  is_variable r = Ok true -> Formula_init r None None = Ok (Atom r).
Proof. intros H. unfold Formula_init. rewrite H. reflexivity. Qed.

Lemma Formula_init_constant (r : str) :
  is_constant r = true -> Formula_init r None None = Ok (Atom r).
Proof.
  intros H. unfold Formula_init. rewrite (constant_not_variable r H), H.
  reflexivity.
Qed.

Lemma Formula_init_unary (a : Formula) :
  Formula_init (py "~") (Some a) None = Ok (Unary (py "~") a).
Proof. reflexivity. Qed.

Lemma Formula_init_binary (r : str) (a b : Formula) :
  is_binary r = true ->
  Formula_init r (Some a) (Some b) = Ok (Binary r a b).
Proof.
  intros H. destruct (binary_root r H) as (H1 & H2 & H3).
  unfold Formula_init. rewrite H1, H2, H3, H. reflexivity.
Qed.

(** ** The methods on well-formed formulas *)

Lemma repr_well_formed (f : Formula) :
  well_formed f = true -> __repr__ f = Ok (show f).
Proof.
  by_shape f H; simpl.
  - rewrite Hvar. reflexivity.
  - rewrite Hvar, Hconst. reflexivity.
  - rewrite (IH Hwa). reflexivity.
  - rewrite Hvar, Hconst, Hun. simpl. rewrite (IHa Hwa), (IHb Hwb). reflexivity.
Qed.

Lemma polish_well_formed (f : Formula) :
  well_formed f = true -> polish f = Ok (show_polish f).
Proof.
  by_shape f H; simpl.
  - rewrite Hvar. reflexivity.
  - rewrite Hvar, Hconst. reflexivity.
  - rewrite (IH Hwa). reflexivity.
  - rewrite Hvar, Hconst, Hun. simpl. rewrite (IHa Hwa), (IHb Hwb). reflexivity.
Qed.

Lemma variables_well_formed (f : Formula) :
  well_formed f = true -> variables f = Ok (vars_of f).
Proof.
  by_shape f H; simpl.
  - rewrite Hvar, Hconst. reflexivity.
  - rewrite Hvar, Hconst. reflexivity.
  - rewrite (IH Hwa). reflexivity.
  - rewrite Hvar, Hconst, Hun. simpl. rewrite (IHa Hwa), (IHb Hwb). reflexivity.
Qed.

(** ** Dictionaries *)

Lemma dict_get_is_Some {V : Type} (d : dict V) (k : str) :
  k ∈ dict_keys d <-> is_Some (dict_get d k).
Proof.
  induction d as [|[k' v] d IH]; simpl.
  - split; [intros H; by apply elem_of_nil in H | intros [? ?]; discriminate].
  - rewrite elem_of_cons. destruct (bool_decide_reflect (k' = k)) as [->|Hne].
    + split; [eauto | by left].
    + rewrite <- IH. split; [intros [->|?]; [done | assumption] | by right].
Qed.

Lemma dict_get_set_eq {V : Type} (d : dict V) (k : str) (v : V) :
  dict_get (dict_set d k v) k = Some v.
Proof.
  induction d as [|[k' v'] d IH]; simpl.
  - by rewrite bool_decide_eq_true_2.
  - destruct (bool_decide_reflect (k' = k)) as [->|Hne]; simpl.
    + by rewrite bool_decide_eq_true_2.
    + by rewrite bool_decide_eq_false_2.
Qed.

Lemma dict_get_set_ne {V : Type} (d : dict V) (k k' : str) (v : V) :
  k <> k' -> dict_get (dict_set d k v) k' = dict_get d k'.
Proof.
  intros Hne. induction d as [|[k0 v0] d IH]; simpl.
  - by rewrite bool_decide_eq_false_2.
  - destruct (bool_decide_reflect (k0 = k)) as [->|Hne0]; simpl.
    + by rewrite !bool_decide_eq_false_2.
    + by rewrite IH.
Qed.

Lemma dict_keys_set {V : Type} (d : dict V) (k : str) (v : V) :
  dict_keys (dict_set d k v) =
  if bool_decide (k ∈ dict_keys d) then dict_keys d else dict_keys d ++ [k].
Proof.
  induction d as [|[k0 v0] d IH].
  - reflexivity.
  - cbn [dict_set dict_keys map fst].
    destruct (bool_decide_reflect (k0 = k)) as [->|Hne0].
    + by rewrite bool_decide_eq_true_2 by left.
    + cbn [map fst]. unfold dict_keys in IH. rewrite IH.
      destruct (bool_decide_reflect (k ∈ map fst d)) as [Hin|Hnin].
      * by rewrite bool_decide_eq_true_2 by (by right).
      * rewrite bool_decide_eq_false_2; [done|].
        rewrite elem_of_cons. intros [->|?]; done.
Qed.
(** ** Evaluation *)

Lemma is_model_keys_true (keys : list str) :
  is_model_keys keys = Ok true <->
  Forall (fun k => is_variable k = Ok true) keys.
Proof.
  induction keys as [|k keys IH]; simpl.
  - split; [constructor | reflexivity].
  - split.
    + intros H. apply bind_Ok in H as (v & Hv & H). destruct v; simpl in H.
      * constructor; [exact Hv | by apply IH].
      * discriminate.
    + intros H. inversion H as [|? ? Hk Hks]; subst. rewrite Hk. simpl.
      by apply IH.
Qed.

Lemma evaluate_well_formed (f : Formula) (m : Model) :
  is_model m = Ok true ->
  well_formed f = true ->
  vars_of f ⊆ list_to_set (dict_keys m) ->
  evaluate f m = Ok (value f m).
Proof.
  intros Hm. by_shape f Hwf; intros Hsub;
    pose proof (variables_well_formed _ Hwf) as Hv;
    cbn [evaluate]; unfold variables_of_model; rewrite Hm, Hv;
    cbn [bind assert]; rewrite (bool_decide_eq_true_2 _ Hsub);
    cbn [bind assert root].
  - rewrite Hvar. simpl. rewrite Hconst. simpl in Hsub. rewrite Hconst in Hsub.
    assert (r ∈ dict_keys m) as Hin by set_solver.
    apply dict_get_is_Some in Hin as [v Hv']. unfold dict_item.
    rewrite Hv'. reflexivity.
  - rewrite Hvar. simpl. rewrite Hconst. reflexivity.
  - change (is_variable (py "~")) with (@Ok bool false).
    cbn [bind]. change (is_constant (py "~")) with false.
    change (is_unary (py "~")) with true. cbv iota.
    rewrite (IH Hwa Hsub). reflexivity.
  - rewrite Hvar. cbn [bind]. rewrite Hconst, Hun, Hbin. cbn [bind assert].
    simpl in Hsub.
    rewrite (IHa Hwa) by set_solver. rewrite (IHb Hwb) by set_solver.
    cbn [value]. generalize (value a m) (value b m). intros x y.
    apply is_binary_elem in Hbin.
    each_operator Hbin; destruct x, y; vm_compute; reflexivity.
Qed.

Lemma covers_vars_of (model : Model) (f : Formula) :
  well_formed f = true ->
  covers model f <-> vars_of f ⊆ list_to_set (dict_keys model).
Proof.
  intros H. unfold covers. rewrite (variables_well_formed f H). split.
  - intros (vs & [= <-] & Hsub). exact Hsub.
  - intros Hsub. eauto.
Qed.

Lemma evaluate_covers (f : Formula) (m : Model) :
  is_model m = Ok true -> well_formed f = true -> covers m f ->
  evaluate f m = Ok (value f m).
Proof.
  intros Hm Hwf Hc. apply evaluate_well_formed; [done..|].
  by apply covers_vars_of.
Qed.

Lemma has_truth_table_textbook (model : Model) (op : str)
  (table : bool -> bool -> bool) :
  is_model model = Ok true ->
  is_binary op = true ->
  (forall a b, textbook op a b = table a b) ->
  has_truth_table model op table.
Proof.
  intros Hm Hop Ht f g Hf Hg Hcf Hcg.
  exists (value f model), (value g model).
  split; [by apply evaluate_covers|]. split; [by apply evaluate_covers|].
  rewrite <- Ht.
  apply (evaluate_well_formed (Binary op f g) model Hm).
  - simpl. by rewrite Hop, Hf, Hg.
  - apply covers_vars_of in Hcf; [|done]. apply covers_vars_of in Hcg; [|done].
    simpl. by apply union_subseteq.
Qed.

(** C1. For a model [model] (every key a variable name): the constants ['T']
    and ['F'] evaluate to true and false; a variable name evaluates to its
    value in the model; the negation of a formula evaluates to the negation
    of its value; and each of the seven binary operators [&], [|], [->], [+],
    [<->], [-&], [-|], on well-formed operands that the model covers, evaluates
    to the textbook truth table (conjunction, disjunction, implication,
    exclusive or, bi-implication, NAND, NOR) of the values of its operands; in
    particular NAND(T,T)=F, NAND(T,F)=T, NAND(F,T)=T, NAND(F,F)=T. *)
Theorem evaluate_truth_tables (model : Model) :
  is_model model = Ok true ->
  evaluate (Atom (py "T")) model = Ok true /\
  evaluate (Atom (py "F")) model = Ok false /\
  (forall v b, is_variable v = Ok true -> dict_get model v = Some b ->
     evaluate (Atom v) model = Ok b) /\
  (forall f, well_formed f = true -> covers model f ->
     exists a, evaluate f model = Ok a /\
               evaluate (Unary (py "~") f) model = Ok (negb a)) /\
  has_truth_table model (py "&") andb /\
  has_truth_table model (py "|") orb /\
  has_truth_table model (py "->") implb /\
  has_truth_table model (py "+") xorb /\
  has_truth_table model (py "<->") Bool.eqb /\
  has_truth_table model (py "-&") (fun a b => negb (a && b)) /\
  has_truth_table model (py "-|") (fun a b => negb (a || b)) /\
  evaluate (Binary (py "-&") (Atom (py "T")) (Atom (py "T"))) model = Ok false /\
  evaluate (Binary (py "-&") (Atom (py "T")) (Atom (py "F"))) model = Ok true /\
  evaluate (Binary (py "-&") (Atom (py "F")) (Atom (py "T"))) model = Ok true /\
  evaluate (Binary (py "-&") (Atom (py "F")) (Atom (py "F"))) model = Ok true.
Proof.
  intros Hm.
  assert (forall f, well_formed f = true -> vars_of f = ∅ ->
                    evaluate f model = Ok (value f model)) as Hclosed.
  { intros f Hf He. apply evaluate_well_formed; [done..|]. rewrite He.
    set_solver. }
  split; [by apply Hclosed|]. split; [by apply Hclosed|]. split.
  { intros v b Hv Hb.
    rewrite (evaluate_well_formed (Atom v) model Hm).
    - simpl. by rewrite (variable_not_constant v Hv), Hb.
    - simpl. by rewrite Hv.
    - simpl. rewrite (variable_not_constant v Hv).
      assert (v ∈ dict_keys model) by (apply dict_get_is_Some; eauto).
      set_solver. }
  split.
  { intros f Hf Hc. exists (value f model).
    split; [by apply evaluate_covers|].
    apply (evaluate_well_formed (Unary (py "~") f) model Hm).
    - simpl. exact Hf.
    - simpl. by apply covers_vars_of. }
  repeat (split; [apply has_truth_table_textbook;
                    [exact Hm | reflexivity | by intros [] []] |]).
  repeat split; by apply Hclosed.
Qed.

Lemma evaluate_truth_tables_witness :
  evaluate (Atom (py "T")) [(py "p", true); (py "q", false)] = Ok true /\
  has_truth_table [(py "p", true); (py "q", false)] (py "-&")
    (fun a b => negb (a && b)).
Proof.
  pose proof (evaluate_truth_tables [(py "p", true); (py "q", false)]
                eq_refl) as H.
  split; [apply H | apply H].
Defined.

Lemma value_agree (f : Formula) (m1 m2 : Model) :
  (forall v, v ∈ vars_of f -> dict_get m1 v = dict_get m2 v) ->
  value f m1 = value f m2.
Proof.
  induction f as [r|r a IH|r a IHa b IHb]; simpl; intros H.
  - destruct (is_constant r); [reflexivity|]. rewrite H; [reflexivity|].
    set_solver.
  - by rewrite IH.
  - rewrite IHa, IHb; [reflexivity | |]; intros v Hv; apply H; set_solver.
Qed.

(** C10. [evaluate] depends only on the values of the model at the variable
    names of the formula: on two models that both cover a formula and give
    the same value to each of its variable names, it returns the same truth
    value, whatever else the models bind. *)
Theorem evaluate_depends_on_variables (f : Formula) (m1 m2 : Model)
  (vs : gset str) :
  well_formed f = true ->
  is_model m1 = Ok true -> is_model m2 = Ok true ->
  variables f = Ok vs ->
  vs ⊆ list_to_set (dict_keys m1) -> vs ⊆ list_to_set (dict_keys m2) ->
  (forall v, v ∈ vs -> dict_get m1 v = dict_get m2 v) ->
  evaluate f m1 = evaluate f m2 /\ exists b, evaluate f m1 = Ok b.
Proof.
  intros Hf H1 H2 Hv Hs1 Hs2 Hagree.
  rewrite (variables_well_formed f Hf) in Hv. injection Hv as <-.
  rewrite !evaluate_well_formed by done.
  split; [|eauto]. f_equal. by apply value_agree.
Qed.

Lemma evaluate_depends_on_variables_witness :
  evaluate (Binary (py "->") (Atom (py "p")) (Unary (py "~") (Atom (py "q"))))
    [(py "p", true); (py "q", false)] =
  evaluate (Binary (py "->") (Atom (py "p")) (Unary (py "~") (Atom (py "q"))))
    [(py "r", true); (py "q", false); (py "z3", false); (py "p", true)].
Proof.
  apply (evaluate_depends_on_variables
           (Binary (py "->") (Atom (py "p")) (Unary (py "~") (Atom (py "q"))))
           [(py "p", true); (py "q", false)]
           [(py "r", true); (py "q", false); (py "z3", false); (py "p", true)]
           {[ py "p"; py "q" ]}).
  - reflexivity.
  - reflexivity.
  - reflexivity.
  - vm_compute. reflexivity.
  - refine (bool_decide_unpack _ _). vm_compute. exact I.
  - refine (bool_decide_unpack _ _). vm_compute. exact I.
  - intros v Hv. apply elem_of_union in Hv as [Hv|Hv];
      apply elem_of_singleton in Hv as ->; reflexivity.
Defined.

(** ** Variable names *)

(** Every code point below 128 is in the list of the first 128. *)
Lemma ascii_forall (P : N -> bool) :
  forallb P (range 128) = true -> forall c, c < 128 -> P c = true.
Proof.
  intros H c Hc. rewrite forallb_forall in H. apply H. unfold range.
  apply in_map_iff. exists (N.to_nat c). split; [apply N2Nat.id|].
  apply in_seq. lia.
Qed.

Lemma isdecimal_ascii (c : N) : c < 128 -> isdecimal c = ascii_digit c.
Proof.
  intros Hc.
  apply (ascii_forall (fun c => Bool.eqb (isdecimal c) (ascii_digit c))) in Hc;
    [by apply eqb_prop | by vm_compute].
Qed.

Lemma is_variable_unicode_digit :
  ~ (forall s, is_variable s = Ok true <-> matches_variable_pattern s = true).
Proof.
  intros H. specialize (H [chr "p"; 1635]). destruct H as [H _].
  specialize (H eq_refl). vm_compute in H. discriminate.
Qed.

(** C9, amended. [is_variable] returns true exactly on the strings made of a
    first character among the ASCII letters [p] to [z] followed by characters
    that [str.isdecimal] accepts, the decimal digits of Unicode; on the
    strings of ASCII characters these are the strings of the pattern
    [[p-z][0-9]*]. *)
Theorem is_variable_decimal_suffix (s : str) :
  (is_variable s = Ok true <->
   exists c rest, s = c :: rest /\ chr "p" <= c /\ c <= chr "z" /\
                  Forall (fun d => isdecimal d = true) rest) /\
  (Forall (fun c => c < 128) s ->
   (is_variable s = Ok true <-> matches_variable_pattern s = true)).
Proof.
  split.
  - rewrite is_variable_Ok_true. split.
    + intros (c & rest & -> & H1 & H2 & H3). exists c, rest.
      repeat split; [done..|]. apply Forall_forall. intros d Hd.
      rewrite forallb_forall in H3. apply H3. by apply list_elem_of_In.
    + intros (c & rest & -> & H1 & H2 & H3). exists c, rest.
      repeat split; [done..|]. apply forallb_forall. intros d Hd.
      rewrite Forall_forall in H3. apply H3. by apply list_elem_of_In.
  - intros Hascii. rewrite is_variable_Ok_true. split.
    + intros (c & rest & -> & H1 & H2 & H3). unfold matches_variable_pattern.
      apply N.leb_le in H1, H2. rewrite H1, H2. cbn [andb].
      inversion Hascii as [|? ? _ Hrest]; subst.
      apply forallb_forall. intros d Hd. rewrite <- isdecimal_ascii.
      * rewrite forallb_forall in H3. by apply H3.
      * rewrite Forall_forall in Hrest. apply Hrest. by apply list_elem_of_In.
    + destruct s as [|c rest]; [discriminate|].
      unfold matches_variable_pattern. intros H.
      apply andb_true_iff in H as [H H3]. apply andb_true_iff in H as [H1 H2].
      apply N.leb_le in H1, H2. exists c, rest. repeat split; [done..|].
      inversion Hascii as [|? ? _ Hrest]; subst.
      apply forallb_forall. intros d Hd. rewrite isdecimal_ascii.
      * rewrite forallb_forall in H3. by apply H3.
      * rewrite Forall_forall in Hrest. apply Hrest. by apply list_elem_of_In.
Qed.

Lemma is_variable_decimal_suffix_witness :
  is_variable (py "q76") = Ok true <-> matches_variable_pattern (py "q76") = true.
Proof.
  apply (is_variable_decimal_suffix (py "q76")).
  repeat constructor.
Defined.

(** ** Substitutions *)

Lemma assert_each_Ok {A : Type} (check : A -> result bool) (xs : list A) :
  Forall (fun x => check x = Ok true) xs -> assert_each check xs = Ok tt.
Proof.
  induction 1 as [|x xs Hx _ IH]; simpl; [reflexivity|].
  rewrite Hx. exact IH.
Qed.

Lemma substitute_variables_well_formed (f : Formula) (sm : dict Formula) :
  Forall (fun k => is_variable k = Ok true) (dict_keys sm) ->
  well_formed f = true ->
  substitute_variables f sm = Ok (single_pass sm f).
Proof.
  intros Hkeys. apply assert_each_Ok in Hkeys.
  by_shape f H; cbn [substitute_variables single_pass root]; rewrite Hkeys;
    cbn [bind].
  - rewrite Hvar, Hconst. reflexivity.
  - rewrite Hvar, Hconst. reflexivity.
  - rewrite (IH Hwa). reflexivity.
  - rewrite Hvar. cbn [bind]. rewrite Hconst, (IHa Hwa), (IHb Hwb).
    cbn [bind]. by apply Formula_init_binary.
Qed.

(** C7. [substitute_variables] is one pass over the tree: on a well-formed
    formula and a map whose keys are variable names it returns the formula in
    which each occurrence of a mapped variable name is replaced by its image
    and everything else is kept; a mapped variable name becomes exactly its
    image, in which nothing is substituted, and a constant stays; so [{p:
    (q&r)}] turns [(p|p)] into [((q&r)|(q&r))] whatever the map holds for
    [q] and [r]. *)
Theorem substitute_variables_single_pass (f : Formula) (sm : dict Formula) :
  well_formed f = true ->
  Forall (fun k => is_variable k = Ok true) (dict_keys sm) ->
  substitute_variables f sm = Ok (single_pass sm f) /\
  (forall v g, is_variable v = Ok true -> dict_get sm v = Some g ->
     substitute_variables (Atom v) sm = Ok g) /\
  (forall v, is_variable v = Ok true -> dict_get sm v = None ->
     substitute_variables (Atom v) sm = Ok (Atom v)) /\
  (forall c, is_constant c = true ->
     substitute_variables (Atom c) sm = Ok (Atom c)) /\
  (dict_get sm (py "p") =
     Some (Binary (py "&") (Atom (py "q")) (Atom (py "r"))) ->
   substitute_variables (Binary (py "|") (Atom (py "p")) (Atom (py "p"))) sm =
   Ok (Binary (py "|") (Binary (py "&") (Atom (py "q")) (Atom (py "r")))
         (Binary (py "&") (Atom (py "q")) (Atom (py "r"))))).
Proof.
  intros Hf Hkeys. split; [by apply substitute_variables_well_formed|].
  split; [|split; [|split]].
  - intros v g Hv Hg. rewrite substitute_variables_well_formed.
    + simpl. by rewrite (variable_not_constant v Hv), Hg.
    + exact Hkeys.
    + simpl. by rewrite Hv.
  - intros v Hv Hg. rewrite substitute_variables_well_formed.
    + simpl. by rewrite (variable_not_constant v Hv), Hg.
    + exact Hkeys.
    + simpl. by rewrite Hv.
  - intros c Hc. rewrite substitute_variables_well_formed.
    + simpl. by rewrite Hc.
    + exact Hkeys.
    + simpl. rewrite Hc. apply orb_true_r.
  - intros Hp. rewrite substitute_variables_well_formed; [|exact Hkeys|done].
    cbn [single_pass]. change (is_constant (py "p")) with false. cbv iota.
    rewrite Hp. reflexivity.
Qed.

Lemma substitute_variables_single_pass_witness :
  substitute_variables (Binary (py "|") (Atom (py "p")) (Atom (py "p")))
    [ (py "q", Atom (py "T")); (py "r", Unary (py "~") (Atom (py "r")));
      (py "p", Binary (py "&") (Atom (py "q")) (Atom (py "r"))) ] =
  Ok (Binary (py "|") (Binary (py "&") (Atom (py "q")) (Atom (py "r")))
        (Binary (py "&") (Atom (py "q")) (Atom (py "r")))).
Proof.
  apply (substitute_variables_single_pass
           (Binary (py "|") (Atom (py "p")) (Atom (py "p")))
           [ (py "q", Atom (py "T")); (py "r", Unary (py "~") (Atom (py "r")));
             (py "p", Binary (py "&") (Atom (py "q")) (Atom (py "r"))) ]).
  - reflexivity.
  - repeat constructor.
  - reflexivity.
Defined.

Lemma dict_get_elem {V : Type} (d : dict V) (k : str) (v : V) :
  dict_get d k = Some v -> (k, v) ∈ d.
Proof.
  induction d as [|[k' v'] d IH]; simpl; [discriminate|].
  destruct (bool_decide_reflect (k' = k)) as [->|Hne].
  - intros [= ->]. by left.
  - intros H. right. by apply IH.
Qed.

Lemma operator_map_checks (sm : dict Formula) :
  operator_map sm -> assert_each check_operator sm = Ok tt.
Proof.
  intros H. apply assert_each_Ok. eapply Forall_impl; [exact H|].
  intros [k t] (Hk & Hwf & Hsub). simpl in *. rewrite Hk.
  rewrite (variables_well_formed t Hwf). cbn [bind].
  by rewrite bool_decide_eq_true_2.
Qed.

Lemma operator_map_template (sm : dict Formula) (k : str) (t : Formula) :
  operator_map sm -> dict_get sm k = Some t -> well_formed t = true.
Proof.
  intros H Hk. apply dict_get_elem in Hk. unfold operator_map in H.
  rewrite Forall_forall in H. by destruct (H _ Hk) as (_ & Hwf & _).
Qed.

Lemma substitute_operators_well_formed (f : Formula) (sm : dict Formula) :
  operator_map sm ->
  well_formed f = true ->
  substitute_operators f sm = Ok (bottom_up sm f).
Proof.
  intros Hmap. pose proof (operator_map_checks sm Hmap) as Hchk.
  by_shape f H; cbn [substitute_operators bottom_up root]; rewrite Hchk;
    cbn [bind].
  - rewrite Hvar, Hconst. reflexivity.
  - rewrite Hvar, Hconst. cbn [bind].
    destruct (dict_get sm r) as [t|] eqn:Ht.
    + apply substitute_variables_well_formed; [constructor|].
      by apply (operator_map_template sm r).
    + by apply Formula_init_constant.
  - rewrite (IH Hwa). change (is_variable (py "~")) with (@Ok bool false).
    cbn [bind]. destruct (dict_get sm (py "~")) as [t|] eqn:Ht.
    + apply substitute_variables_well_formed; [by repeat constructor|].
      by apply (operator_map_template sm (py "~")).
    + reflexivity.
  - rewrite Hvar. cbn [bind]. rewrite (IHa Hwa), (IHb Hwb). cbn [bind].
    destruct (dict_get sm r) as [t|] eqn:Ht.
    + apply (substitute_variables_well_formed t
               [(py "p", bottom_up sm a); (py "q", bottom_up sm b)]);
        [by repeat constructor|].
      by apply (operator_map_template sm r).
    + by apply Formula_init_binary.
Qed.

(** C8. [substitute_operators] rewrites bottom-up: on a well-formed formula
    and a map from constants and operators to templates over [p] and [q], the
    operands are rewritten first; at a root that is a key the result is the
    template with [p] replaced by the rewritten first operand and [q] by the
    rewritten second operand, by the substitution of variable names; at any
    other root the node is rebuilt from its rewritten operands; and [{'&':
    ~(~p|~q)}] turns [((x&y)&~z)] into [~(~~(~x|~y)|~~z)]. *)
Theorem substitute_operators_bottom_up (f : Formula) (sm : dict Formula) :
  well_formed f = true ->
  operator_map sm ->
  substitute_operators f sm = Ok (bottom_up sm f) /\
  (forall r a b a' b' t,
     f = Binary r a b -> dict_get sm r = Some t ->
     substitute_operators a sm = Ok a' -> substitute_operators b sm = Ok b' ->
     substitute_operators f sm =
     substitute_variables t [(py "p", a'); (py "q", b')]) /\
  (forall r a b a' b',
     f = Binary r a b -> dict_get sm r = None ->
     substitute_operators a sm = Ok a' -> substitute_operators b sm = Ok b' ->
     substitute_operators f sm = Ok (Binary r a' b')) /\
  (forall r a a' t,
     f = Unary r a -> dict_get sm r = Some t ->
     substitute_operators a sm = Ok a' ->
     substitute_operators f sm = substitute_variables t [(py "p", a')]) /\
  (forall r a a',
     f = Unary r a -> dict_get sm r = None ->
     substitute_operators a sm = Ok a' ->
     substitute_operators f sm = Ok (Unary r a')) /\
  substitute_operators
    (Binary (py "&") (Binary (py "&") (Atom (py "x")) (Atom (py "y")))
       (Unary (py "~") (Atom (py "z"))))
    [ (py "&", Unary (py "~")
                 (Binary (py "|") (Unary (py "~") (Atom (py "p")))
                    (Unary (py "~") (Atom (py "q"))))) ] =
  Ok (Unary (py "~")
        (Binary (py "|")
           (Unary (py "~")
              (Unary (py "~")
                 (Binary (py "|") (Unary (py "~") (Atom (py "x")))
                    (Unary (py "~") (Atom (py "y"))))))
           (Unary (py "~") (Unary (py "~") (Atom (py "z")))))).
Proof.
  intros Hf Hmap. split; [by apply substitute_operators_well_formed|].
  split; [|split; [|split; [|split]]].
  - intros r a b a' b' t -> Ht Ha Hb.
    destruct (Binary_cases _ _ _ Hf) as (_ & _ & _ & _ & Hwa & Hwb).
    rewrite substitute_operators_well_formed in Ha, Hb |- * by done.
    injection Ha as <-. injection Hb as <-. cbn [bottom_up]. rewrite Ht.
    symmetry. apply substitute_variables_well_formed; [by repeat constructor|].
    by apply (operator_map_template sm r).
  - intros r a b a' b' -> Ht Ha Hb.
    destruct (Binary_cases _ _ _ Hf) as (_ & _ & _ & _ & Hwa & Hwb).
    rewrite substitute_operators_well_formed in Ha, Hb |- * by done.
    injection Ha as <-. injection Hb as <-. cbn [bottom_up]. by rewrite Ht.
  - intros r a a' t -> Ht Ha.
    destruct (Unary_cases _ _ Hf) as [_ Hwa].
    rewrite substitute_operators_well_formed in Ha |- * by done.
    injection Ha as <-. cbn [bottom_up]. rewrite Ht.
    symmetry. apply substitute_variables_well_formed; [by repeat constructor|].
    by apply (operator_map_template sm r).
  - intros r a a' -> Ht Ha.
    destruct (Unary_cases _ _ Hf) as [_ Hwa].
    rewrite substitute_operators_well_formed in Ha |- * by done.
    injection Ha as <-. cbn [bottom_up]. by rewrite Ht.
  - vm_compute. reflexivity.
Qed.

Lemma substitute_operators_bottom_up_witness :
  substitute_operators
    (Binary (py "->") (Atom (py "T")) (Unary (py "~") (Atom (py "x"))))
    [ (py "->", Binary (py "|") (Unary (py "~") (Atom (py "p"))) (Atom (py "q")));
      (py "T", Binary (py "|") (Atom (py "p")) (Unary (py "~") (Atom (py "p")))) ] =
  Ok (bottom_up
        [ (py "->", Binary (py "|") (Unary (py "~") (Atom (py "p"))) (Atom (py "q")));
          (py "T", Binary (py "|") (Atom (py "p")) (Unary (py "~") (Atom (py "p")))) ]
        (Binary (py "->") (Atom (py "T")) (Unary (py "~") (Atom (py "x"))))).
Proof.
  apply (substitute_operators_bottom_up
           (Binary (py "->") (Atom (py "T")) (Unary (py "~") (Atom (py "x"))))).
  - reflexivity.
  - repeat constructor; simpl; refine (bool_decide_unpack _ _); vm_compute;
      exact I.
Defined.

(** ** The enumeration of the models *)

Lemma dict_set_fresh {V : Type} (d : dict V) (k : str) (v : V) :
  k ∉ dict_keys d -> dict_set d k v = d ++ [(k, v)].
Proof.
  induction d as [|[k' v'] d IH]; simpl; intros H; [reflexivity|].
  apply not_elem_of_cons in H as [Hne H].
  rewrite bool_decide_eq_false_2 by congruence. by rewrite IH.
Qed.

Lemma dict_get_lookup {V : Type} (d : dict V) (i : nat) (k : str) (v : V) :
  NoDup (dict_keys d) -> d !! i = Some (k, v) -> dict_get d k = Some v.
Proof.
  revert i. induction d as [|[k' v'] d IH]; intros i Hnd Hi; [done|].
  simpl in Hnd. apply NoDup_cons in Hnd as [Hnotin Hnd]. destruct i as [|i].
  - injection Hi as -> ->. simpl. by rewrite bool_decide_eq_true_2.
  - simpl in Hi. simpl. rewrite bool_decide_eq_false_2; [by apply (IH i)|].
    intros ->. apply Hnotin. apply list_elem_of_fmap. exists (k, v).
    split; [done|]. by apply list_elem_of_lookup_2 with i.
Qed.

Lemma enumerate_snd {A : Type} (xs : list A) : map snd (enumerate xs) = xs.
Proof. unfold enumerate. apply snd_zip. rewrite length_seq. lia. Qed.

Lemma enumerate_lookup {A : Type} (xs : list A) (i : nat) (x : A) :
  xs !! i = Some x -> enumerate xs !! i = Some (i, x).
Proof.
  intros H. unfold enumerate. apply lookup_zip_with_Some. exists i, x.
  split; [done|]. split; [|done]. apply lookup_seq. split; [done|].
  by apply lookup_lt_Some with x.
Qed.

Lemma fold_dict_set_keys (step : nat * str -> bool) (items : list (nat * str))
  (acc : Model) (v : str) :
  v ∈ dict_keys
        (fold_left (fun m iv => dict_set m (snd iv) (step iv)) items acc) <->
  v ∈ dict_keys acc \/ v ∈ map snd items.
Proof.
  revert acc. induction items as [|iv items IH]; intros acc; simpl.
  - split; [by left | intros [H|H]; [done | by apply elem_of_nil in H]].
  - rewrite IH, dict_keys_set, elem_of_cons.
    destruct (bool_decide_reflect (snd iv ∈ dict_keys acc)) as [Hin|Hnin].
    + split; [intros [?|?]; auto | intros [?|[->|?]]; auto].
    + rewrite elem_of_app, list_elem_of_singleton. tauto.
Qed.

Lemma fold_dict_set_fresh (step : nat * str -> bool) (items : list (nat * str))
  (acc : Model) :
  NoDup (dict_keys acc ++ map snd items) ->
  fold_left (fun m iv => dict_set m (snd iv) (step iv)) items acc =
  acc ++ map (fun iv => (snd iv, step iv)) items.
Proof.
  revert acc. induction items as [|iv items IH]; intros acc Hnd; simpl.
  - by rewrite app_nil_r.
  - simpl in Hnd. rewrite dict_set_fresh.
    + rewrite IH.
      * by rewrite <- app_assoc.
      * unfold dict_keys. rewrite map_app. simpl. by rewrite <- app_assoc.
    + apply NoDup_app in Hnd as (_ & Hdis & _). intros Hin.
      apply (Hdis _ Hin). by left.
Qed.

Lemma model_of_mask_keys (variables : list str) (mask : N) (v : str) :
  v ∈ dict_keys (model_of_mask variables mask) <-> v ∈ variables.
Proof.
  unfold model_of_mask.
  rewrite (fold_dict_set_keys
             (fun iv => negb (N.land (N.shiftr mask
                (N.of_nat (length variables - 1 - fst iv))) 1 =? 0))).
  rewrite enumerate_snd. simpl. split; [intros [H|H] | intros H]; auto.
  by apply elem_of_nil in H.
Qed.

Lemma model_of_mask_items (variables : list str) (mask : N) :
  NoDup variables -> model_of_mask variables mask = mask_items variables mask.
Proof.
  intros Hnd. unfold model_of_mask, mask_items.
  rewrite (fold_dict_set_fresh
             (fun iv => negb (N.land (N.shiftr mask
                (N.of_nat (length variables - 1 - fst iv))) 1 =? 0)));
    [reflexivity|].
  simpl. by rewrite enumerate_snd.
Qed.

Lemma mask_items_keys (variables : list str) (mask : N) :
  dict_keys (mask_items variables mask) = variables.
Proof.
  unfold dict_keys, mask_items. rewrite map_map. simpl.
  apply enumerate_snd.
Qed.

Lemma low_bit (x : N) : negb (N.land x 1 =? 0) = N.testbit x 0.
Proof. destruct x as [|[p|p|]]; reflexivity. Qed.

Lemma mask_items_get (variables : list str) (mask : N) (i : nat) (v : str) :
  NoDup variables -> variables !! i = Some v ->
  dict_get (mask_items variables mask) v =
  Some (N.testbit mask (N.of_nat (length variables - 1 - i))).
Proof.
  intros Hnd Hi. apply (dict_get_lookup _ i).
  - by rewrite mask_items_keys.
  - unfold mask_items. rewrite list_lookup_fmap.
    rewrite (enumerate_lookup variables i v Hi). simpl.
    rewrite low_bit, N.shiftr_spec' . reflexivity.
Qed.

Lemma all_models_Ok (variables : list str) :
  Forall (fun v => is_variable v = Ok true) variables ->
  all_models variables =
  Ok (map (model_of_mask variables) (range (2 ^ length variables))).
Proof.
  intros H. unfold all_models. by rewrite (assert_each_Ok _ _ H).
Qed.

Lemma range_lookup (n k : nat) (x : N) :
  range n !! k = Some x -> x = N.of_nat k /\ (k < n)%nat.
Proof.
  unfold range. rewrite list_lookup_fmap. intros H.
  destruct (seq 0 n !! k) as [j|] eqn:E; [|discriminate].
  apply lookup_seq in E as [-> ?]. injection H as <-. done.
Qed.

Lemma all_models_duplicate_name :
  ~ (forall variables : list str,
       Forall (fun v => is_variable v = Ok true) variables ->
       exists models, all_models variables = Ok models /\
                      binary_counter variables models).
Proof.
  intros H. destruct (H [py "p"; py "p"]) as (models & Hm & Hc).
  { repeat constructor. }
  vm_compute in Hm. injection Hm as <-.
  specialize (Hc 2%nat 0%nat [(py "p", false)] (py "p") eq_refl eq_refl).
  vm_compute in Hc. discriminate.
Qed.

(** C5, amended. For every list of [n] valid variable names [all_models]
    yields [2^n] models, each over exactly the given names.  When the names are
    distinct, the models count in binary from all false to all true, the
    first name the most significant bit, and each model has the names in the
    order of the input.  No name yields the one empty model, and [p], [q] yield
    [{p:F,q:F}], [{p:F,q:T}], [{p:T,q:F}], [{p:T,q:T}] in this order. *)
Theorem all_models_binary_counter (variables : list str) :
  Forall (fun v => is_variable v = Ok true) variables ->
  exists models,
    all_models variables = Ok models /\
    length models = (2 ^ length variables)%nat /\
    (forall m v, m ∈ models -> v ∈ dict_keys m <-> v ∈ variables) /\
    (NoDup variables ->
     binary_counter variables models /\
     forall m, m ∈ models -> dict_keys m = variables) /\
    all_models [] = Ok [[]] /\
    all_models [py "p"; py "q"] =
    Ok [ [(py "p", false); (py "q", false)]; [(py "p", false); (py "q", true)];
         [(py "p", true); (py "q", false)]; [(py "p", true); (py "q", true)] ].
Proof.
  intros Hvalid. eexists. split; [by apply all_models_Ok|].
  split; [|split; [|split; [|split]]].
  - unfold range. by rewrite !length_map, length_seq.
  - intros m v Hm. apply list_elem_of_fmap in Hm as (mask & -> & _).
    apply model_of_mask_keys.
  - intros Hnd. split.
    + intros k i m v Hk Hi. rewrite list_lookup_fmap in Hk.
      destruct (range (2 ^ length variables) !! k) as [mask|] eqn:E;
        [|discriminate].
      apply range_lookup in E as [-> _]. injection Hk as <-.
      rewrite model_of_mask_items by done. by apply mask_items_get.
    + intros m Hm. apply list_elem_of_fmap in Hm as (mask & -> & _).
      rewrite model_of_mask_items by done. apply mask_items_keys.
  - reflexivity.
  - vm_compute. reflexivity.
Qed.

Lemma all_models_binary_counter_witness :
  exists models,
    all_models [py "r"; py "p"; py "q7"] = Ok models /\
    length models = 8%nat /\ binary_counter [py "r"; py "p"; py "q7"] models.
Proof.
  destruct (all_models_binary_counter [py "r"; py "p"; py "q7"])
    as (models & H1 & H2 & _ & H3 & _).
  - repeat constructor.
  - exists models. split; [exact H1|]. split; [exact H2|]. apply H3.
    apply (bool_decide_unpack _). vm_compute. exact I.
Defined.

(** ** The parser of the standard notation *)

Lemma read_binary_Some (rest op rest' : str) :
  read_binary rest = Some (op, rest') ->
  is_binary op = true /\ rest = op ++ rest'.
Proof.
  unfold read_binary, startswith.
  destruct (bool_decide_reflect (take (length (py "->")) rest = py "->"))
    as [E|_].
  { intros [= <- <-]. split; [reflexivity|].
    rewrite <- E. symmetry. apply take_drop. }
  destruct ((3 <=? length rest)%nat && is_binary (take 3 rest)) eqn:E3.
  { intros [= <- <-]. apply andb_true_iff in E3 as [_ E3].
    split; [exact E3 | symmetry; apply take_drop]. }
  destruct ((2 <=? length rest)%nat && is_binary (take 2 rest)) eqn:E2.
  { intros [= <- <-]. apply andb_true_iff in E2 as [_ E2].
    split; [exact E2 | symmetry; apply take_drop]. }
  destruct ((1 <=? length rest)%nat && is_binary (take 1 rest)) eqn:E1.
  { intros [= <- <-]. apply andb_true_iff in E1 as [_ E1].
    split; [exact E1 | symmetry; apply take_drop]. }
  discriminate.
Qed.

Lemma not_binary (s : str) : s ∉ binary_operators -> is_binary s = false.
Proof. intros H. by apply bool_decide_eq_false_2. Qed.

Ltac no_operator :=
  apply not_binary; intros Hop; each_operator Hop; discriminate.

(** No operator is a prefix of another, so the chain of tests finds the
    operator whatever follows it. *)
Lemma read_binary_operator (op w : str) :
  is_binary op = true -> read_binary (op ++ w) = Some (op, w).
Proof.
  intros H. apply is_binary_elem in H.
  each_operator H; unfold read_binary, startswith;
    destruct w as [|c1 [|c2 w]]; cbn [py app length take drop map list_ascii_of_string];
    repeat first
      [ rewrite bool_decide_eq_true_2 by reflexivity
      | rewrite bool_decide_eq_false_2 by discriminate ];
    cbn [Nat.leb andb];
    repeat (match goal with
            | |- context [is_binary ?s] =>
                first [ replace (is_binary s) with true by (symmetry; by vm_compute)
                      | replace (is_binary s) with false by (symmetry; no_operator) ]
            end; cbn [Nat.leb andb]);
    try reflexivity.
Qed.
Lemma scan_decimal_plus (s : str) (i : nat) :
  scan_decimal s i = (i + scan_decimal s 0)%nat.
Proof.
  revert i. induction s as [|c s IH]; intros i; simpl; [lia|].
  destruct (isdecimal c); [|lia]. rewrite (IH (S i)), (IH 1%nat). lia.
Qed.

Lemma scan_decimal_take (s : str) :
  forallb isdecimal (take (scan_decimal s 0) s) = true.
Proof.
  induction s as [|c s IH]; simpl; [reflexivity|].
  destruct (isdecimal c) eqn:E; [|reflexivity].
  rewrite scan_decimal_plus. simpl. by rewrite E, IH.
Qed.

Lemma scan_decimal_app (ds w : str) :
  forallb isdecimal ds = true ->
  scan_decimal (ds ++ w) 0 = (length ds + scan_decimal w 0)%nat.
Proof.
  induction ds as [|d ds IH]; simpl; intros H; [reflexivity|].
  apply andb_true_iff in H as [Hd H]. rewrite Hd.
  rewrite scan_decimal_plus, (IH H). lia.
Qed.

Lemma scan_decimal_le (s : str) : (scan_decimal s 0 <= length s)%nat.
Proof.
  induction s as [|c s IH]; simpl; [lia|].
  destruct (isdecimal c); [|lia]. rewrite scan_decimal_plus. lia.
Qed.

(** The token of a name: its first character and the digits after it. *)
Lemma token_take (c : N) (s : str) :
  take (scan_decimal s 1) (c :: s) = c :: take (scan_decimal s 0) s.
Proof. rewrite scan_decimal_plus. reflexivity. Qed.

Lemma token_drop (c : N) (s : str) :
  drop (scan_decimal s 1) (c :: s) = drop (scan_decimal s 0) s.
Proof. rewrite scan_decimal_plus. reflexivity. Qed.

(** One step of the parser on a non-empty string. *)
Ltac parser_step :=
  cbn [_parse_prefix_fuel];
  match goal with
  | |- context [drop 1 (?c :: ?s)] => change (drop 1 (c :: s)) with s
  end.

Section ParserProperties.

Variable isalpha : N -> bool.

(** A parsed formula is well-formed and prints as the consumed prefix. *)
Lemma parse_prefix_sound (fuel : nat) :
  forall (s : str) (f : Formula) (rest : str),
    _parse_prefix_fuel isalpha fuel s = Ok (Some f, rest) ->
    well_formed f = true /\ s = show f ++ rest.
Proof.
  induction fuel as [|fuel IH]; intros s f rest H; [discriminate|].
  destruct s as [|c s]; [discriminate|].
  cbn [_parse_prefix_fuel] in H. change (drop 1 (c :: s)) with s in H.
  destruct (is_constant [c]) eqn:Hc.
  { rewrite (Formula_init_constant _ Hc) in H. injection H as <- <-.
    split; [simpl; rewrite Hc; apply orb_true_r | reflexivity]. }
  destruct (isalpha c).
  { destruct (is_variable (take (scan_decimal s 1) (c :: s)))
      as [[|]|e] eqn:Hv; cbn [bind] in H; [|discriminate..].
    rewrite (Formula_init_variable _ Hv) in H. injection H as <- <-.
    split; [cbn [well_formed]; by rewrite Hv | symmetry; apply take_drop]. }
  destruct (bool_decide_reflect (c = chr "~")) as [->|_].
  { apply bind_Ok in H as ([inner rest0] & Hrec & H).
    destruct inner as [g|]; [|discriminate]. injection H as <- <-.
    apply IH in Hrec as [Hw Hs]. split; [exact Hw|].
    simpl in Hs. rewrite Hs. reflexivity. }
  destruct (bool_decide_reflect (c = chr "(")) as [->|_]; [|discriminate].
  apply bind_Ok in H as ([left_ rest0] & Hrec & H).
  destruct left_ as [g|]; [|discriminate].
  destruct (read_binary rest0) as [[op rest1]|] eqn:Hop; [|discriminate].
  apply bind_Ok in H as ([right_ rest2] & Hrec2 & H).
  destruct right_ as [h|]; [|discriminate].
  destruct rest2 as [|c2 rest2]; [discriminate|].
  destruct (bool_decide_reflect (c2 = chr ")")) as [->|_]; [|discriminate].
  apply read_binary_Some in Hop as [Hbin ->].
  rewrite (Formula_init_binary _ _ _ Hbin) in H. injection H as <- <-.
  apply IH in Hrec as [Hwg Hs]. apply IH in Hrec2 as [Hwh Hs2].
  split; [simpl; by rewrite Hbin, Hwg, Hwh|].
  simpl in Hs. rewrite Hs, Hs2. simpl. rewrite <- !app_assoc. reflexivity.
Qed.

(** What is left is no longer than the input. *)
Lemma parse_prefix_rest (fuel : nat) (s : str) (f : Formula) (rest : str) :
  _parse_prefix_fuel isalpha fuel s = Ok (Some f, rest) ->
  (length rest <= length s)%nat.
Proof.
  intros H. apply parse_prefix_sound in H as [_ ->]. rewrite length_app. lia.
Qed.

(** With fuel above the length of the string, the parser returns. *)
Lemma parse_prefix_total (fuel : nat) :
  forall s : str, (length s < fuel)%nat ->
    exists r, _parse_prefix_fuel isalpha fuel s = Ok r.
Proof.
  induction fuel as [|fuel IH]; intros s Hlen; [lia|].
  destruct s as [|c s]; [eexists; reflexivity|].
  parser_step. simpl in Hlen.
  destruct (is_constant [c]) eqn:Hc.
  { rewrite (Formula_init_constant _ Hc). eexists. reflexivity. }
  destruct (isalpha c).
  { rewrite token_take.
    destruct (is_variable_nonempty c (take (scan_decimal s 0) s)) as [b Hb].
    rewrite Hb. cbn [bind]. destruct b; [|eexists; reflexivity].
    rewrite (Formula_init_variable _ Hb). eexists. reflexivity. }
  destruct (bool_decide (c = chr "~")).
  { destruct (IH s) as [[inner rest0] Hrec]; [lia|]. rewrite Hrec. cbn [bind].
    destruct inner; eexists; reflexivity. }
  destruct (bool_decide (c = chr "(")); [|eexists; reflexivity].
  destruct (IH s) as [[left_ rest0] Hrec]; [lia|]. rewrite Hrec. cbn [bind].
  destruct left_ as [g|]; [|eexists; reflexivity].
  destruct (read_binary rest0) as [[op rest1]|] eqn:Hop;
    [|eexists; reflexivity].
  apply parse_prefix_rest in Hrec.
  apply read_binary_Some in Hop as [Hbin ->]. rewrite length_app in Hrec.
  destruct (IH rest1) as [[right_ rest2] Hrec2]; [lia|]. rewrite Hrec2.
  cbn [bind]. destruct right_ as [h|]; [|eexists; reflexivity].
  destruct rest2 as [|c2 rest2]; [eexists; reflexivity|].
  destruct (bool_decide (c2 = chr ")")); [|eexists; reflexivity].
  rewrite (Formula_init_binary _ _ _ Hbin). eexists. reflexivity.
Qed.

(** More fuel does not change a result. *)
Lemma parse_prefix_fuel_mono (fuel : nat) :
  forall (fuel' : nat) (s : str) (r : option Formula * str),
    _parse_prefix_fuel isalpha fuel s = Ok r -> (fuel <= fuel')%nat ->
    _parse_prefix_fuel isalpha fuel' s = Ok r.
Proof.
  induction fuel as [|fuel IH]; intros fuel' s r H Hle; [discriminate|].
  destruct fuel' as [|fuel']; [lia|]. apply le_S_n in Hle.
  destruct s as [|c s]; [exact H|].
  cbn [_parse_prefix_fuel] in H. change (drop 1 (c :: s)) with s in H.
  parser_step.
  destruct (is_constant [c]); [exact H|].
  destruct (isalpha c); [exact H|].
  destruct (bool_decide (c = chr "~")).
  { apply bind_Ok in H as (x & Hrec & H).
    by rewrite (IH fuel' s x Hrec Hle). }
  destruct (bool_decide (c = chr "(")); [|exact H].
  apply bind_Ok in H as ([left_ rest0] & Hrec & H).
  rewrite (IH fuel' s _ Hrec Hle). cbn [bind].
  destruct left_ as [g|]; [|exact H].
  destruct (read_binary rest0) as [[op rest1]|]; [|exact H].
  apply bind_Ok in H as (x & Hrec2 & H).
  by rewrite (IH fuel' rest1 x Hrec2 Hle).
Qed.

Lemma parse_prefix_fuel_enough (fuel : nat) (s : str) :
  (length s < fuel)%nat ->
  _parse_prefix_fuel isalpha fuel s = _parse_prefix isalpha s.
Proof.
  intros Hlen. unfold _parse_prefix.
  destruct (parse_prefix_total (S (length s)) s) as [r Hr]; [lia|].
  rewrite Hr. apply (parse_prefix_fuel_mono (S (length s))); [exact Hr | lia].
Qed.

End ParserProperties.
Lemma depth_show (f : Formula) : (depth f <= length (show f))%nat.
Proof.
  induction f as [r|r a IH|r a IHa b IHb]; simpl; [lia | lia |].
  rewrite !length_app. simpl. lia.
Qed.

Lemma scan_decimal_stop (w : str) :
  starts_decimal w = false -> scan_decimal w 0 = 0%nat.
Proof. destruct w as [|c w]; simpl; [done|]. by intros ->. Qed.

Lemma variable_not_constant_head (c : N) :
  chr "p" <= c -> is_constant [c] = false.
Proof.
  intros H. destruct (is_constant [c]) eqn:E; [|reflexivity].
  apply is_constant_cases in E as [[= ->]|[= ->]]; vm_compute in H; done.
Qed.

Lemma operator_not_decimal (r : str) (w : str) :
  is_binary r = true -> starts_decimal (r ++ w) = false.
Proof.
  intros H. apply is_binary_elem in H. each_operator H; by vm_compute.
Qed.

Section ParserExact.

Variable isalpha : N -> bool.
Hypothesis isalpha_ascii : forall c, c < 128 -> isalpha c = ascii_letter c.

Lemma isalpha_variable (c : N) :
  chr "p" <= c -> c <= chr "z" -> isalpha c = true.
Proof.
  intros H1 H2. change (chr "p") with 112 in H1. change (chr "z") with 122 in H2.
  rewrite isalpha_ascii by lia. unfold ascii_letter.
  apply orb_true_iff. right. apply andb_true_iff. split; apply N.leb_le; lia.
Qed.

(** Followed by anything but a decimal digit, the string of a formula is
    parsed back into the formula. *)
Lemma parse_prefix_exact (f : Formula) :
  well_formed f = true ->
  forall (w : str) (fuel : nat),
    starts_decimal w = false -> (depth f < fuel)%nat ->
    _parse_prefix_fuel isalpha fuel (show f ++ w) = Ok (Some f, w).
Proof.
  by_shape f H; intros w fuel Hw Hfuel; (destruct fuel as [|fuel]; [lia|]);
    simpl in Hfuel.
  - apply is_variable_Ok_true in Hvar as Hr.
    destruct Hr as (c & ds & -> & H1 & H2 & H3).
    cbn [show app]. parser_step.
    rewrite (variable_not_constant_head c H1), (isalpha_variable c H1 H2).
    rewrite token_take, token_drop, (scan_decimal_app ds w H3).
    rewrite (scan_decimal_stop w Hw), Nat.add_0_r.
    rewrite take_app_length, drop_app_length, Hvar. cbn [bind].
    by rewrite (Formula_init_variable _ Hvar).
  - apply is_constant_cases in Hconst as [-> | ->]; reflexivity.
  - change (show (Unary (py "~") a) ++ w) with (chr "~" :: (show a ++ w)).
    parser_step. change (is_constant [chr "~"]) with false. cbv iota.
    rewrite isalpha_ascii by reflexivity.
    change (ascii_letter (chr "~")) with false. cbv iota.
    rewrite bool_decide_eq_true_2 by reflexivity.
    rewrite (IH Hwa w fuel Hw) by lia. reflexivity.
  - replace (show (Binary r a b) ++ w)
      with (chr "(" :: (show a ++ (r ++ (show b ++ chr ")" :: w))))
      by (simpl; rewrite <- !app_assoc; reflexivity).
    parser_step. change (is_constant [chr "("]) with false. cbv iota.
    rewrite isalpha_ascii by reflexivity.
    change (ascii_letter (chr "(")) with false. cbv iota.
    rewrite bool_decide_eq_false_2 by discriminate.
    rewrite bool_decide_eq_true_2 by reflexivity.
    rewrite (IHa Hwa) by (by apply operator_not_decimal || lia).
    cbn [bind]. rewrite (read_binary_operator r _ Hbin).
    rewrite (IHb Hwb) by (reflexivity || lia). cbn [bind].
    rewrite bool_decide_eq_true_2 by reflexivity.
    by rewrite (Formula_init_binary _ _ _ Hbin).
Qed.

(** Followed by anything, the string of a formula is parsed into a formula,
    with no more left than what follows. *)
Lemma parse_prefix_extend (f : Formula) :
  well_formed f = true ->
  forall (w : str) (fuel : nat),
    (depth f < fuel)%nat ->
    exists f' rest,
      _parse_prefix_fuel isalpha fuel (show f ++ w) = Ok (Some f', rest) /\
      (length rest <= length w)%nat.
Proof.
  by_shape f H; intros w fuel Hfuel; (destruct fuel as [|fuel]; [lia|]);
    simpl in Hfuel.
  - apply is_variable_Ok_true in Hvar as Hr.
    destruct Hr as (c & ds & -> & H1 & H2 & H3).
    cbn [show app]. parser_step.
    rewrite (variable_not_constant_head c H1), (isalpha_variable c H1 H2).
    rewrite token_take, token_drop.
    assert (is_variable (c :: take (scan_decimal (ds ++ w) 0) (ds ++ w))
            = Ok true) as Hv.
    { apply is_variable_Ok_true. eexists _, _. split; [reflexivity|].
      split; [done|]. split; [done|]. apply scan_decimal_take. }
    rewrite Hv. cbn [bind]. rewrite (Formula_init_variable _ Hv).
    eexists _, _. split; [reflexivity|].
    rewrite length_drop, length_app, (scan_decimal_app ds w H3). lia.
  - exists (Atom r), w. split; [|lia].
    apply is_constant_cases in Hconst as [-> | ->]; reflexivity.
  - change (show (Unary (py "~") a) ++ w) with (chr "~" :: (show a ++ w)).
    parser_step. change (is_constant [chr "~"]) with false. cbv iota.
    rewrite isalpha_ascii by reflexivity.
    change (ascii_letter (chr "~")) with false. cbv iota.
    rewrite bool_decide_eq_true_2 by reflexivity.
    destruct (IH Hwa w fuel) as (a' & rest & Hrec & Hlen); [lia|].
    rewrite Hrec. eexists _, _. split; [reflexivity | exact Hlen].
  - exists (Binary r a b), w. split; [|lia].
    replace (show (Binary r a b) ++ w)
      with (chr "(" :: (show a ++ (r ++ (show b ++ chr ")" :: w))))
      by (simpl; rewrite <- !app_assoc; reflexivity).
    parser_step. change (is_constant [chr "("]) with false. cbv iota.
    rewrite isalpha_ascii by reflexivity.
    change (ascii_letter (chr "(")) with false. cbv iota.
    rewrite bool_decide_eq_false_2 by discriminate.
    rewrite bool_decide_eq_true_2 by reflexivity.
    rewrite (parse_prefix_exact a Hwa)
      by (by apply operator_not_decimal || lia).
    cbn [bind]. rewrite (read_binary_operator r _ Hbin).
    rewrite (parse_prefix_exact b Hwb) by (reflexivity || lia). cbn [bind].
    rewrite bool_decide_eq_true_2 by reflexivity.
    by rewrite (Formula_init_binary _ _ _ Hbin).
Qed.

End ParserExact.
Section ParserMessages.

Variable isalpha : N -> bool.

(** Without a formula the parser returns one of its messages. *)
Lemma parse_prefix_error (fuel : nat) :
  forall (s msg : str),
    _parse_prefix_fuel isalpha fuel s = Ok (None, msg) -> parse_error msg.
Proof.
  induction fuel as [|fuel IH]; intros s msg H; [discriminate|].
  destruct s as [|c s]; [injection H as <-; constructor|].
  cbn [_parse_prefix_fuel] in H. change (drop 1 (c :: s)) with s in H.
  destruct (is_constant [c]) eqn:Hc.
  { by rewrite (Formula_init_constant _ Hc) in H. }
  destruct (isalpha c).
  { destruct (is_variable (take (scan_decimal s 1) (c :: s)))
      as [[|]|e] eqn:Hv; cbn [bind] in H; [|injection H as <-; constructor|done].
    by rewrite (Formula_init_variable _ Hv) in H. }
  destruct (bool_decide (c = chr "~")).
  { apply bind_Ok in H as ([inner rest0] & Hrec & H).
    destruct inner as [g|]; [discriminate|]. injection H as <-.
    by apply (IH s). }
  destruct (bool_decide (c = chr "("));
    [|injection H as <-; constructor].
  apply bind_Ok in H as ([left_ rest0] & Hrec & H).
  destruct left_ as [g|]; [|injection H as <-; by apply (IH s)].
  destruct (read_binary rest0) as [[op rest1]|] eqn:Hop;
    [|injection H as <-; constructor].
  apply bind_Ok in H as ([right_ rest2] & Hrec2 & H).
  destruct right_ as [h|]; [|injection H as <-; by apply (IH rest1)].
  destruct rest2 as [|c2 rest2]; [injection H as <-; constructor|].
  destruct (bool_decide (c2 = chr ")")); [|injection H as <-; constructor].
  apply read_binary_Some in Hop as [Hbin _].
  by rewrite (Formula_init_binary _ _ _ Hbin) in H.
Qed.

Lemma is_formula_true (s : str) :
  is_formula isalpha s = Ok true <->
  exists f, _parse_prefix isalpha s = Ok (Some f, []).
Proof.
  unfold is_formula. split.
  - intros H. apply bind_Ok in H as ([parsed rest] & Hp & H).
    injection H as H. apply andb_true_iff in H as [H1 H2].
    apply bool_decide_eq_true in H1, H2. subst rest.
    destruct parsed as [f|]; [eauto | done].
  - intros [f ->]. reflexivity.
Qed.

End ParserMessages.

(** The parser looks at [isalpha] on the characters of its input only. *)
Lemma parse_prefix_fuel_ext (isalpha1 isalpha2 : N -> bool) (fuel : nat) :
  forall s : str,
    Forall (fun c => isalpha1 c = isalpha2 c) s ->
    _parse_prefix_fuel isalpha1 fuel s = _parse_prefix_fuel isalpha2 fuel s.
Proof.
  induction fuel as [|fuel IH]; intros s Hs; [reflexivity|].
  destruct s as [|c s]; [reflexivity|].
  apply Forall_cons in Hs as [Hc Hs].
  cbn [_parse_prefix_fuel]. change (drop 1 (c :: s)) with s.
  rewrite Hc, (IH s Hs).
  destruct (is_constant [c]); [reflexivity|].
  destruct (isalpha2 c); [reflexivity|].
  destruct (bool_decide (c = chr "~")); [reflexivity|].
  destruct (bool_decide (c = chr "(")); [|reflexivity].
  destruct (_parse_prefix_fuel isalpha2 fuel s) as [[left_ rest0]|e] eqn:E;
    [|reflexivity].
  cbn [bind]. destruct left_ as [g|]; [|reflexivity].
  destruct (read_binary rest0) as [[op rest1]|] eqn:Hop; [|reflexivity].
  rewrite (IH rest1); [reflexivity|].
  apply parse_prefix_sound in E as [_ ->].
  apply read_binary_Some in Hop as [_ ->].
  apply Forall_app in Hs as [_ Hs]. by apply Forall_app in Hs as [_ Hs].
Qed.

Section ParserTheorems.

Variable isalpha : N -> bool.
Hypothesis isalpha_ascii : forall c, c < 128 -> isalpha c = ascii_letter c.

Lemma is_formula_ascii (s : str) :
  Forall (fun c => c < 128) s ->
  is_formula isalpha s = is_formula ascii_letter s.
Proof.
  intros H. unfold is_formula, _parse_prefix.
  rewrite (parse_prefix_fuel_ext isalpha ascii_letter); [reflexivity|].
  eapply Forall_impl; [exact H|]. intros c Hc. by apply isalpha_ascii.
Qed.

Lemma parse_prefix_show (f : Formula) :
  well_formed f = true -> _parse_prefix isalpha (show f) = Ok (Some f, []).
Proof.
  intros H. unfold _parse_prefix.
  rewrite <- (app_nil_r (show f)) at 2.
  apply parse_prefix_exact; [done.. |]. pose proof (depth_show f). lia.
Qed.

(** C2. For every well-formed formula [f], [str(f)] is parsed back into
    [f]: [parse(str(f))] returns the same tree, which is equal to [f] under
    [Formula.__eq__]. *)
Theorem parse_repr_round_trip (f : Formula) :
  well_formed f = true ->
  exists s g, __repr__ f = Ok s /\ parse isalpha s = Ok g /\ g = f /\
              Formula_eq g f = Ok true.
Proof.
  intros H. exists (show f), f. split; [by apply repr_well_formed|].
  pose proof (parse_prefix_show f H) as Hp.
  split; [|split; [reflexivity|]].
  - unfold parse, is_formula. rewrite Hp. reflexivity.
  - unfold Formula_eq. rewrite (repr_well_formed f H). cbn [bind].
    by rewrite bool_decide_eq_true_2.
Qed.

(** The string of a formula that the constructor can build is no longer than
    what the parser reads, when it is a prefix of the input. *)
Lemma longest_prefix (s : str) (g f : Formula) (rest : str) :
  _parse_prefix isalpha s = Ok (Some f, rest) ->
  well_formed g = true -> show g `prefix_of` s ->
  (length (show g) <= length (show f))%nat.
Proof.
  intros Hs Hwg [w ->].
  destruct (parse_prefix_extend isalpha isalpha_ascii g Hwg w
              (S (length (show g ++ w)))) as (f' & rest' & Hp & Hlen).
  { pose proof (depth_show g). rewrite length_app. lia. }
  unfold _parse_prefix in Hs. rewrite Hp in Hs. injection Hs as -> ->.
  apply parse_prefix_sound in Hp as [_ Hp].
  apply (f_equal length) in Hp. rewrite !length_app in Hp. lia.
Qed.

(** When the parser reads no formula, the input does not start with the
    string of a formula. *)
Lemma no_prefix (s msg : str) (g : Formula) :
  _parse_prefix isalpha s = Ok (None, msg) ->
  well_formed g = true -> ~ show g `prefix_of` s.
Proof.
  intros Hs Hwg [w ->].
  destruct (parse_prefix_extend isalpha isalpha_ascii g Hwg w
              (S (length (show g ++ w)))) as (f' & rest' & Hp & Hlen).
  { pose proof (depth_show g). rewrite length_app. lia. }
  unfold _parse_prefix in Hs. rewrite Hp in Hs. discriminate.
Qed.

(** A string that [is_formula] accepts is the string of a formula that the
    constructor can build. *)
Lemma is_formula_show (u : str) :
  is_formula isalpha u = Ok true ->
  exists g, well_formed g = true /\ show g = u.
Proof.
  intros Hu. apply is_formula_true in Hu as [g Hg].
  apply parse_prefix_sound in Hg as [Hwg Hu]. rewrite app_nil_r in Hu.
  by exists g.
Qed.

(** C6. On every string [_parse_prefix] returns, without raising: either a
    formula and the rest of the string, or no formula and one of the error
    messages.  A returned formula is one that the constructor can build; its
    string followed by the rest is the input and is itself accepted by
    [is_formula]; and it is the longest formula at the start of the input:
    no prefix of the input that is the string of a constructible formula, or
    that [is_formula] accepts, is longer.  When no formula is returned, no
    prefix of the input is the string of a constructible formula, and
    [is_formula] accepts none.  [is_formula] returns true exactly when
    [_parse_prefix] returns a formula and the empty rest, so it rejects an
    unmatched parenthesis, an unknown token, a truncated binary application
    and trailing characters. *)
Theorem parse_prefix_contract (s : str) :
  (exists r, _parse_prefix isalpha s = Ok r) /\
  (forall f rest, _parse_prefix isalpha s = Ok (Some f, rest) ->
     well_formed f = true /\
     exists printed, __repr__ f = Ok printed /\ printed ++ rest = s /\
       is_formula isalpha printed = Ok true /\
       (forall u g, u `prefix_of` s ->
          well_formed g = true -> __repr__ g = Ok u ->
          (length u <= length printed)%nat) /\
       forall u, u `prefix_of` s -> is_formula isalpha u = Ok true ->
                 (length u <= length printed)%nat) /\
  (forall msg, _parse_prefix isalpha s = Ok (None, msg) ->
     parse_error msg /\
     (forall u g, u `prefix_of` s ->
        well_formed g = true -> __repr__ g <> Ok u) /\
     forall u, u `prefix_of` s -> is_formula isalpha u <> Ok true) /\
  (exists b, is_formula isalpha s = Ok b) /\
  (is_formula isalpha s = Ok true <->
   exists f, _parse_prefix isalpha s = Ok (Some f, [])) /\
  is_formula isalpha (py "(p&q") = Ok false /\
  is_formula isalpha (py "p&q)") = Ok false /\
  is_formula isalpha (py "(p#q)") = Ok false /\
  is_formula isalpha (py "(p&") = Ok false /\
  is_formula isalpha (py "(p&q)r") = Ok false /\
  is_formula isalpha (py "(p&q)") = Ok true.
Proof.
  destruct (parse_prefix_total isalpha (S (length s)) s) as [r Hr]; [lia|].
  fold (_parse_prefix isalpha s) in Hr.
  split; [eauto|]. split; [|split; [|split; [|split]]].
  - intros f rest H.
    pose proof (parse_prefix_sound isalpha _ _ _ _ H) as [Hwf Hs].
    split; [exact Hwf|]. exists (show f).
    split; [by apply repr_well_formed|]. split; [done|].
    split; [apply is_formula_true; exists f; by apply parse_prefix_show|].
    split.
    + intros u g Hu Hwg Hg. rewrite (repr_well_formed g Hwg) in Hg.
      injection Hg as <-. by apply (longest_prefix s g f rest).
    + intros u Hu1 Hu2. apply is_formula_show in Hu2 as (g & Hwg & <-).
      by apply (longest_prefix s g f rest).
  - intros msg H. split; [by apply (parse_prefix_error isalpha _ _ _ H)|].
    split.
    + intros u g Hu Hwg Hg. rewrite (repr_well_formed g Hwg) in Hg.
      injection Hg as <-. by apply (no_prefix s msg g).
    + intros u Hu1 Hu2. apply is_formula_show in Hu2 as (g & Hwg & <-).
      by apply (no_prefix s msg g).
  - unfold is_formula. rewrite Hr. destruct r. eexists. reflexivity.
  - apply is_formula_true.
  - repeat split; (rewrite is_formula_ascii; [by vm_compute|]);
      apply Forall_forall; intros c Hc; apply list_elem_of_In in Hc;
      vm_compute in Hc; intuition (subst; reflexivity).
Qed.

End ParserTheorems.

Lemma parse_repr_round_trip_witness :
  exists s g,
    __repr__ (Binary (py "<->") (Unary (py "~") (Atom (py "x12")))
                (Binary (py "-|") (Atom (py "T")) (Atom (py "q")))) = Ok s /\
    parse ascii_letter s = Ok g /\
    g = Binary (py "<->") (Unary (py "~") (Atom (py "x12")))
          (Binary (py "-|") (Atom (py "T")) (Atom (py "q"))) /\
    Formula_eq g
      (Binary (py "<->") (Unary (py "~") (Atom (py "x12")))
         (Binary (py "-|") (Atom (py "T")) (Atom (py "q")))) = Ok true.
Proof.
  apply (parse_repr_round_trip ascii_letter).
  - intros c Hc. reflexivity.
  - reflexivity.
Defined.

Lemma parse_prefix_contract_witness :
  _parse_prefix ascii_letter (py "x12)q") =
    Ok (Some (Atom (py "x12")), py ")q") /\
  (forall u g, u `prefix_of` py "x12)q" ->
     well_formed g = true -> __repr__ g = Ok u -> (length u <= 3)%nat) /\
  forall u g, u `prefix_of` py ")x12" ->
    well_formed g = true -> __repr__ g <> Ok u.
Proof.
  assert (forall c, c < 128 -> ascii_letter c = ascii_letter c) as Hascii
    by reflexivity.
  split; [reflexivity|]. split.
  - destruct (parse_prefix_contract ascii_letter Hascii (py "x12)q"))
      as (_ & Hread & _).
    destruct (Hread (Atom (py "x12")) (py ")q") eq_refl)
      as (_ & printed & Hprinted & _ & _ & Hlongest & _).
    injection Hprinted as <-. exact Hlongest.
  - destruct (parse_prefix_contract ascii_letter Hascii (py ")x12"))
      as (_ & _ & Hnone & _).
    destruct (Hnone (py "unexpected token: )") eq_refl) as (_ & Hno & _).
    exact Hno.
Defined.

(** ** The parser of the Polish notation *)

Lemma depth_show_polish (f : Formula) :
  well_formed f = true -> (depth f <= length (show_polish f))%nat.
Proof.
  by_shape f H; simpl; [lia | lia | specialize (IH Hwa); lia |].
  specialize (IHa Hwa). specialize (IHb Hwb). rewrite !length_app.
  assert (1 <= length r)%nat; [|lia].
  apply is_binary_elem in Hbin. each_operator Hbin; simpl; lia.
Qed.

Lemma startswith_arrow (c : N) (x : str) :
  c <> chr "-" -> startswith (c :: x) (py "->") = false.
Proof.
  intros H. apply bool_decide_eq_false_2. simpl. intros [= -> _]. done.
Qed.

Lemma variable_not_decimal (c : N) : chr "p" <= c -> c <= chr "z" ->
  isdecimal c = false.
Proof.
  intros H1 H2. change (chr "p") with 112 in H1. change (chr "z") with 122 in H2.
  rewrite isdecimal_ascii by lia. unfold ascii_digit.
  apply andb_false_iff. right. apply N.leb_gt. change (chr "9") with 57. lia.
Qed.

Lemma polish_not_decimal (f : Formula) (w : str) :
  well_formed f = true -> starts_decimal (show_polish f ++ w) = false.
Proof.
  destruct f as [r|r a|r a b]; intros H.
  - destruct (Atom_cases _ H) as [[Hvar _]|[_ Hconst]].
    + apply is_variable_Ok_true in Hvar as (c & ds & -> & H1 & H2 & _).
      simpl. by apply variable_not_decimal.
    + apply is_constant_cases in Hconst as [-> | ->]; by vm_compute.
  - destruct (Unary_cases _ _ H) as [-> _]. by vm_compute.
  - destruct (Binary_cases _ _ _ H) as (Hbin & _). simpl.
    rewrite <- app_assoc. by apply operator_not_decimal.
Qed.

Section PolishParser.

Variable isalpha : N -> bool.

(** The Polish parser has no case for [+], [<->], [-&] and [-|]. *)
Lemma parse_polish_unread (op : str) (c : N) (rest w : str) :
  op = c :: rest -> c <> chr "~" -> c <> chr "&" -> c <> chr "|" ->
  is_constant [c] = false ->
  startswith (op ++ w) (py "->") = false ->
  starts_decimal (rest ++ w) = false ->
  (chr "p" <=? c) = false ->
  parse_polish isalpha (op ++ w) = Raise AssertionError.
Proof.
  intros -> H1 H2 H3 H4 H5 H6 H7. unfold parse_polish, _parse_polish_prefix.
  cbn [app length _parse_polish_prefix_fuel] in *.
  change (drop 1 (c :: rest ++ w)) with (rest ++ w).
  rewrite H5, H4. rewrite !bool_decide_eq_false_2.
  - destruct (isalpha c); [|reflexivity].
    rewrite token_take, (scan_decimal_stop _ H6). cbn [firstn].
    unfold is_variable. rewrite H7. reflexivity.
  - intros Hin. apply elem_of_cons in Hin as [[= ->]|Hin]; [done|].
    apply elem_of_cons in Hin as [[= ->]|Hin]; [done|].
    by apply elem_of_nil in Hin.
  - exact H1.
Qed.

End PolishParser.

(** C3. [parse_polish] does not read back the Polish string of a formula with
    one of the operators [+], [<->], [-&] or [-|]: on the strings [+pq],
    [<->pq], [-&pq] and [-|pq] that [polish] gives for the four formulas on
    [p] and [q], [_parse_polish_prefix] returns no formula and [parse_polish]
    fails its assertion, whatever [str.isalpha] is. *)
Theorem parse_polish_misses_operators (isalpha : N -> bool) :
  polish (Binary (py "+") (Atom (py "p")) (Atom (py "q"))) = Ok (py "+pq") /\
  parse_polish isalpha (py "+pq") = Raise AssertionError /\
  polish (Binary (py "<->") (Atom (py "p")) (Atom (py "q"))) = Ok (py "<->pq") /\
  parse_polish isalpha (py "<->pq") = Raise AssertionError /\
  polish (Binary (py "-&") (Atom (py "p")) (Atom (py "q"))) = Ok (py "-&pq") /\
  parse_polish isalpha (py "-&pq") = Raise AssertionError /\
  polish (Binary (py "-|") (Atom (py "p")) (Atom (py "q"))) = Ok (py "-|pq") /\
  parse_polish isalpha (py "-|pq") = Raise AssertionError /\
  parse ascii_letter (py "(p+q)") =
  Ok (Binary (py "+") (Atom (py "p")) (Atom (py "q"))).
Proof.
  split; [reflexivity|]. split.
  { by apply (parse_polish_unread isalpha (py "+") (chr "+") [] (py "pq")). }
  split; [reflexivity|]. split.
  { by apply (parse_polish_unread isalpha (py "<->") (chr "<") (py "->")
                (py "pq")). }
  split; [reflexivity|]. split.
  { by apply (parse_polish_unread isalpha (py "-&") (chr "-") (py "&")
                (py "pq")). }
  split; [reflexivity|]. split.
  { by apply (parse_polish_unread isalpha (py "-|") (chr "-") (py "|")
                (py "pq")). }
  by vm_compute.
Qed.

Section PolishRoundTrip.

Variable isalpha : N -> bool.
Hypothesis isalpha_ascii : forall c, c < 128 -> isalpha c = ascii_letter c.

Ltac polish_step :=
  cbn [_parse_polish_prefix_fuel];
  match goal with
  | |- context [drop 1 (?c :: ?s)] => change (drop 1 (c :: s)) with s
  end.

(** Followed by anything but a decimal digit, the Polish string of a formula
    over [&], [|] and [->] is parsed back into the formula. *)
Lemma parse_polish_prefix_exact (f : Formula) :
  well_formed f = true ->
  polish_readable f = true ->
  forall (w : str) (fuel : nat),
    starts_decimal w = false -> (depth f < fuel)%nat ->
    _parse_polish_prefix_fuel isalpha fuel (show_polish f ++ w) = Ok (Some f, w).
Proof.
  by_shape f H; intros Hread w fuel Hw Hfuel;
    (destruct fuel as [|fuel]; [lia|]); simpl in Hfuel.
  - apply is_variable_Ok_true in Hvar as Hr.
    destruct Hr as (c & ds & -> & H1 & H2 & H3).
    assert (c <> chr "-" /\ c <> chr "~" /\ c <> chr "&" /\ c <> chr "|")
      as (N1 & N2 & N3 & N4).
    { repeat split; intros E; rewrite E in H1, H2; vm_compute in H1, H2;
        first [by apply H1 | by apply H2]. }
    cbn [show_polish app]. polish_step.
    rewrite (startswith_arrow c _ N1), (variable_not_constant_head c H1).
    rewrite !bool_decide_eq_false_2.
    + rewrite (isalpha_variable isalpha isalpha_ascii c H1 H2).
      rewrite token_take, token_drop, (scan_decimal_app ds w H3).
      rewrite (scan_decimal_stop w Hw), Nat.add_0_r.
      rewrite take_app_length, drop_app_length, Hvar. cbn [bind].
      by rewrite (Formula_init_variable _ Hvar).
    + intros Hin. apply elem_of_cons in Hin as [[= ->]|Hin]; [done|].
      apply elem_of_cons in Hin as [[= ->]|Hin]; [done|].
      by apply elem_of_nil in Hin.
    + exact N2.
  - apply is_constant_cases in Hconst as [-> | ->]; reflexivity.
  - change (show_polish (Unary (py "~") a) ++ w)
      with (chr "~" :: (show_polish a ++ w)).
    polish_step. rewrite startswith_arrow by discriminate.
    change (is_constant [chr "~"]) with false. cbv iota.
    rewrite bool_decide_eq_true_2 by reflexivity.
    simpl in Hread. rewrite (IH Hwa Hread w fuel Hw) by lia. reflexivity.
  - simpl in Hread. apply andb_true_iff in Hread as [Hread Hrb].
    apply andb_true_iff in Hread as [Hr Hra].
    apply bool_decide_eq_true in Hr.
    assert (starts_decimal (show_polish b ++ w) = false) as Hb
      by by apply polish_not_decimal.
    unfold polish_operators in Hr.
    repeat (apply elem_of_cons in Hr as [-> | Hr]);
      [ .. | by apply elem_of_nil in Hr ].
    + replace (show_polish (Binary (py "&") a b) ++ w)
        with (chr "&" :: (show_polish a ++ (show_polish b ++ w)))
        by (simpl; rewrite <- !app_assoc; reflexivity).
      polish_step. rewrite startswith_arrow by discriminate.
      change (is_constant [chr "&"]) with false. cbv iota.
      rewrite bool_decide_eq_false_2 by discriminate.
      rewrite bool_decide_eq_true_2 by (by left).
      rewrite (IHa Hwa Hra) by (done || lia). cbn [bind].
      rewrite (IHb Hwb Hrb) by (done || lia). reflexivity.
    + replace (show_polish (Binary (py "|") a b) ++ w)
        with (chr "|" :: (show_polish a ++ (show_polish b ++ w)))
        by (simpl; rewrite <- !app_assoc; reflexivity).
      polish_step. rewrite startswith_arrow by discriminate.
      change (is_constant [chr "|"]) with false. cbv iota.
      rewrite bool_decide_eq_false_2 by discriminate.
      rewrite bool_decide_eq_true_2 by (right; by left).
      rewrite (IHa Hwa Hra) by (done || lia). cbn [bind].
      rewrite (IHb Hwb Hrb) by (done || lia). reflexivity.
    + replace (show_polish (Binary (py "->") a b) ++ w)
        with (chr "-" :: chr ">" :: (show_polish a ++ (show_polish b ++ w)))
        by (simpl; rewrite <- !app_assoc; reflexivity).
      cbn [_parse_polish_prefix_fuel].
      replace (startswith (chr "-" :: chr ">" :: show_polish a ++ show_polish b ++ w)
                 (py "->")) with true by reflexivity.
      change (drop 2 (chr "-" :: chr ">" :: ?x)) with x.
      cbv iota.
      rewrite (IHa Hwa Hra) by (done || lia). cbn [bind].
      rewrite (IHb Hwb Hrb) by (done || lia). reflexivity.
Qed.

(** The round trip through the Polish notation, for the formulas over the
    operators that the Polish parser reads. *)
Lemma parse_polish_round_trip (f : Formula) :
  well_formed f = true -> polish_readable f = true ->
  exists s, polish f = Ok s /\ parse_polish isalpha s = Ok f.
Proof.
  intros Hwf Hread. exists (show_polish f).
  split; [by apply polish_well_formed|].
  unfold parse_polish, _parse_polish_prefix.
  rewrite <- (app_nil_r (show_polish f)) at 2.
  rewrite parse_polish_prefix_exact; [reflexivity | done.. |].
  pose proof (depth_show_polish f Hwf). lia.
Qed.

End PolishRoundTrip.

(** ** Synthesis *)

Lemma literal_Ok (v : str) (b : bool) :
  is_variable v = Ok true -> literal v b = Ok (lit v b).
Proof.
  intros H. unfold literal, lit. rewrite (Formula_init_variable v H).
  by destruct b.
Qed.

Lemma accumulate_Ok {A : Type} (op : str) (make : A -> result Formula)
  (mk : A -> Formula) (xs : list A) :
  is_binary op = true ->
  Forall (fun x => make x = Ok (mk x)) xs ->
  forall acc, accumulate op make acc xs = Ok (joined op mk acc xs).
Proof.
  intros Hop. induction 1 as [|x xs Hx _ IH]; intros acc; simpl;
    [reflexivity|].
  rewrite Hx. cbn [bind]. rewrite (Formula_init_binary _ _ _ Hop). apply IH.
Qed.

Lemma joined_well_formed {A : Type} (op : str) (mk : A -> Formula)
  (xs : list A) :
  is_binary op = true ->
  Forall (fun x => well_formed (mk x) = true) xs ->
  forall acc, well_formed acc = true ->
    well_formed (joined op mk acc xs) = true.
Proof.
  intros Hop. induction 1 as [|x xs Hx _ IH]; intros acc Hacc; simpl;
    [exact Hacc|].
  apply IH. simpl. by rewrite Hop, Hacc, Hx.
Qed.

Lemma joined_vars {A : Type} (op : str) (mk : A -> Formula) (xs : list A)
  (K : gset str) :
  Forall (fun x => vars_of (mk x) ⊆ K) xs ->
  forall acc, vars_of acc ⊆ K -> vars_of (joined op mk acc xs) ⊆ K.
Proof.
  induction 1 as [|x xs Hx _ IH]; intros acc Hacc; simpl; [exact Hacc|].
  apply IH. simpl. by apply union_subseteq.
Qed.

Lemma joined_and {A : Type} (mk : A -> Formula) (xs : list A) (m : Model) :
  forall acc,
    value (joined (py "&") mk acc xs) m =
    value acc m && forallb (fun x => value (mk x) m) xs.
Proof.
  induction xs as [|x xs IH]; intros acc; simpl; [by rewrite andb_true_r|].
  rewrite IH. simpl. change (textbook (py "&")) with andb.
  by rewrite andb_assoc.
Qed.

Lemma joined_or {A : Type} (mk : A -> Formula) (xs : list A) (m : Model) :
  forall acc,
    value (joined (py "|") mk acc xs) m =
    value acc m || existsb (fun x => value (mk x) m) xs.
Proof.
  induction xs as [|x xs IH]; intros acc; simpl; [by rewrite orb_false_r|].
  rewrite IH. simpl. change (textbook (py "|")) with orb.
  by rewrite orb_assoc.
Qed.

Lemma lit_value (v : str) (b : bool) (m : Model) :
  is_variable v = Ok true -> value (lit v b) m = Bool.eqb b (get m v).
Proof.
  intros H. unfold lit, get.
  destruct b; simpl; rewrite (variable_not_constant v H);
    by destruct (default false (dict_get m v)).
Qed.

Lemma lit_well_formed (v : str) (b : bool) :
  is_variable v = Ok true -> well_formed (lit v b) = true.
Proof. intros H. unfold lit. destruct b; simpl; by rewrite H. Qed.

Lemma lit_vars (v : str) (b : bool) :
  is_variable v = Ok true -> vars_of (lit v b) = {[ v ]}.
Proof.
  intros H. unfold lit. destruct b; simpl;
    by rewrite (variable_not_constant v H).
Qed.

Lemma sorted_elem (xs : list str) (v : str) : v ∈ sorted xs <-> v ∈ xs.
Proof. unfold sorted. by rewrite merge_sort_Permutation. Qed.

Lemma sorted_nonempty (xs : list str) : xs <> [] -> sorted xs <> [].
Proof.
  intros H E. apply H. apply Permutation_nil_r.
  rewrite <- E. unfold sorted. by rewrite merge_sort_Permutation.
Qed.

Lemma dict_item_get (m : Model) (v : str) :
  v ∈ dict_keys m -> dict_item m v = Ok (get m v).
Proof.
  intros H. apply dict_get_is_Some in H as [b Hb]. unfold dict_item, get.
  by rewrite Hb.
Qed.
Lemma forallb_ext_elem {A : Type} (f g : A -> bool) (xs : list A) :
  (forall x, x ∈ xs -> f x = g x) -> forallb f xs = forallb g xs.
Proof.
  induction xs as [|x xs IH]; intros H; simpl; [reflexivity|].
  rewrite (H x) by left. rewrite IH; [reflexivity|].
  intros y Hy. apply H. by right.
Qed.

Lemma negb_forallb {A : Type} (f : A -> bool) (xs : list A) :
  negb (forallb f xs) = existsb (fun x => negb (f x)) xs.
Proof.
  induction xs as [|x xs IH]; simpl; [reflexivity|].
  by rewrite negb_andb, IH.
Qed.

Lemma existsb_ext_elem {A : Type} (f g : A -> bool) (xs : list A) :
  (forall x, x ∈ xs -> f x = g x) -> existsb f xs = existsb g xs.
Proof.
  induction xs as [|x xs IH]; intros H; simpl; [reflexivity|].
  rewrite (H x) by left. rewrite IH; [reflexivity|].
  intros y Hy. apply H. by right.
Qed.

Section Clause.

Variable m : Model.
Hypothesis valid_keys : Forall (fun k => is_variable k = Ok true) (dict_keys m).
Hypothesis some_key : dict_keys m <> [].

Lemma sorted_key_valid (v : str) :
  v ∈ sorted (dict_keys m) -> is_variable v = Ok true.
Proof.
  intros H. apply (proj1 (sorted_elem _ _)) in H.
  rewrite Forall_forall in valid_keys.
  by apply valid_keys.
Qed.

Lemma clause_well_formed (op : str) (flip : bool) :
  is_binary op = true -> well_formed (clause op flip m) = true.
Proof.
  intros Hop. unfold clause.
  pose proof sorted_key_valid as Hv.
  destruct (sorted (dict_keys m)) as [|v0 rest] eqn:E;
    [by destruct (sorted_nonempty _ some_key)|].
  apply joined_well_formed; [exact Hop | | apply lit_well_formed, Hv; by left].
  apply Forall_forall. intros v Hin. apply lit_well_formed, Hv. by right.
Qed.

Lemma clause_vars (op : str) (flip : bool) :
  vars_of (clause op flip m) ⊆ list_to_set (dict_keys m).
Proof.
  unfold clause.
  pose proof sorted_key_valid as Hv.
  pose proof (sorted_elem (dict_keys m)) as Hs.
  destruct (sorted (dict_keys m)) as [|v0 rest] eqn:E;
    [by destruct (sorted_nonempty _ some_key)|].
  apply joined_vars.
  - apply Forall_forall. intros v Hin. rewrite lit_vars by (apply Hv; by right).
    apply singleton_subseteq_l, elem_of_list_to_set, (proj1 (Hs _)). by right.
  - rewrite lit_vars by (apply Hv; by left).
    apply singleton_subseteq_l, elem_of_list_to_set, (proj1 (Hs _)). by left.
Qed.

Lemma clause_and_value (m' : Model) :
  value (clause (py "&") false m) m' = agree m m'.
Proof.
  unfold clause, agree.
  pose proof sorted_key_valid as Hv.
  destruct (sorted (dict_keys m)) as [|v0 rest] eqn:E;
    [by destruct (sorted_nonempty _ some_key)|].
  rewrite joined_and. rewrite lit_value by (apply Hv; by left). simpl.
  f_equal. apply forallb_ext_elem. intros v Hin.
  rewrite lit_value by (apply Hv; by right). reflexivity.
Qed.

Lemma clause_or_value (m' : Model) :
  value (clause (py "|") true m) m' = negb (agree m m').
Proof.
  unfold clause, agree.
  pose proof sorted_key_valid as Hv.
  destruct (sorted (dict_keys m)) as [|v0 rest] eqn:E;
    [by destruct (sorted_nonempty _ some_key)|].
  rewrite joined_or. rewrite lit_value by (apply Hv; by left).
  cbn [forallb]. rewrite negb_andb, negb_forallb. f_equal.
  - by destruct (get m v0), (get m' v0).
  - apply existsb_ext_elem. intros v Hin.
    rewrite lit_value by (apply Hv; by right).
    by destruct (get m v), (get m' v).
Qed.

Lemma is_model_valid : is_model m = Ok true.
Proof. by apply is_model_keys_true. Qed.

Lemma synthesize_for_model_Ok :
  _synthesize_for_model m = Ok (clause (py "&") false m).
Proof.
  unfold _synthesize_for_model, clause. rewrite is_model_valid. cbn [bind assert].
  replace (0 <? length (dict_keys m))%nat with true
    by (destruct (dict_keys m); [done | reflexivity]).
  cbn [bind assert].
  pose proof sorted_key_valid as Hv.
  pose proof (sorted_elem (dict_keys m)) as Hs.
  destruct (sorted (dict_keys m)) as [|v0 rest] eqn:E;
    [by destruct (sorted_nonempty _ some_key)|].
  rewrite dict_item_get by (apply (proj1 (Hs _)); by left). cbn [bind].
  rewrite literal_Ok by (apply Hv; by left). cbn [bind].
  apply (accumulate_Ok (py "&") _ (fun v => lit v (xorb false (get m v))));
    [reflexivity|].
  apply Forall_forall. intros v Hin.
  rewrite dict_item_get by (apply (proj1 (Hs _)); by right). cbn [bind].
  apply literal_Ok, Hv. by right.
Qed.

Lemma synthesize_for_all_except_model_Ok :
  _synthesize_for_all_except_model m = Ok (clause (py "|") true m).
Proof.
  unfold _synthesize_for_all_except_model, clause. rewrite is_model_valid.
  cbn [bind assert].
  replace (0 <? length (dict_keys m))%nat with true
    by (destruct (dict_keys m); [done | reflexivity]).
  cbn [bind assert].
  pose proof sorted_key_valid as Hv.
  pose proof (sorted_elem (dict_keys m)) as Hs.
  destruct (sorted (dict_keys m)) as [|v0 rest] eqn:E;
    [by destruct (sorted_nonempty _ some_key)|].
  rewrite dict_item_get by (apply (proj1 (Hs _)); by left). cbn [bind].
  rewrite literal_Ok by (apply Hv; by left). cbn [bind].
  apply (accumulate_Ok (py "|") _ (fun v => lit v (xorb true (get m v))));
    [reflexivity|].
  apply Forall_forall. intros v Hin.
  rewrite dict_item_get by (apply (proj1 (Hs _)); by right). cbn [bind].
  apply literal_Ok, Hv. by right.
Qed.

End Clause.
Lemma testbit_high (k : N) (n : nat) (b : N) :
  k < 2 ^ N.of_nat n -> N.of_nat n <= b -> N.testbit k b = false.
Proof.
  intros Hk Hb. rewrite <- (N.mod_small k (2 ^ N.of_nat n)) by done.
  by apply N.mod_pow2_bits_high.
Qed.

Lemma mask_items_value (variables : list str) (mask : N) (i : nat) (v : str) :
  NoDup variables -> variables !! i = Some v ->
  get (mask_items variables mask) v =
  N.testbit mask (N.of_nat (length variables - 1 - i)).
Proof. intros Hnd Hi. unfold get. by rewrite (mask_items_get _ _ i). Qed.

(** Two masks below [2^n] give the same model only when they are equal. *)
Lemma agree_masks (variables : list str) (k j : N) :
  NoDup variables ->
  k < 2 ^ N.of_nat (length variables) ->
  j < 2 ^ N.of_nat (length variables) ->
  agree (mask_items variables k) (mask_items variables j) =
  bool_decide (k = j).
Proof.
  intros Hnd Hk Hj. unfold agree. rewrite mask_items_keys.
  destruct (bool_decide_reflect (k = j)) as [->|Hne].
  - apply forallb_forall. intros v _. apply eqb_reflx.
  - apply not_true_is_false. intros E. apply Hne. apply N.bits_inj.
    intros b. destruct (decide (b < N.of_nat (length variables))) as [Hb|Hb].
    + destruct (lookup_lt_is_Some_2 variables
                  (length variables - 1 - N.to_nat b)) as [v Hv]; [lia|].
      rewrite forallb_forall in E. specialize (E v).
      rewrite !(mask_items_value _ _ _ v Hnd Hv) in E.
      replace (N.of_nat (length variables - 1 -
                         (length variables - 1 - N.to_nat b))) with b in E
        by lia.
      apply eqb_prop, E. apply list_elem_of_In. apply sorted_elem.
      by apply list_elem_of_lookup_2 with (length variables - 1 - N.to_nat b)%nat.
    + rewrite !(testbit_high _ (length variables)) by lia. reflexivity.
Qed.

Lemma select_models_app (keep : bool -> bool) (values : list bool) :
  forall (pre models : list Model),
    length values = length models ->
    select_models (pre ++ models) keep
      (zip (seq (length pre) (length values)) values) =
    Ok (selected keep models values).
Proof.
  induction values as [|val values IH]; intros pre models Hlen;
    destruct models as [|m models]; try discriminate; [reflexivity|].
  injection Hlen as Hlen. cbn [length seq zip zip_with select_models selected].
  rewrite list_lookup_middle by reflexivity.
  specialize (IH (pre ++ [m]) models Hlen).
  rewrite <- app_assoc, length_app, Nat.add_1_r in IH. cbn [app] in IH.
  rewrite IH. by destruct (keep val).
Qed.

Lemma select_models_Ok (keep : bool -> bool) (models : list Model)
  (values : list bool) :
  length values = length models ->
  select_models models keep (enumerate values) = Ok (selected keep models values).
Proof. intros H. by apply (select_models_app keep values []). Qed.

Lemma selected_elem (keep : bool -> bool) (models : list Model)
  (values : list bool) (m : Model) :
  m ∈ selected keep models values -> m ∈ models.
Proof.
  revert values. induction models as [|m0 models IH]; intros values H;
    [by destruct values|].
  destruct values as [|val values]; [by apply elem_of_nil in H|].
  simpl in H. destruct (keep val).
  - apply elem_of_cons in H as [->|H]; [by left | right; by apply (IH values)].
  - right. by apply (IH values).
Qed.

Lemma existsb_selected (P : Model -> bool) (keep : bool -> bool)
  (models : list Model) (values : list bool) :
  existsb P (selected keep models values) = true <->
  exists i m b, models !! i = Some m /\ values !! i = Some b /\
                keep b = true /\ P m = true.
Proof.
  revert values. induction models as [|m0 models IH]; intros values.
  { split; [by destruct values | by intros (i & m & b & H & _)]. }
  destruct values as [|val values].
  { split; [done | by intros (i & m & b & _ & H & _)]. }
  simpl. destruct (keep val) eqn:Hk; simpl; [rewrite orb_true_iff|];
    rewrite IH; split.
  - intros [H|(i & m & b & H)].
    + by exists 0%nat, m0, val.
    + by exists (S i), m, b.
  - intros ([|i] & m & b & H1 & H2 & H3 & H4).
    + injection H1 as <-. by left.
    + right. by exists i, m, b.
  - intros (i & m & b & H). by exists (S i), m, b.
  - intros ([|i] & m & b & H1 & H2 & H3 & H4).
    + injection H2 as <-. congruence.
    + by exists i, m, b.
Qed.

Lemma truth_values_Ok (f : Formula) (models : list Model) :
  Forall (fun m => evaluate f m = Ok (value f m)) models ->
  truth_values f models = Ok (map (value f) models).
Proof.
  induction 1 as [|m models Hm _ IH]; simpl; [reflexivity|].
  by rewrite Hm, IH.
Qed.
Lemma range_lookup_Some (n i : nat) :
  (i < n)%nat -> range n !! i = Some (N.of_nat i).
Proof.
  intros H. unfold range. rewrite list_lookup_fmap.
  by rewrite (lookup_seq_lt 0 n i H).
Qed.

Lemma pow2_of_nat (i n : nat) :
  (i < 2 ^ n)%nat -> N.of_nat i < 2 ^ N.of_nat n.
Proof.
  intros H. change 2 with (N.of_nat 2). rewrite <- Nat2N.inj_pow. lia.
Qed.

Lemma selected_none (keep : bool -> bool) (models : list Model)
  (values : list bool) :
  Forall (fun b => keep b = false) values -> selected keep models values = [].
Proof.
  intros H. revert models. induction H as [|b values Hb _ IH];
    intros [|m models]; simpl; [done..|]. by rewrite Hb.
Qed.

Section Synthesis.

Variable variables : list str.
Hypothesis some_name : variables <> [].
Hypothesis valid_names :
  Forall (fun v => is_variable v = Ok true) variables.

Local Abbreviation models :=
  (map (model_of_mask variables) (range (2 ^ length variables))).

Lemma first_name :
  exists p rest, variables = p :: rest /\ is_variable p = Ok true.
Proof.
  destruct variables as [|p rest]; [done|]. exists p, rest.
  split; [reflexivity|]. by inversion valid_names.
Qed.

Lemma model_valid_keys (m : Model) :
  m ∈ models -> Forall (fun k => is_variable k = Ok true) (dict_keys m).
Proof.
  intros Hm. apply list_elem_of_fmap in Hm as (mask & -> & _).
  apply Forall_forall. intros v Hv. apply model_of_mask_keys in Hv.
  rewrite Forall_forall in valid_names. by apply valid_names.
Qed.

Lemma model_some_key (m : Model) : m ∈ models -> dict_keys m <> [].
Proof.
  intros Hm. apply list_elem_of_fmap in Hm as (mask & -> & _).
  destruct first_name as (v & rest & E & _). intros Hnil.
  assert (v ∈ dict_keys (model_of_mask variables mask)) as Hin
    by (apply model_of_mask_keys; rewrite E; by left).
  rewrite Hnil in Hin. by apply elem_of_nil in Hin.
Qed.

Lemma model_key_set (m : Model) :
  m ∈ models ->
  list_to_set (dict_keys m) = (list_to_set variables : gset str).
Proof.
  intros Hm. apply list_elem_of_fmap in Hm as (mask & -> & _).
  apply set_eq. intros v. rewrite !elem_of_list_to_set.
  apply model_of_mask_keys.
Qed.

Lemma normal_form_well_formed (op inner : str) (flip : bool)
  (ms : list Model) :
  is_binary op = true -> is_binary inner = true ->
  Forall (fun m => m ∈ models) ms ->
  well_formed (normal_form op inner flip variables ms) = true.
Proof.
  intros Hop Hin Hms. destruct Hms as [|m0 rest Hm0 Hrest]; simpl.
  - destruct first_name as (p & rest & -> & Hp). simpl.
    rewrite Hin, Hp. reflexivity.
  - apply joined_well_formed; [exact Hop | |].
    + eapply Forall_impl; [exact Hrest|]. intros m Hm. simpl in Hm.
      apply clause_well_formed;
        [by apply model_valid_keys | by apply model_some_key | exact Hin].
    + apply clause_well_formed;
        [by apply model_valid_keys | by apply model_some_key | exact Hin].
Qed.

Lemma normal_form_vars (op inner : str) (flip : bool) (ms : list Model) :
  Forall (fun m => m ∈ models) ms ->
  vars_of (normal_form op inner flip variables ms) ⊆ list_to_set variables.
Proof.
  intros Hms. destruct Hms as [|m0 rest Hm0 Hrest]; simpl.
  - destruct first_name as (p & rest & E & Hp). rewrite E.
    cbn [normal_form vars_of]. rewrite (variable_not_constant p Hp).
    apply union_subseteq; split; apply singleton_subseteq_l,
      elem_of_list_to_set; by left.
  - apply joined_vars.
    + eapply Forall_impl; [exact Hrest|]. intros m Hm. simpl in Hm.
      rewrite <- (model_key_set m Hm).
      apply clause_vars; [by apply model_valid_keys | by apply model_some_key].
    + rewrite <- (model_key_set m0 Hm0).
      apply clause_vars; [by apply model_valid_keys | by apply model_some_key].
Qed.

Lemma normal_form_evaluate (op inner : str) (flip : bool) (ms : list Model)
  (m' : Model) :
  is_binary op = true -> is_binary inner = true ->
  Forall (fun m => m ∈ models) ms -> m' ∈ models ->
  evaluate (normal_form op inner flip variables ms) m' =
  Ok (value (normal_form op inner flip variables ms) m').
Proof.
  intros Hop Hin Hms Hm'. apply evaluate_well_formed.
  - apply is_model_valid. by apply model_valid_keys.
  - by apply normal_form_well_formed.
  - rewrite (model_key_set m' Hm'). by apply normal_form_vars.
Qed.

Lemma dnf_value (ms : list Model) (m' : Model) :
  Forall (fun m => m ∈ models) ms ->
  value (normal_form (py "|") (py "&") false variables ms) m' =
  existsb (fun m => agree m m') ms.
Proof.
  intros Hms. destruct Hms as [|m0 rest Hm0 Hrest]; simpl.
  - destruct first_name as (p & rest & E & Hp). rewrite E. simpl.
    change (textbook (py "&")) with andb. apply andb_negb_r.
  - rewrite joined_or. f_equal.
    + apply clause_and_value;
        [by apply model_valid_keys | by apply model_some_key].
    + apply existsb_ext_elem. intros m Hm. rewrite Forall_forall in Hrest.
      apply clause_and_value;
        [apply model_valid_keys | apply model_some_key]; by apply Hrest.
Qed.

Lemma cnf_value (ms : list Model) (m' : Model) :
  Forall (fun m => m ∈ models) ms ->
  value (normal_form (py "&") (py "|") true variables ms) m' =
  negb (existsb (fun m => agree m m') ms).
Proof.
  intros Hms. destruct Hms as [|m0 rest Hm0 Hrest]; simpl.
  - destruct first_name as (p & rest & E & Hp). rewrite E. simpl.
    change (textbook (py "|")) with orb. apply orb_negb_r.
  - rewrite joined_and, negb_orb. f_equal.
    + apply clause_or_value;
        [by apply model_valid_keys | by apply model_some_key].
    + rewrite <- (negb_involutive (forallb _ rest)), negb_forallb. f_equal.
      apply existsb_ext_elem. intros m Hm. rewrite Forall_forall in Hrest.
      rewrite clause_or_value;
        [apply negb_involutive | apply model_valid_keys | apply model_some_key];
        by apply Hrest.
Qed.

Lemma selected_models (keep : bool -> bool) (values : list bool) :
  Forall (fun m => m ∈ models) (selected keep models values).
Proof. apply Forall_forall. intros m Hm. by apply selected_elem in Hm. Qed.

Lemma synthesize_Ok (values : list bool) :
  length values = (2 ^ length variables)%nat ->
  synthesize variables values =
  Ok (normal_form (py "|") (py "&") false variables
        (selected id models values)).
Proof.
  intros Hlen. unfold synthesize.
  replace (0 <? length variables)%nat with true
    by (by destruct first_name as (p & rest & -> & _)).
  cbn [bind assert]. rewrite (assert_each_Ok _ _ valid_names). cbn [bind].
  rewrite (all_models_Ok _ valid_names). cbn [bind].
  assert (length values = length models) as Hlen'.
  { unfold range. by rewrite !length_map, length_seq. }
  rewrite Hlen' at 1. rewrite Nat.eqb_refl. cbn [bind assert].
  rewrite (select_models_Ok _ _ _ Hlen'). cbn [bind].
  pose proof (selected_models id values) as Hsel.
  destruct (selected id models values) as [|m0 rest].
  - cbn [normal_form]. destruct first_name as (p & rest & E & Hp).
    rewrite E. rewrite (Formula_init_variable p Hp). reflexivity.
  - apply Forall_cons in Hsel as [Hm0 Hrest]. cbn [normal_form].
    rewrite synthesize_for_model_Ok
      by (by apply model_valid_keys || by apply model_some_key).
    cbn [bind]. apply accumulate_Ok; [reflexivity|].
    eapply Forall_impl; [exact Hrest|]. intros m Hm. simpl in Hm.
    apply synthesize_for_model_Ok;
      [by apply model_valid_keys | by apply model_some_key].
Qed.

Lemma synthesize_cnf_Ok (values : list bool) :
  length values = (2 ^ length variables)%nat ->
  synthesize_cnf variables values =
  Ok (normal_form (py "&") (py "|") true variables
        (selected negb models values)).
Proof.
  intros Hlen. unfold synthesize_cnf.
  replace (0 <? length variables)%nat with true
    by (by destruct first_name as (p & rest & -> & _)).
  cbn [bind assert]. rewrite (assert_each_Ok _ _ valid_names). cbn [bind].
  rewrite (all_models_Ok _ valid_names). cbn [bind].
  assert (length values = length models) as Hlen'.
  { unfold range. by rewrite !length_map, length_seq. }
  rewrite Hlen' at 1. rewrite Nat.eqb_refl. cbn [bind assert].
  rewrite (select_models_Ok _ _ _ Hlen'). cbn [bind].
  pose proof (selected_models negb values) as Hsel.
  destruct (selected negb models values) as [|m0 rest].
  - cbn [normal_form]. destruct first_name as (p & rest & E & Hp).
    rewrite E. rewrite (Formula_init_variable p Hp). reflexivity.
  - apply Forall_cons in Hsel as [Hm0 Hrest]. cbn [normal_form].
    rewrite synthesize_for_all_except_model_Ok
      by (by apply model_valid_keys || by apply model_some_key).
    cbn [bind]. apply accumulate_Ok; [reflexivity|].
    eapply Forall_impl; [exact Hrest|]. intros m Hm. simpl in Hm.
    apply synthesize_for_all_except_model_Ok;
      [by apply model_valid_keys | by apply model_some_key].
Qed.

Hypothesis distinct_names : NoDup variables.

(** Among the selected models, the one of mask [i] is there exactly when the
    value at [i] is kept. *)
Lemma existsb_agree (keep : bool -> bool) (values : list bool) (i : nat)
  (b : bool) :
  length values = (2 ^ length variables)%nat ->
  values !! i = Some b ->
  existsb (fun m => agree m (model_of_mask variables (N.of_nat i)))
    (selected keep models values) = keep b.
Proof.
  intros Hlen Hi.
  assert (i < 2 ^ length variables)%nat as Hlt
    by (rewrite <- Hlen; by apply lookup_lt_Some with b).
  apply eq_true_iff_eq. rewrite existsb_selected. split.
  - intros (i' & m & b' & H1 & H2 & H3 & H4).
    rewrite list_lookup_fmap in H1.
    destruct (range (2 ^ length variables) !! i') as [mask|] eqn:E;
      [|discriminate].
    apply range_lookup in E as [-> Hlt']. injection H1 as <-.
    rewrite !model_of_mask_items in H4 by done.
    rewrite agree_masks in H4 by (done || by apply pow2_of_nat).
    apply bool_decide_eq_true in H4. apply Nat2N.inj in H4. subst i'.
    congruence.
  - intros Hk. exists i, (model_of_mask variables (N.of_nat i)), b.
    split; [|split; [done|split; [done|]]].
    + by rewrite list_lookup_fmap, (range_lookup_Some _ _ Hlt).
    + rewrite !model_of_mask_items by done.
      rewrite agree_masks by (done || by apply pow2_of_nat).
      by apply bool_decide_eq_true.
Qed.

Lemma normal_form_values (op inner : str) (flip : bool)
  (keep : bool -> bool) (values : list bool) :
  length values = (2 ^ length variables)%nat ->
  (forall i b, values !! i = Some b ->
     value (normal_form op inner flip variables (selected keep models values))
       (model_of_mask variables (N.of_nat i)) = b) ->
  map (value (normal_form op inner flip variables
                (selected keep models values))) models = values.
Proof.
  intros Hlen H. apply list_eq. intros i. rewrite !list_lookup_fmap.
  destruct (values !! i) as [b|] eqn:Hi.
  - assert (i < 2 ^ length variables)%nat as Hlt
      by (rewrite <- Hlen; by apply lookup_lt_Some with b).
    rewrite (range_lookup_Some _ _ Hlt). simpl. f_equal. by apply H.
  - apply lookup_ge_None in Hi. rewrite Hlen in Hi.
    replace (range (2 ^ length variables) !! i) with (@None N); [done|].
    symmetry. apply lookup_ge_None. unfold range.
    by rewrite length_map, length_seq.
Qed.

End Synthesis.

(** C4. For a non-empty list of [n] distinct variable names and [2^n] values,
    [synthesize] returns a formula whose truth values over [all_models] of
    the names, in order, are the given values, and so does [synthesize_cnf];
    when every value is false [synthesize] returns [(v&~v)] for the first
    name [v], and when every value is true [synthesize_cnf] returns
    [(v|~v)]. *)
Theorem synthesize_truth_table (variables : list str) (values : list bool) :
  variables <> [] ->
  NoDup variables ->
  Forall (fun v => is_variable v = Ok true) variables ->
  length values = (2 ^ length variables)%nat ->
  exists models dnf cnf,
    all_models variables = Ok models /\
    synthesize variables values = Ok dnf /\
    truth_values dnf models = Ok values /\
    synthesize_cnf variables values = Ok cnf /\
    truth_values cnf models = Ok values /\
    (Forall (fun b => b = false) values ->
     exists v rest, variables = v :: rest /\
       dnf = Binary (py "&") (Atom v) (Unary (py "~") (Atom v))) /\
    (Forall (fun b => b = true) values ->
     exists v rest, variables = v :: rest /\
       cnf = Binary (py "|") (Atom v) (Unary (py "~") (Atom v))).
Proof.
  intros Hne Hnd Hvalid Hlen.
  eexists _, _, _.
  split; [by apply all_models_Ok|].
  split; [by apply synthesize_Ok|].
  split; [|split; [by apply synthesize_cnf_Ok|split; [|split]]].
  - rewrite truth_values_Ok.
    + f_equal. apply normal_form_values; [done..|]. intros i b Hi.
      rewrite dnf_value by (done || by apply selected_models).
      by rewrite existsb_agree with (b := b).
    + apply Forall_forall. intros m Hm.
      apply normal_form_evaluate;
        first [done | reflexivity | by apply selected_models].
  - rewrite truth_values_Ok.
    + f_equal. apply normal_form_values; [done..|]. intros i b Hi.
      rewrite cnf_value by (done || by apply selected_models).
      rewrite existsb_agree with (b := b) by done.
      apply negb_involutive.
    + apply Forall_forall. intros m Hm.
      apply normal_form_evaluate;
        first [done | reflexivity | by apply selected_models].
  - intros Hall. rewrite selected_none by done.
    destruct variables as [|v rest]; [done|]. by exists v, rest.
  - intros Hall. rewrite selected_none.
    + destruct variables as [|v rest]; [done|]. by exists v, rest.
    + eapply Forall_impl; [exact Hall|]. by intros b ->.
Qed.

Lemma synthesize_truth_table_witness :
  exists models dnf cnf,
    all_models [py "p"; py "q"] = Ok models /\
    synthesize [py "p"; py "q"] [true; true; true; false] = Ok dnf /\
    truth_values dnf models = Ok [true; true; true; false] /\
    synthesize_cnf [py "p"; py "q"] [true; true; true; false] = Ok cnf /\
    truth_values cnf models = Ok [true; true; true; false].
Proof.
  destruct (synthesize_truth_table [py "p"; py "q"] [true; true; true; false])
    as (models & dnf & cnf & H1 & H2 & H3 & H4 & H5 & _).
  - discriminate.
  - apply (bool_decide_unpack _). vm_compute. exact I.
  - repeat constructor.
  - reflexivity.
  - exists models, dnf, cnf. auto.
Defined.

(** ** The order of strings and [sorted] *)

Lemma str_leb_cons (a b : N) (s t : str) :
  str_leb (a :: s) (b :: t) = true <-> a < b \/ (a = b /\ str_leb s t = true).
Proof.
  simpl. rewrite orb_true_iff, andb_true_iff, N.ltb_lt, N.eqb_eq. tauto.
Qed.

Lemma str_le_total : Total str_le.
Proof.
  intros s. induction s as [|a s IH]; intros [|b t]; unfold str_le in *;
    rewrite ?Is_true_true; try (by left); try (by right).
  rewrite !str_leb_cons. destruct (N.lt_trichotomy a b) as [H|[->|H]]; auto.
  destruct (IH t) as [H|H]; apply Is_true_true in H; auto.
Qed.

Lemma str_le_trans : Transitive str_le.
Proof.
  intros s. induction s as [|a s IH]; intros [|b t] [|c u]; unfold str_le in *;
    rewrite ?Is_true_true; try done.
  rewrite !str_leb_cons. intros [H1|[-> H1]] [H2|[-> H2]]; auto.
  - left. lia.
  - right. split; [done|]. apply Is_true_true.
    apply (IH t u); by apply Is_true_true.
Qed.

Lemma str_le_antisym : AntiSymm (=) str_le.
Proof.
  intros s. induction s as [|a s IH]; intros [|b t]; unfold str_le in *;
    rewrite ?Is_true_true; try done.
  rewrite !str_leb_cons. intros [H1|[-> H1]] [H2|[E H2]]; try lia.
  f_equal. apply IH; by apply Is_true_true.
Qed.

(** [sorted] gives the one sorted arrangement of the elements: the order in
    which a set is listed does not matter. *)
Lemma sorted_Permutation (l1 l2 : list str) :
  l1 ≡ₚ l2 -> sorted l1 = sorted l2.
Proof.
  intros H. unfold sorted.
  apply (@Sorted_unique _ str_le str_le_trans str_le_antisym).
  - apply (@Sorted_merge_sort _ str_le _ str_le_total).
  - apply (@Sorted_merge_sort _ str_le _ str_le_total).
  - by rewrite !merge_sort_Permutation.
Qed.

Lemma sorted_NoDup (l : list str) : NoDup l -> NoDup (sorted l).
Proof. intros H. unfold sorted. by rewrite merge_sort_Permutation. Qed.
(** ** Equality of formulas, [parse] and the token classes *)

Lemma ascii_letter_ascii (c : N) : c < 128 -> ascii_letter c = ascii_letter c.
Proof. reflexivity. Qed.

(** Two formulas with the same string are the same tree. *)
Lemma show_injective (f g : Formula) :
  well_formed f = true -> well_formed g = true -> show f = show g -> f = g.
Proof.
  intros Hf Hg E.
  pose proof (parse_prefix_show ascii_letter ascii_letter_ascii f Hf) as H1.
  pose proof (parse_prefix_show ascii_letter ascii_letter_ascii g Hg) as H2.
  rewrite E in H1. congruence.
Qed.

(** X1. On formulas that the constructor can build, [__eq__], the comparison
    of the printed strings, is the equality of the trees, and [__ne__] is its
    negation. *)
Theorem Formula_eq_structural (f g : Formula) :
  well_formed f = true -> well_formed g = true ->
  Formula_eq f g = Ok (bool_decide (f = g)) /\
  Formula_ne f g = Ok (negb (bool_decide (f = g))).
Proof.
  intros Hf Hg.
  assert (Formula_eq f g = Ok (bool_decide (f = g))) as E.
  { unfold Formula_eq.
    rewrite (repr_well_formed f Hf), (repr_well_formed g Hg). cbn [bind].
    f_equal. apply bool_decide_ext. split; [|by intros ->].
    by apply show_injective. }
  split; [exact E|]. unfold Formula_ne. by rewrite E.
Qed.

Lemma Formula_eq_structural_witness :
  Formula_eq (Binary (py "&") (Atom (py "p")) (Atom (py "q")))
    (Binary (py "&") (Atom (py "p")) (Atom (py "q1"))) =
  Ok (bool_decide (Binary (py "&") (Atom (py "p")) (Atom (py "q")) =
                   Binary (py "&") (Atom (py "p")) (Atom (py "q1")))).
Proof.
  apply (Formula_eq_structural
           (Binary (py "&") (Atom (py "p")) (Atom (py "q")))
           (Binary (py "&") (Atom (py "p")) (Atom (py "q1")))); reflexivity.
Defined.

Lemma parse_Ok (isalpha : N -> bool) (s : str) (f : Formula) :
  parse isalpha s = Ok f <-> _parse_prefix isalpha s = Ok (Some f, []).
Proof.
  unfold parse, is_formula. split.
  - intros H. apply bind_Ok in H as (ok & Hok & H).
    apply bind_Ok in Hok as ([parsed rest] & Hp & Hok).
    apply bind_Ok in H as (u & Hu & H). apply assert_Ok in Hu. subst ok.
    rewrite Hp in H. cbn [bind] in H. destruct parsed as [g|]; [|done].
    apply bind_Ok in H as (u' & Hu' & H). apply assert_Ok in Hu'.
    apply bool_decide_eq_true in Hu'. by injection H as <-; subst rest.
  - intros ->. reflexivity.
Qed.

(** X2. [parse(s)] returns [f] exactly when [is_formula(s)] holds and
    [str(f)] is [s]; when [is_formula(s)] is false, [parse(s)] fails its
    assertion. *)
Theorem parse_returns_formula_of_string (isalpha : N -> bool) (s : str) :
  (forall f, parse isalpha s = Ok f <->
             is_formula isalpha s = Ok true /\ well_formed f = true /\
             __repr__ f = Ok s) /\
  (is_formula isalpha s = Ok false -> parse isalpha s = Raise AssertionError).
Proof.
  split.
  - intros f. rewrite parse_Ok. split.
    + intros H. split; [apply is_formula_true; eauto|].
      apply parse_prefix_sound in H as [Hwf Hs]. rewrite app_nil_r in Hs.
      split; [exact Hwf|]. subst s. by apply repr_well_formed.
    + intros (Hs & Hwf & Hr). apply is_formula_true in Hs as [g Hg].
      pose proof (parse_prefix_sound _ _ _ _ _ Hg) as [Hwg Hsg].
      rewrite app_nil_r in Hsg. rewrite (repr_well_formed f Hwf) in Hr.
      injection Hr as Hr. rewrite Hsg in Hr.
      by rewrite (show_injective f g Hwf Hwg Hr).
  - intros H. unfold parse. rewrite H. reflexivity.
Qed.

Lemma parse_returns_formula_of_string_witness :
  parse ascii_letter (py "(p&q") = Raise AssertionError.
Proof.
  apply (parse_returns_formula_of_string ascii_letter (py "(p&q")).
  reflexivity.
Defined.

Section AcceptedStrings.

Variable isalpha : N -> bool.
Hypothesis isalpha_ascii : forall c, c < 128 -> isalpha c = ascii_letter c.

(** X3. [is_formula] accepts exactly the strings of the formulas that the
    constructor can build. *)
Theorem is_formula_strings (s : str) :
  is_formula isalpha s = Ok true <->
  exists f, well_formed f = true /\ __repr__ f = Ok s.
Proof.
  rewrite is_formula_true. split.
  - intros [f H]. exists f. apply parse_prefix_sound in H as [Hwf Hs].
    rewrite app_nil_r in Hs. split; [exact Hwf|]. subst s.
    by apply repr_well_formed.
  - intros (f & Hwf & Hr). exists f. rewrite (repr_well_formed f Hwf) in Hr.
    injection Hr as <-. by apply parse_prefix_show.
Qed.

End AcceptedStrings.

Lemma is_formula_strings_witness :
  is_formula ascii_letter (py "~(x1<->F)") = Ok true <->
  exists f, well_formed f = true /\ __repr__ f = Ok (py "~(x1<->F)").
Proof.
  apply (is_formula_strings ascii_letter).
  intros c Hc. reflexivity.
Defined.

(** X4. The token classes are disjoint: no string is in two of the classes
    variable name, constant, unary operator, binary operator. *)
Theorem token_classes_disjoint (s : str) :
  (is_variable s = Ok true ->
   is_constant s = false /\ is_unary s = false /\ is_binary s = false) /\
  (is_constant s = true -> is_unary s = false /\ is_binary s = false) /\
  (is_unary s = true -> is_binary s = false).
Proof.
  split; [|split].
  - intros Hv. split; [by apply variable_not_constant|].
    split.
    + destruct (is_unary s) eqn:E; [|done]. apply is_unary_eq in E as ->.
      discriminate.
    + destruct (is_binary s) eqn:E; [|done].
      destruct (binary_root s E) as (H & _). congruence.
  - intros Hc. apply is_constant_cases in Hc as [-> | ->]; by vm_compute.
  - intros Hu. apply is_unary_eq in Hu as ->. by vm_compute.
Qed.

Lemma token_classes_disjoint_witness :
  is_constant (py "x12") = false /\ is_unary (py "x12") = false /\
  is_binary (py "x12") = false.
Proof. apply (token_classes_disjoint (py "x12")). reflexivity. Defined.
(** ** More on the parser of the Polish notation *)

Lemma startswith_arrow_inv (s : str) :
  startswith s (py "->") = true -> s = py "->" ++ drop 2 s.
Proof.
  unfold startswith. intros H. apply bool_decide_eq_true in H.
  rewrite <- H at 1. symmetry. apply take_drop.
Qed.

Section PolishProperties.

Variable isalpha : N -> bool.

(** A formula parsed from the Polish notation is well-formed, has only the
    operators that the parser reads, and its Polish string is the consumed
    prefix. *)
Lemma parse_polish_prefix_sound (fuel : nat) :
  forall (s : str) (f : Formula) (rest : str),
    _parse_polish_prefix_fuel isalpha fuel s = Ok (Some f, rest) ->
    well_formed f = true /\ polish_readable f = true /\
    s = show_polish f ++ rest.
Proof.
  induction fuel as [|fuel IH]; intros s f rest H; [discriminate|].
  destruct s as [|c s]; [discriminate|].
  cbn [_parse_polish_prefix_fuel] in H. change (drop 1 (c :: s)) with s in H.
  destruct (startswith (c :: s) (py "->")) eqn:Harrow.
  { apply startswith_arrow_inv in Harrow.
    apply bind_Ok in H as ([left_ rest0] & Hrec & H).
    destruct left_ as [g|]; [|discriminate].
    apply bind_Ok in H as ([right_ rest1] & Hrec2 & H).
    destruct right_ as [h|]; [|discriminate]. injection H as <- <-.
    apply IH in Hrec as (Hwg & Hrg & Hs). apply IH in Hrec2 as (Hwh & Hrh & Hs2).
    split; [simpl; by rewrite Hwg, Hwh|].
    split; [simpl; by rewrite Hrg, Hrh|].
    rewrite Harrow, Hs, Hs2. simpl. by rewrite <- !app_assoc. }
  destruct (is_constant [c]) eqn:Hc.
  { rewrite (Formula_init_constant _ Hc) in H. injection H as <- <-.
    split; [simpl; rewrite Hc; apply orb_true_r | done]. }
  destruct (bool_decide_reflect (c = chr "~")) as [->|_].
  { apply bind_Ok in H as ([inner rest0] & Hrec & H).
    destruct inner as [g|]; [|discriminate]. injection H as <- <-.
    apply IH in Hrec as (Hw & Hr & Hs). split; [exact Hw|].
    split; [exact Hr|]. rewrite Hs. reflexivity. }
  destruct (bool_decide_reflect ([c] ∈ [py "&"; py "|"])) as [Hop|_].
  { apply bind_Ok in H as ([left_ rest0] & Hrec & H).
    destruct left_ as [g|]; [|discriminate].
    apply bind_Ok in H as ([right_ rest1] & Hrec2 & H).
    destruct right_ as [h|]; [|discriminate].
    assert ([c] ∈ polish_operators) as Hpol.
    { unfold polish_operators. apply elem_of_cons in Hop as [->|Hop];
        [by left|]. apply elem_of_cons in Hop as [->|Hop];
        [right; by left | by apply elem_of_nil in Hop]. }
    assert (is_binary [c] = true) as Hbin.
    { apply elem_of_cons in Hop as [->|Hop]; [done|].
      apply elem_of_cons in Hop as [->|Hop]; [done|].
      by apply elem_of_nil in Hop. }
    rewrite (Formula_init_binary _ _ _ Hbin) in H. injection H as <- <-.
    apply IH in Hrec as (Hwg & Hrg & Hs). apply IH in Hrec2 as (Hwh & Hrh & Hs2).
    split; [simpl; by rewrite Hbin, Hwg, Hwh|].
    split; [simpl; by rewrite (bool_decide_eq_true_2 _ Hpol), Hrg, Hrh|].
    rewrite Hs, Hs2. simpl. by rewrite <- !app_assoc. }
  destruct (isalpha c); [|discriminate].
  destruct (is_variable (take (scan_decimal s 1) (c :: s)))
    as [[|]|e] eqn:Hv; cbn [bind] in H; [|discriminate..].
  rewrite (Formula_init_variable _ Hv) in H. injection H as <- <-.
  split; [cbn [well_formed]; by rewrite Hv|].
  split; [reflexivity | symmetry; apply take_drop].
Qed.

Lemma parse_polish_prefix_rest (fuel : nat) (s : str) (f : Formula)
  (rest : str) :
  _parse_polish_prefix_fuel isalpha fuel s = Ok (Some f, rest) ->
  (length rest <= length s)%nat.
Proof.
  intros H. apply parse_polish_prefix_sound in H as (_ & _ & ->).
  rewrite length_app. lia.
Qed.

(** With fuel above the length of the string, the Polish parser returns. *)
Lemma parse_polish_prefix_total (fuel : nat) :
  forall s : str, (length s < fuel)%nat ->
    exists r, _parse_polish_prefix_fuel isalpha fuel s = Ok r.
Proof.
  induction fuel as [|fuel IH]; intros s Hlen; [lia|].
  destruct s as [|c s]; [eexists; reflexivity|].
  cbn [_parse_polish_prefix_fuel]. change (drop 1 (c :: s)) with s.
  simpl in Hlen.
  destruct (startswith (c :: s) (py "->")) eqn:Harrow.
  { destruct (IH (drop 2 (c :: s))) as [[left_ rest0] Hrec].
    { rewrite length_drop. simpl. lia. }
    rewrite Hrec. cbn [bind]. destruct left_ as [g|]; [|eexists; reflexivity].
    apply parse_polish_prefix_rest in Hrec as Hlen0.
    rewrite length_drop in Hlen0. simpl in Hlen0.
    destruct (IH rest0) as [[right_ rest1] Hrec2]; [lia|].
    rewrite Hrec2. cbn [bind]. destruct right_; eexists; reflexivity. }
  destruct (is_constant [c]) eqn:Hc.
  { rewrite (Formula_init_constant _ Hc). eexists. reflexivity. }
  destruct (bool_decide (c = chr "~")).
  { destruct (IH s) as [[inner rest0] Hrec]; [lia|]. rewrite Hrec. cbn [bind].
    destruct inner; eexists; reflexivity. }
  destruct (bool_decide_reflect ([c] ∈ [py "&"; py "|"])) as [Hop|_].
  { assert (is_binary [c] = true) as Hbin.
    { apply elem_of_cons in Hop as [->|Hop]; [done|].
      apply elem_of_cons in Hop as [->|Hop]; [done|].
      by apply elem_of_nil in Hop. }
    destruct (IH s) as [[left_ rest0] Hrec]; [lia|]. rewrite Hrec. cbn [bind].
    destruct left_ as [g|]; [|eexists; reflexivity].
    apply parse_polish_prefix_rest in Hrec as Hlen0.
    destruct (IH rest0) as [[right_ rest1] Hrec2]; [lia|].
    rewrite Hrec2. cbn [bind]. destruct right_ as [h|]; [|eexists; reflexivity].
    rewrite (Formula_init_binary _ _ _ Hbin). eexists. reflexivity. }
  destruct (isalpha c); [|eexists; reflexivity].
  rewrite token_take.
  destruct (is_variable_nonempty c (take (scan_decimal s 0) s)) as [b Hb].
  rewrite Hb. cbn [bind]. destruct b; [|eexists; reflexivity].
  rewrite (Formula_init_variable _ Hb). eexists. reflexivity.
Qed.

(** X5. On every string [_parse_polish_prefix] returns, without raising; a
    formula that it returns is constructible and its Polish string followed
    by the rest is the input.  [parse_polish(s)] returns only a formula whose
    Polish string is [s], and fails its assertion when no formula was read
    or characters are left. *)
Theorem parse_polish_prefix_contract (s : str) :
  (exists r, _parse_polish_prefix isalpha s = Ok r) /\
  (forall f rest, _parse_polish_prefix isalpha s = Ok (Some f, rest) ->
     well_formed f = true /\
     exists printed, polish f = Ok printed /\ printed ++ rest = s) /\
  (forall f, parse_polish isalpha s = Ok f -> polish f = Ok s) /\
  (forall msg, _parse_polish_prefix isalpha s = Ok (None, msg) ->
     parse_polish isalpha s = Raise AssertionError) /\
  (forall f c rest, _parse_polish_prefix isalpha s = Ok (Some f, c :: rest) ->
     parse_polish isalpha s = Raise AssertionError).
Proof.
  split; [apply parse_polish_prefix_total; lia|].
  split; [|split; [|split]].
  - intros f rest H. apply parse_polish_prefix_sound in H as (Hwf & _ & Hs).
    split; [exact Hwf|]. exists (show_polish f).
    split; [by apply polish_well_formed | done].
  - intros f H. unfold parse_polish in H.
    apply bind_Ok in H as ([parsed rest] & Hp & H).
    destruct parsed as [g|]; [|done].
    apply bind_Ok in H as (u & Hu & H). apply assert_Ok in Hu.
    apply bool_decide_eq_true in Hu. injection H as ->. subst rest.
    apply parse_polish_prefix_sound in Hp as (Hwf & _ & Hs).
    rewrite app_nil_r in Hs. subst s. by apply polish_well_formed.
  - intros msg H. unfold parse_polish. by rewrite H.
  - intros f c rest H. unfold parse_polish. by rewrite H.
Qed.

End PolishProperties.

Lemma parse_polish_prefix_contract_witness :
  parse_polish ascii_letter (py "&p") = Raise AssertionError /\
  parse_polish ascii_letter (py "pq") = Raise AssertionError.
Proof.
  split.
  - destruct (parse_polish_prefix_contract ascii_letter (py "&p"))
      as (_ & _ & _ & H & _).
    eapply H. reflexivity.
  - destruct (parse_polish_prefix_contract ascii_letter (py "pq"))
      as (_ & _ & _ & _ & H).
    eapply H. reflexivity.
Defined.

Section PolishExact.

Variable isalpha : N -> bool.
Hypothesis isalpha_ascii : forall c, c < 128 -> isalpha c = ascii_letter c.

(** X6. For a constructible formula [f], [parse_polish(f.polish())] returns
    [f] exactly when every binary operator of [f] is one of [&], [|] and
    [->]. *)
Theorem parse_polish_round_trip_iff (f : Formula) :
  well_formed f = true ->
  exists s, polish f = Ok s /\
            (parse_polish isalpha s = Ok f <-> polish_readable f = true).
Proof.
  intros Hwf. exists (show_polish f). split; [by apply polish_well_formed|].
  split.
  - intros H. unfold parse_polish in H.
    apply bind_Ok in H as ([parsed rest] & Hp & H).
    destruct parsed as [g|]; [|done].
    apply bind_Ok in H as (u & _ & H). injection H as ->.
    by apply parse_polish_prefix_sound in Hp as (_ & Hr & _).
  - intros Hr.
    destruct (parse_polish_round_trip isalpha isalpha_ascii f Hwf Hr)
      as (s & Hs & Hp).
    rewrite (polish_well_formed f Hwf) in Hs. by injection Hs as ->.
Qed.

End PolishExact.

Lemma parse_polish_round_trip_iff_witness :
  exists s,
    polish (Binary (py "->") (Unary (py "~") (Atom (py "x2")))
              (Binary (py "|") (Atom (py "T")) (Atom (py "q")))) = Ok s /\
    (parse_polish ascii_letter s =
       Ok (Binary (py "->") (Unary (py "~") (Atom (py "x2")))
             (Binary (py "|") (Atom (py "T")) (Atom (py "q")))) <->
     polish_readable
       (Binary (py "->") (Unary (py "~") (Atom (py "x2")))
          (Binary (py "|") (Atom (py "T")) (Atom (py "q")))) = true).
Proof.
  apply (parse_polish_round_trip_iff ascii_letter).
  - intros c Hc. reflexivity.
  - reflexivity.
Defined.
(** ** Errors of [evaluate] *)

Lemma evaluate_prefix (f : Formula) (m : Model) :
  evaluate f m =
  let* ok := is_model m in
  let* _ := assert ok in
  let* vs := variables f in
  let* ks := variables_of_model m in
  let* _ := assert (bool_decide (vs ⊆ list_to_set ks)) in
  evaluate f m.
Proof.
  destruct (is_model m) as [[|]|e] eqn:Hm; cbn [bind assert];
    [|destruct f; cbn [evaluate]; by rewrite Hm..].
  destruct (variables f) as [vs|e] eqn:Hv; cbn [bind];
    [|destruct f; cbn [evaluate]; rewrite Hm; cbn [bind assert];
      by rewrite Hv..].
  unfold variables_of_model. rewrite Hm. cbn [bind assert].
  destruct (bool_decide (vs ⊆ list_to_set (dict_keys m))) eqn:Hs;
    cbn [bind assert]; [reflexivity|].
  destruct f; cbn [evaluate]; unfold variables_of_model; rewrite Hm;
    cbn [bind assert]; rewrite Hv; cbn [bind]; by rewrite Hs.
Qed.

Lemma evaluate_Ok_covers (f : Formula) (m : Model) (b : bool) :
  evaluate f m = Ok b -> is_model m = Ok true /\ covers m f.
Proof.
  rewrite evaluate_prefix. intros H.
  apply bind_Ok in H as (ok & Hm & H). apply bind_Ok in H as (u & Hu & H).
  apply assert_Ok in Hu. subst ok. split; [exact Hm|].
  apply bind_Ok in H as (vs & Hv & H). apply bind_Ok in H as (ks & Hk & H).
  apply bind_Ok in H as (u' & Hu' & _). apply assert_Ok in Hu'.
  apply bool_decide_eq_true in Hu'. unfold variables_of_model in Hk.
  rewrite Hm in Hk. injection Hk as <-. by exists vs.
Qed.



(** ** Substitutions and truth values *)

Lemma value_agree_get (f : Formula) (m1 m2 : Model) :
  (forall v, v ∈ vars_of f -> get m1 v = get m2 v) ->
  value f m1 = value f m2.
Proof.
  induction f as [r|r a IH|r a IHa b IHb]; simpl; intros H.
  - destruct (is_constant r); [reflexivity|]. apply H.
    by apply elem_of_singleton.
  - by rewrite IH.
  - rewrite IHa, IHb; [reflexivity | |]; intros v Hv; apply H;
      apply elem_of_union; auto.
Qed.

Lemma dict_get_app {V : Type} (d1 d2 : dict V) (k : str) :
  dict_get (d1 ++ d2) k =
  match dict_get d1 k with
  | Some v => Some v
  | None => dict_get d2 k
  end.
Proof.
  induction d1 as [|[k' v'] d1 IH]; simpl; [reflexivity|].
  by destruct (bool_decide (k' = k)).
Qed.

Lemma dict_get_map {V W : Type} (h : V -> W) (d : dict V) (k : str) :
  dict_get (map (fun kt : str * V => (kt.1, h kt.2)) d) k = h <$> dict_get d k.
Proof.
  induction d as [|[k' v'] d IH]; simpl; [reflexivity|].
  by destruct (bool_decide (k' = k)).
Qed.

Lemma dict_get_push (sm : dict Formula) (m : Model) (v : str) :
  dict_get (push sm m) v =
  match dict_get sm v with
  | Some t => Some (value t m)
  | None => dict_get m v
  end.
Proof.
  unfold push. rewrite dict_get_app, (dict_get_map (fun t => value t m)).
  by destruct (dict_get sm v).
Qed.

(** The value of a substituted formula is the value of the formula in the
    model that gives each mapped name the value of its image. *)
Lemma single_pass_value (sm : dict Formula) (f : Formula) (m : Model) :
  value (single_pass sm f) m = value f (push sm m).
Proof.
  induction f as [r|r a IH|r a IHa b IHb]; simpl.
  - destruct (is_constant r) eqn:Hc; simpl; [by rewrite Hc|].
    rewrite dict_get_push. destruct (dict_get sm r) as [t|]; simpl;
      [reflexivity | by rewrite Hc].
  - by rewrite IH.
  - by rewrite IHa, IHb.
Qed.

Lemma single_pass_well_formed (sm : dict Formula) (f : Formula) :
  (forall k t, dict_get sm k = Some t -> well_formed t = true) ->
  well_formed f = true -> well_formed (single_pass sm f) = true.
Proof.
  intros Hsm. induction f as [r|r a IH|r a IHa b IHb]; simpl; intros H.
  - destruct (is_constant r) eqn:Hc; [simpl; by rewrite Hc, orb_true_r|].
    destruct (dict_get sm r) as [t|] eqn:Ht; simpl; [by apply (Hsm r)|].
    by rewrite Hc.
  - apply andb_true_iff in H as [H1 H2]. by rewrite H1, IH.
  - apply andb_true_iff in H as [H H3]. apply andb_true_iff in H as [H1 H2].
    by rewrite H1, IHa, IHb.
Qed.

Lemma single_pass_vars (sm : dict Formula) (f : Formula) (K : gset str) :
  (forall v, v ∈ vars_of f ->
     match dict_get sm v with
     | Some t => vars_of t ⊆ K
     | None => v ∈ K
     end) ->
  vars_of (single_pass sm f) ⊆ K.
Proof.
  induction f as [r|r a IH|r a IHa b IHb]; simpl; intros H.
  - destruct (is_constant r) eqn:Hc; simpl; rewrite ?Hc;
      [apply empty_subseteq|].
    specialize (H r (proj2 (elem_of_singleton r r) eq_refl)).
    destruct (dict_get sm r) as [t|]; simpl; [exact H|].
    rewrite Hc. by apply singleton_subseteq_l.
  - by apply IH.
  - apply union_subseteq. split; [apply IHa | apply IHb]; intros v Hv;
      apply H; apply elem_of_union; auto.
Qed.

Lemma dict_item_Ok {V : Type} (d : dict V) (k : str) (v : V) :
  dict_item d k = Ok v <-> dict_get d k = Some v.
Proof.
  unfold dict_item. destruct (dict_get d k); split; congruence.
Qed.

Lemma evaluate_value (f : Formula) (m : Model) (b : bool) :
  well_formed f = true -> evaluate f m = Ok b -> value f m = b.
Proof.
  intros Hwf H. pose proof (evaluate_Ok_covers f m b H) as [Hm Hc].
  rewrite (evaluate_covers f m Hm Hwf Hc) in H. by injection H.
Qed.

Lemma covers_key (f : Formula) (m : Model) (v : str) :
  well_formed f = true -> covers m f -> v ∈ vars_of f -> v ∈ dict_keys m.
Proof.
  intros Hwf Hc Hv. apply covers_vars_of in Hc; [|done].
  specialize (Hc v Hv). by apply elem_of_list_to_set in Hc.
Qed.

(** X8. The substitution lemma.  Let [sm] map variable names to formulas that
    [m] covers, and let [m'] be a model covering [f] that gives each variable
    name of [f] the value in [m] of its image, or its own value in [m] when it
    is not a key.  Then [f.substitute_variables(sm)] is a constructible
    formula whose value in [m] is the value of [f] in [m']. *)
Theorem substitute_variables_evaluate (f : Formula) (sm : dict Formula)
  (m m' : Model) :
  well_formed f = true ->
  Forall (fun kt : str * Formula =>
            is_variable kt.1 = Ok true /\ well_formed kt.2 = true /\
            covers m kt.2) sm ->
  is_model m = Ok true -> is_model m' = Ok true -> covers m' f ->
  (forall vs v, variables f = Ok vs -> v ∈ vs ->
     match dict_get sm v with
     | Some t => evaluate t m = dict_item m' v
     | None => dict_item m v = dict_item m' v
     end) ->
  exists g b, substitute_variables f sm = Ok g /\ well_formed g = true /\
              evaluate g m = Ok b /\ evaluate f m' = Ok b.
Proof.
  intros Hwf Hsm Hm Hm' Hc' Hval.
  assert (forall k t, dict_get sm k = Some t ->
            well_formed t = true /\ covers m t) as Himg.
  { intros k t Hk. apply dict_get_elem in Hk. rewrite Forall_forall in Hsm.
    by destruct (Hsm _ Hk) as (_ & ? & ?). }
  assert (forall v, v ∈ vars_of f -> exists b, dict_get m' v = Some b) as Hin.
  { intros v Hv. pose proof (covers_key f m' v Hwf Hc' Hv) as Hk.
    apply dict_get_is_Some in Hk as [b Hb]. eauto. }
  specialize (Hval (vars_of f)).
  exists (single_pass sm f), (value f m').
  split.
  { apply substitute_variables_well_formed; [|done].
    apply Forall_fmap. eapply Forall_impl; [exact Hsm|]. by intros kt [? _]. }
  assert (well_formed (single_pass sm f) = true) as Hwg.
  { apply single_pass_well_formed; [|done]. intros k t Hk.
    by destruct (Himg k t Hk). }
  split; [exact Hwg|].
  split; [|by apply evaluate_covers].
  rewrite evaluate_well_formed; [|done..|].
  - f_equal. rewrite single_pass_value. apply value_agree_get.
    intros v Hv. unfold get. rewrite dict_get_push.
    specialize (Hval v (variables_well_formed f Hwf) Hv).
    destruct (Hin v Hv) as [b Hb]. rewrite Hb.
    destruct (dict_get sm v) as [t|] eqn:Ht.
    + destruct (Himg v t Ht) as [Hwt Hct].
      rewrite (evaluate_covers t m Hm Hwt Hct) in Hval.
      symmetry in Hval. apply dict_item_Ok in Hval. congruence.
    + symmetry in Hval. rewrite (proj2 (dict_item_Ok m' v b) Hb) in Hval.
      symmetry in Hval. apply dict_item_Ok in Hval. by rewrite Hval.
  - apply single_pass_vars. intros v Hv.
    specialize (Hval v (variables_well_formed f Hwf) Hv).
    destruct (Hin v Hv) as [b Hb].
    destruct (dict_get sm v) as [t|] eqn:Ht.
    + destruct (Himg v t Ht) as [Hwt Hct]. by apply covers_vars_of in Hct.
    + rewrite (proj2 (dict_item_Ok m' v b) Hb) in Hval.
      apply dict_item_Ok in Hval.
      apply (proj2 (elem_of_list_to_set (C := gset str) _ _)).
      apply dict_get_is_Some. eauto.
Qed.

Lemma substitute_variables_evaluate_witness :
  exists g b,
    substitute_variables
      (Binary (py "->") (Atom (py "p")) (Atom (py "r")))
      [(py "p", Binary (py "&") (Atom (py "q")) (Atom (py "r")))] = Ok g /\
    well_formed g = true /\
    evaluate g [(py "q", true); (py "r", false)] = Ok b /\
    evaluate (Binary (py "->") (Atom (py "p")) (Atom (py "r")))
      [(py "p", false); (py "r", false)] = Ok b.
Proof.
  apply (substitute_variables_evaluate
           (Binary (py "->") (Atom (py "p")) (Atom (py "r")))
           [(py "p", Binary (py "&") (Atom (py "q")) (Atom (py "r")))]
           [(py "q", true); (py "r", false)]
           [(py "p", false); (py "r", false)]).
  - reflexivity.
  - repeat constructor. apply covers_vars_of; [reflexivity|].
    apply (bool_decide_unpack _). vm_compute. exact I.
  - reflexivity.
  - reflexivity.
  - apply covers_vars_of; [reflexivity|].
    apply (bool_decide_unpack _). vm_compute. exact I.
  - intros vs v Hvs Hv.
    rewrite (variables_well_formed
               (Binary (py "->") (Atom (py "p")) (Atom (py "r"))) eq_refl)
      in Hvs.
    injection Hvs as <-. cbn [vars_of] in Hv.
    change (is_constant (py "p")) with false in Hv.
    change (is_constant (py "r")) with false in Hv. cbv iota in Hv.
    apply elem_of_union in Hv as [Hv|Hv]; apply elem_of_singleton in Hv as ->;
      vm_compute; reflexivity.
Defined.

(** ** The substitution of operators and truth values *)

Lemma constant_not_operator (c : str) :
  is_constant c = true -> is_unary c = false /\ is_binary c = false.
Proof. intros H. apply is_constant_cases in H as [-> | ->]; by vm_compute. Qed.

Lemma equivalent_template_table (op : str) (t : Formula) :
  well_formed t = true -> equivalent_template op t -> template_table op t.
Proof.
  intros Hwf He. unfold equivalent_template in He. split; [|split].
  - intros Hb. rewrite Hb in He.
    assert (forall x y, evaluate t [(py "p", x); (py "q", y)] =
                        Ok (textbook op x y)) as Hxy.
    { intros x y. rewrite He.
      rewrite (evaluate_well_formed
                 (Binary op (Atom (py "p")) (Atom (py "q")))); [done..| |].
      - simpl. by rewrite Hb.
      - apply (bool_decide_unpack _). by vm_compute. }
    assert (vars_of t ⊆ {[ py "p"; py "q" ]}) as Hv.
    { destruct (evaluate_Ok_covers _ _ _ (Hxy false false)) as [_ Hc].
      apply covers_vars_of in Hc; [|done]. intros v Hv.
      specialize (Hc v Hv). apply elem_of_list_to_set in Hc. simpl in Hc.
      apply elem_of_cons in Hc as [->|Hc];
        [apply elem_of_union; left; by apply elem_of_singleton|].
      apply elem_of_cons in Hc as [->|Hc];
        [apply elem_of_union; right; by apply elem_of_singleton|].
      by apply elem_of_nil in Hc. }
    split; [exact Hv|]. intros m.
    rewrite <- (evaluate_value t _ _ Hwf
                  (Hxy (get m (py "p")) (get m (py "q")))).
    apply value_agree_get. intros v Hin. specialize (Hv v Hin).
    apply elem_of_union in Hv as [Hv|Hv]; apply elem_of_singleton in Hv as ->;
      reflexivity.
  - intros Hu.
    replace (is_binary op) with false in He
      by (apply is_unary_eq in Hu as ->; reflexivity).
    rewrite Hu in He. apply is_unary_eq in Hu as ->.
    assert (forall x, evaluate t [(py "p", x)] = Ok (negb x)) as Hx.
    { intros x. rewrite He. by destruct x. }
    assert (vars_of t ⊆ {[ py "p" ]}) as Hv.
    { destruct (evaluate_Ok_covers _ _ _ (Hx false)) as [_ Hc].
      apply covers_vars_of in Hc; [|done]. intros v Hv.
      specialize (Hc v Hv). apply elem_of_list_to_set in Hc. simpl in Hc.
      apply elem_of_cons in Hc as [->|Hc]; [by apply elem_of_singleton|].
      by apply elem_of_nil in Hc. }
    split; [exact Hv|]. intros m.
    rewrite <- (evaluate_value t _ _ Hwf (Hx (get m (py "p")))).
    apply value_agree_get. intros v Hin. specialize (Hv v Hin).
    apply elem_of_singleton in Hv as ->. reflexivity.
  - intros Hc.
    destruct (constant_not_operator op Hc) as [Hu Hb].
    rewrite Hb, Hu in He.
    assert (evaluate t [] = Ok (bool_decide (op = py "T"))) as H0.
    { rewrite He. apply is_constant_cases in Hc as [-> | ->]; reflexivity. }
    assert (vars_of t ⊆ ∅) as Hv.
    { destruct (evaluate_Ok_covers _ _ _ H0) as [_ Hcov].
      by apply covers_vars_of in Hcov. }
    split; [exact Hv|]. intros m.
    rewrite <- (evaluate_value t _ _ Hwf H0).
    apply value_agree_get. intros v Hin. specialize (Hv v Hin).
    by apply elem_of_empty in Hv.
Qed.

Lemma bottom_up_well_formed (sm : dict Formula) (f : Formula) :
  operator_map sm -> well_formed f = true ->
  well_formed (bottom_up sm f) = true.
Proof.
  intros Hmap. by_shape f H; cbn [bottom_up].
  - by rewrite Hconst.
  - rewrite Hconst. destruct (dict_get sm r) as [t|] eqn:Ht; [|done].
    apply single_pass_well_formed; [done|].
    by apply (operator_map_template sm r).
  - specialize (IH Hwa). destruct (dict_get sm (py "~")) as [t|] eqn:Ht;
      [|done].
    apply single_pass_well_formed; [|by apply (operator_map_template sm (py "~"))].
    intros k t' Hk. simpl in Hk.
    destruct (bool_decide (py "p" = k)); [by injection Hk as <- | done].
  - specialize (IHa Hwa). specialize (IHb Hwb).
    destruct (dict_get sm r) as [t|] eqn:Ht;
      [|simpl; by rewrite Hbin, IHa, IHb].
    apply single_pass_well_formed; [|by apply (operator_map_template sm r)].
    intros k t' Hk. simpl in Hk.
    destruct (bool_decide (py "p" = k)); [by injection Hk as <-|].
    destruct (bool_decide (py "q" = k)); [by injection Hk as <- | done].
Qed.

(** With templates that have the truth tables of their keys, the rewritten
    formula has the variable names and the value of the formula. *)
Lemma bottom_up_value (sm : dict Formula) (f : Formula) :
  (forall op t, dict_get sm op = Some t -> template_table op t) ->
  well_formed f = true ->
  vars_of (bottom_up sm f) ⊆ vars_of f /\
  forall m, value (bottom_up sm f) m = value f m.
Proof.
  intros Htab. by_shape f H; cbn [bottom_up].
  - by rewrite Hconst.
  - rewrite Hconst. destruct (dict_get sm r) as [t|] eqn:Ht; [|done].
    destruct (Htab r t Ht) as (_ & _ & Hc).
    destruct (Hc Hconst) as [Hv Hval]. split.
    + apply single_pass_vars. intros v Hin. specialize (Hv v Hin).
      by apply elem_of_empty in Hv.
    + intros m. rewrite single_pass_value, Hval. simpl. by rewrite Hconst.
  - destruct (IH Hwa) as [IHv IHval].
    destruct (dict_get sm (py "~")) as [t|] eqn:Ht;
      [|split; [done | intros m; simpl; by rewrite IHval]].
    destruct (Htab (py "~") t Ht) as (_ & Hu & _).
    destruct (Hu eq_refl) as [Hv Hval]. split.
    + apply single_pass_vars. intros v Hin. specialize (Hv v Hin).
      apply elem_of_singleton in Hv as ->. exact IHv.
    + intros m. rewrite single_pass_value, Hval. unfold get.
      rewrite dict_get_push. simpl. by rewrite IHval.
  - destruct (IHa Hwa) as [IHva IHvala]. destruct (IHb Hwb) as [IHvb IHvalb].
    destruct (dict_get sm r) as [t|] eqn:Ht.
    + destruct (Htab r t Ht) as (Hb & _ & _).
      destruct (Hb Hbin) as [Hv Hval]. split.
      * apply single_pass_vars. intros v Hin. specialize (Hv v Hin).
        apply elem_of_union in Hv as [Hv|Hv];
          apply elem_of_singleton in Hv as ->; simpl.
        -- by apply union_subseteq_l'.
        -- by apply union_subseteq_r'.
      * intros m. rewrite single_pass_value, Hval. unfold get.
        rewrite !dict_get_push. simpl. by rewrite IHvala, IHvalb.
    + split.
      * simpl. apply union_mono; done.
      * intros m. simpl. by rewrite IHvala, IHvalb.
Qed.

(** X9. Replacing operators by equivalent templates keeps the truth value:
    when every template of the map evaluates as its key applied to [p] and
    [q], [f.substitute_operators(sm)] is a constructible formula that every
    model covering [f] covers, with the value of [f] in that model. *)
Theorem substitute_operators_evaluate (f : Formula) (sm : dict Formula)
  (m : Model) :
  well_formed f = true ->
  operator_map sm ->
  (forall op t, dict_get sm op = Some t -> equivalent_template op t) ->
  is_model m = Ok true -> covers m f ->
  exists g b, substitute_operators f sm = Ok g /\ well_formed g = true /\
              evaluate g m = Ok b /\ evaluate f m = Ok b.
Proof.
  intros Hwf Hmap Heq Hm Hc.
  exists (bottom_up sm f), (value f m).
  split; [by apply substitute_operators_well_formed|].
  pose proof (bottom_up_well_formed sm f Hmap Hwf) as Hwg.
  split; [exact Hwg|]. split; [|by apply evaluate_covers].
  destruct (bottom_up_value sm f) as [Hv Hval]; [|done|].
  { intros op t Ht. apply equivalent_template_table; [|by apply Heq].
    by apply (operator_map_template sm op). }
  rewrite evaluate_well_formed; [by rewrite Hval | done..|].
  apply covers_vars_of in Hc; [|done]. by etrans.
Qed.

Lemma substitute_operators_evaluate_witness :
  exists g b,
    substitute_operators
      (Binary (py "&") (Atom (py "x")) (Unary (py "~") (Atom (py "y"))))
      [ (py "&", Unary (py "~")
                   (Binary (py "|") (Unary (py "~") (Atom (py "p")))
                      (Unary (py "~") (Atom (py "q"))))) ] = Ok g /\
    well_formed g = true /\
    evaluate g [(py "x", true); (py "y", false)] = Ok b /\
    evaluate (Binary (py "&") (Atom (py "x")) (Unary (py "~") (Atom (py "y"))))
      [(py "x", true); (py "y", false)] = Ok b.
Proof.
  apply (substitute_operators_evaluate
           (Binary (py "&") (Atom (py "x")) (Unary (py "~") (Atom (py "y"))))).
  - reflexivity.
  - repeat constructor; simpl; refine (bool_decide_unpack _ _); vm_compute;
      exact I.
  - intros op t H. simpl in H.
    destruct (bool_decide_reflect (py "&" = op)) as [<-|_]; [|discriminate].
    injection H as <-. intros [] []; vm_compute; reflexivity.
  - reflexivity.
  - apply covers_vars_of; [reflexivity|].
    apply (bool_decide_unpack _). vm_compute. exact I.
Defined.

(** ** The operators of a formula *)

Lemma operators_well_formed (f : Formula) :
  well_formed f = true -> operators f = Ok (ops_of f).
Proof.
  by_shape f H; simpl.
  - rewrite Hvar, Hconst. reflexivity.
  - rewrite Hvar, Hconst. reflexivity.
  - rewrite (IH Hwa). reflexivity.
  - rewrite Hvar, Hconst, Hun. simpl. rewrite (IHa Hwa), (IHb Hwb). reflexivity.
Qed.

Lemma single_pass_ops (sm : dict Formula) (f : Formula) (S : gset str) :
  (forall k t, dict_get sm k = Some t -> ops_of t ⊆ S) ->
  ops_of f ⊆ S -> ops_of (single_pass sm f) ⊆ S.
Proof.
  intros Hsm. induction f as [r|r a IH|r a IHa b IHb]; simpl; intros H.
  - destruct (is_constant r) eqn:Hc; simpl; rewrite ?Hc; [exact H|].
    destruct (dict_get sm r) as [t|] eqn:Ht; simpl; [by apply (Hsm r)|].
    by rewrite Hc.
  - apply union_subseteq in H as [H1 H2]. apply union_subseteq.
    split; [exact H1 | by apply IH].
  - apply union_subseteq in H as [H H3]. apply union_subseteq in H as [H1 H2].
    apply union_subseteq. split; [apply union_subseteq; split|];
      [exact H1 | by apply IHa | by apply IHb].
Qed.

Lemma bottom_up_ops (sm : dict Formula) (f : Formula) (S : gset str) :
  (forall k t, dict_get sm k = Some t -> ops_of t ⊆ S) ->
  (forall o, o ∈ ops_of f -> dict_get sm o = None -> o ∈ S) ->
  ops_of (bottom_up sm f) ⊆ S.
Proof.
  intros Hsm. induction f as [r|r a IH|r a IHa b IHb]; cbn [bottom_up];
    intros H.
  - destruct (is_constant r) eqn:Hc; [|simpl; rewrite Hc; apply empty_subseteq].
    destruct (dict_get sm r) as [t|] eqn:Ht.
    + apply single_pass_ops; [done | by apply (Hsm r)].
    + simpl. rewrite Hc. apply singleton_subseteq_l. apply H; [|done].
      simpl. rewrite Hc. by apply elem_of_singleton.
  - assert (ops_of (bottom_up sm a) ⊆ S) as Ha.
    { apply IH. intros o Ho. apply H. simpl. apply elem_of_union. by right. }
    destruct (dict_get sm r) as [t|] eqn:Ht.
    + apply single_pass_ops; [|by apply (Hsm r)]. intros k t' Hk.
      simpl in Hk. destruct (bool_decide (py "p" = k));
        [by injection Hk as <- | done].
    + simpl. apply union_subseteq. split; [|exact Ha].
      apply singleton_subseteq_l. apply H; [|done].
      simpl. apply elem_of_union. left. by apply elem_of_singleton.
  - assert (ops_of (bottom_up sm a) ⊆ S) as Ha.
    { apply IHa. intros o Ho. apply H. simpl. apply elem_of_union. left.
      apply elem_of_union. by right. }
    assert (ops_of (bottom_up sm b) ⊆ S) as Hb.
    { apply IHb. intros o Ho. apply H. simpl. apply elem_of_union. by right. }
    destruct (dict_get sm r) as [t|] eqn:Ht.
    + apply single_pass_ops; [|by apply (Hsm r)]. intros k t' Hk.
      simpl in Hk. destruct (bool_decide (py "p" = k));
        [by injection Hk as <-|].
      destruct (bool_decide (py "q" = k)); [by injection Hk as <- | done].
    + simpl. apply union_subseteq. split; [apply union_subseteq; split|];
        [|exact Ha | exact Hb].
      apply singleton_subseteq_l. apply H; [|done].
      simpl. apply elem_of_union. left. apply elem_of_union. left.
      by apply elem_of_singleton.
Qed.

(** X10. The operators of [f.substitute_operators(sm)] are operators of the
    templates or operators of [f] that are not keys: if a set holds the
    operators of every template and every operator of [f] that is not a key,
    it holds the operators of the result.  So a map with a key for every
    operator of [f] leaves only the operators of its templates. *)
Theorem substitute_operators_operators (f : Formula) (sm : dict Formula)
  (S : gset str) :
  well_formed f = true ->
  operator_map sm ->
  (forall k t ops, dict_get sm k = Some t -> operators t = Ok ops -> ops ⊆ S) ->
  (forall ops o, operators f = Ok ops -> o ∈ ops -> dict_get sm o = None ->
     o ∈ S) ->
  exists g ops, substitute_operators f sm = Ok g /\ operators g = Ok ops /\
                ops ⊆ S.
Proof.
  intros Hwf Hmap Ht Hf. exists (bottom_up sm f), (ops_of (bottom_up sm f)).
  split; [by apply substitute_operators_well_formed|].
  split; [apply operators_well_formed; by apply bottom_up_well_formed|].
  apply bottom_up_ops.
  - intros k t Hk. apply (Ht k t); [done|]. apply operators_well_formed.
    by apply (operator_map_template sm k).
  - intros o Ho. apply (Hf (ops_of f)); [|done]. by apply operators_well_formed.
Qed.

Lemma substitute_operators_operators_witness :
  exists g ops,
    substitute_operators
      (Binary (py "&") (Atom (py "x")) (Unary (py "~") (Atom (py "T"))))
      [ (py "&", Unary (py "~")
                   (Binary (py "|") (Unary (py "~") (Atom (py "p")))
                      (Unary (py "~") (Atom (py "q"))))) ] = Ok g /\
    operators g = Ok ops /\ ops ⊆ {[ py "~"; py "|"; py "T" ]}.
Proof.
  apply (substitute_operators_operators
           (Binary (py "&") (Atom (py "x")) (Unary (py "~") (Atom (py "T"))))).
  - reflexivity.
  - repeat constructor; simpl; refine (bool_decide_unpack _ _); vm_compute;
      exact I.
  - intros k t ops H. simpl in H.
    destruct (bool_decide_reflect (py "&" = k)) as [<-|_]; [|discriminate].
    injection H as <-.
    rewrite (operators_well_formed
               (Unary (py "~")
                  (Binary (py "|") (Unary (py "~") (Atom (py "p")))
                     (Unary (py "~") (Atom (py "q"))))) eq_refl).
    intros [= <-]. refine (bool_decide_unpack _ _). vm_compute. exact I.
  - intros ops o.
    rewrite (operators_well_formed
               (Binary (py "&") (Atom (py "x"))
                  (Unary (py "~") (Atom (py "T")))) eq_refl).
    intros [= <-] Ho Hk. cbn [ops_of] in Ho.
    change (is_constant (py "x")) with false in Ho.
    change (is_constant (py "T")) with true in Ho. cbv iota in Ho.
    rewrite !elem_of_union, !elem_of_singleton in Ho.
    destruct Ho as [[-> | Ho] | [-> | ->]];
      [discriminate Hk | by apply elem_of_empty in Ho | ..];
      rewrite !elem_of_union, !elem_of_singleton; auto.
Defined.

(** ** The checks of the substitutions *)

Lemma assert_each_fail {A : Type} (check : A -> result bool) (xs : list A) :
  Forall (fun x => exists b, check x = Ok b) xs ->
  ~ Forall (fun x => check x = Ok true) xs ->
  assert_each check xs = Raise AssertionError.
Proof.
  induction 1 as [|x xs [b Hb] _ IH]; intros Hn; [by destruct Hn|].
  simpl. rewrite Hb. destruct b; [|reflexivity]. cbn [bind assert].
  apply IH. intros Hall. apply Hn. by constructor.
Qed.

Lemma assert_each_Ok_inv {A : Type} (check : A -> result bool) (xs : list A)
  (u : unit) :
  assert_each check xs = Ok u -> Forall (fun x => check x = Ok true) xs.
Proof.
  induction xs as [|x xs IH]; simpl; intros H; [constructor|].
  apply bind_Ok in H as (b & Hb & H). apply bind_Ok in H as (u' & Hu & H).
  apply assert_Ok in Hu. subst b. constructor; [exact Hb | by apply IH].
Qed.

Lemma substitute_variables_prefix (f : Formula) (sm : dict Formula) :
  substitute_variables f sm =
  let* _ := assert_each is_variable (dict_keys sm) in
  substitute_variables f sm.
Proof.
  destruct (assert_each is_variable (dict_keys sm)) as [[]|e] eqn:E;
    [reflexivity|].
  destruct f; cbn [substitute_variables]; by rewrite E.
Qed.

Lemma substitute_operators_prefix (f : Formula) (sm : dict Formula) :
  substitute_operators f sm =
  let* _ := assert_each check_operator sm in
  substitute_operators f sm.
Proof.
  destruct (assert_each check_operator sm) as [[]|e] eqn:E; [reflexivity|].
  destruct f; cbn [substitute_operators]; by rewrite E.
Qed.

(** The loop of assertions passes over the items that satisfy the check. *)
Lemma assert_each_app {A : Type} (check : A -> result bool) (good xs : list A) :
  Forall (fun x => check x = Ok true) good ->
  assert_each check (good ++ xs) = assert_each check xs.
Proof.
  induction 1 as [|x good Hx _ IH]; [reflexivity|].
  cbn [app assert_each]. rewrite Hx. exact IH.
Qed.

(** The loop of [substitute_variables] at the first key that is no variable
    name: [is_variable] indexes the empty string, and the assertion fails on
    any other key. *)
Lemma assert_each_variable_first (good : list str) (k : str) (rest : list str) :
  Forall (fun k => is_variable k = Ok true) good ->
  is_variable k <> Ok true ->
  assert_each is_variable (good ++ k :: rest) =
  Raise (if bool_decide (k = []) then IndexError else AssertionError).
Proof.
  intros Hgood Hk. rewrite (assert_each_app _ _ _ Hgood).
  cbn [assert_each]. destruct k as [|c k]; [reflexivity|].
  destruct (is_variable_nonempty c k) as [b Hb]. rewrite Hb.
  destruct b; [done | reflexivity].
Qed.

(** X11. The substitutions check the whole map first, whatever the formula.
    [substitute_variables] stops at the first key that is no variable name:
    it raises [IndexError] when that key is the empty string and fails its
    assertion otherwise; so with no empty key it fails its assertion when
    some key is no variable name, and it returns only when every key is one.
    [substitute_operators], on constructible templates, fails an assertion
    when some key is not a constant or an operator, or some template has a
    variable name other than [p] and [q]. *)
Theorem substitutions_check_map (f : Formula) (sm : dict Formula) :
  (forall good k rest,
     dict_keys sm = good ++ k :: rest ->
     Forall (fun k => is_variable k = Ok true) good ->
     is_variable k <> Ok true ->
     substitute_variables f sm =
     Raise (if bool_decide (k = []) then IndexError else AssertionError)) /\
  (Forall (fun k => k <> []) (dict_keys sm) ->
   ~ Forall (fun k => is_variable k = Ok true) (dict_keys sm) ->
   substitute_variables f sm = Raise AssertionError) /\
  (forall g, substitute_variables f sm = Ok g ->
     Forall (fun k => is_variable k = Ok true) (dict_keys sm)) /\
  (Forall (fun kt : str * Formula => well_formed kt.2 = true) sm ->
   ~ operator_map sm ->
   substitute_operators f sm = Raise AssertionError).
Proof.
  split; [|split; [|split]].
  - intros good k rest Hkeys Hgood Hk. rewrite substitute_variables_prefix.
    by rewrite Hkeys, (assert_each_variable_first good k rest Hgood Hk).
  - intros Hne Hn. rewrite substitute_variables_prefix.
    rewrite assert_each_fail; [reflexivity| |exact Hn].
    eapply Forall_impl; [exact Hne|]. intros [|c k] Hk; [done|].
    apply is_variable_nonempty.
  - intros g H. rewrite substitute_variables_prefix in H.
    apply bind_Ok in H as (u & Hu & _). by apply assert_each_Ok_inv in Hu.
  - intros Hwf Hn. rewrite substitute_operators_prefix.
    rewrite assert_each_fail; [reflexivity| |].
    + eapply Forall_impl; [exact Hwf|]. intros [k t] Ht. simpl in Ht.
      unfold check_operator. rewrite (variables_well_formed t Ht).
      destruct (is_constant k || is_unary k || is_binary k); eexists;
        reflexivity.
    + intros Hall. apply Hn. unfold operator_map.
      rewrite Forall_forall in Hall, Hwf. apply Forall_forall.
      intros [k t] Hin. specialize (Hall _ Hin). specialize (Hwf _ Hin).
      simpl in *. rewrite (variables_well_formed t Hwf) in Hall.
      destruct (is_constant k || is_unary k || is_binary k); [|discriminate].
      cbn [bind] in Hall. injection Hall as Hall.
      apply bool_decide_eq_true in Hall. done.
Qed.

Lemma substitutions_check_map_witness :
  substitute_variables (Atom (py "p"))
    [([], Atom (py "q")); (py "T", Atom (py "q"))] = Raise IndexError /\
  substitute_variables (Atom (py "p"))
    [(py "x", Atom (py "q")); (py "T", Atom (py "q")); ([], Atom (py "q"))] =
  Raise AssertionError /\
  substitute_variables (Atom (py "T")) [(py "T", Atom (py "p"))] =
  Raise AssertionError /\
  substitute_operators (Atom (py "p")) [(py "&", Atom (py "r"))] =
  Raise AssertionError.
Proof.
  split; [|split; [|split]].
  - apply (proj1 (substitutions_check_map (Atom (py "p"))
                    [([], Atom (py "q")); (py "T", Atom (py "q"))])
             [] [] [py "T"]);
      [reflexivity | constructor | discriminate].
  - apply (proj1 (substitutions_check_map (Atom (py "p"))
                    [(py "x", Atom (py "q")); (py "T", Atom (py "q"));
                     ([], Atom (py "q"))])
             [py "x"] (py "T") [[]]);
      [reflexivity | by repeat constructor | discriminate].
  - apply (substitutions_check_map (Atom (py "T")) [(py "T", Atom (py "p"))]).
    + repeat constructor. discriminate.
    + intros H. inversion H as [|? ? Hk _]. discriminate Hk.
  - apply (substitutions_check_map (Atom (py "p")) [(py "&", Atom (py "r"))]).
    + repeat constructor.
    + intros H. inversion H as [|? ? (_ & _ & Hk) _]. simpl in Hk.
      specialize (Hk (py "r")). rewrite elem_of_singleton in Hk.
      specialize (Hk eq_refl).
      rewrite elem_of_union, !elem_of_singleton in Hk.
      destruct Hk as [Hk|Hk]; discriminate Hk.
Defined.

(** ** More on the synthesis *)

Lemma agree_true (m m' : Model) :
  agree m m' = true <-> forall v, v ∈ dict_keys m -> get m v = get m' v.
Proof.
  unfold agree. rewrite forallb_forall. split.
  - intros H v Hv. apply eqb_prop, H. apply list_elem_of_In.
    by apply sorted_elem.
  - intros H v Hv. apply list_elem_of_In in Hv.
    apply (proj1 (sorted_elem _ _)) in Hv. rewrite (H v Hv).
    apply eqb_reflx.
Qed.

Lemma get_dict_get (m m' : Model) (v : str) :
  v ∈ dict_keys m -> v ∈ dict_keys m' ->
  get m v = get m' v <-> dict_get m' v = dict_get m v.
Proof.
  intros H H'. apply dict_get_is_Some in H as [b Hb].
  apply dict_get_is_Some in H' as [b' Hb']. unfold get.
  rewrite Hb, Hb'. simpl. split; congruence.
Qed.

(** X12. The clauses of the synthesis.  For a model [m] over at least one
    name and a model [m'] that has the names of [m],
    [_synthesize_for_model(m)] is true in [m'] exactly when [m'] gives every
    name of [m] its value in [m], and [_synthesize_for_all_except_model(m)]
    has the opposite value. *)
Theorem synthesize_for_model_true_in (m m' : Model) :
  Forall (fun k => is_variable k = Ok true) (dict_keys m) ->
  dict_keys m <> [] ->
  is_model m' = Ok true ->
  (forall v, v ∈ dict_keys m -> v ∈ dict_keys m') ->
  exists f g b,
    _synthesize_for_model m = Ok f /\
    _synthesize_for_all_except_model m = Ok g /\
    evaluate f m' = Ok b /\ evaluate g m' = Ok (negb b) /\
    (b = true <-> forall v, v ∈ dict_keys m -> dict_get m' v = dict_get m v).
Proof.
  intros Hvalid Hne Hm' Hsub.
  exists (clause (py "&") false m), (clause (py "|") true m), (agree m m').
  split; [by apply synthesize_for_model_Ok|].
  split; [by apply synthesize_for_all_except_model_Ok|].
  assert (forall op flip,
            vars_of (clause op flip m) ⊆ list_to_set (dict_keys m')) as Hv.
  { intros op flip. etrans; [by apply clause_vars|].
    intros v Hin. apply elem_of_list_to_set in Hin.
    apply elem_of_list_to_set. by apply Hsub. }
  split; [|split].
  - rewrite evaluate_well_formed; [|done| |by apply Hv].
    + f_equal. by apply clause_and_value.
    + by apply clause_well_formed.
  - rewrite evaluate_well_formed; [|done| |by apply Hv].
    + f_equal. by apply clause_or_value.
    + by apply clause_well_formed.
  - rewrite agree_true. split; intros H v Hin.
    + apply (get_dict_get m m' v Hin (Hsub v Hin)). by apply H.
    + apply (get_dict_get m m' v Hin (Hsub v Hin)). by apply H.
Qed.

Lemma synthesize_for_model_true_in_witness :
  exists f g b,
    _synthesize_for_model [(py "q", true); (py "p", false)] = Ok f /\
    _synthesize_for_all_except_model [(py "q", true); (py "p", false)] = Ok g /\
    evaluate f [(py "p", false); (py "q", true); (py "r", true)] = Ok b /\
    evaluate g [(py "p", false); (py "q", true); (py "r", true)] = Ok (negb b) /\
    (b = true <->
     forall v, v ∈ dict_keys [(py "q", true); (py "p", false)] ->
       dict_get [(py "p", false); (py "q", true); (py "r", true)] v =
       dict_get [(py "q", true); (py "p", false)] v).
Proof.
  apply (synthesize_for_model_true_in [(py "q", true); (py "p", false)]
           [(py "p", false); (py "q", true); (py "r", true)]).
  - repeat constructor.
  - discriminate.
  - reflexivity.
  - intros v Hv. simpl in *.
    apply elem_of_cons in Hv as [->|Hv]; [right; by left|].
    apply elem_of_cons in Hv as [->|Hv]; [by left | by apply elem_of_nil in Hv].
Defined.

Lemma lit_ops (v : str) (b : bool) (S : gset str) :
  is_variable v = Ok true -> py "~" ∈ S -> ops_of (lit v b) ⊆ S.
Proof.
  intros Hv Hn. unfold lit. destruct b; simpl;
    rewrite (variable_not_constant v Hv); [apply empty_subseteq|].
  apply union_subseteq. split; [by apply singleton_subseteq_l|].
  apply empty_subseteq.
Qed.

Lemma joined_ops {A : Type} (op : str) (mk : A -> Formula) (xs : list A)
  (S : gset str) :
  op ∈ S -> Forall (fun x => ops_of (mk x) ⊆ S) xs ->
  forall acc, ops_of acc ⊆ S -> ops_of (joined op mk acc xs) ⊆ S.
Proof.
  intros Hop. induction 1 as [|x xs Hx _ IH]; intros acc Hacc; simpl;
    [exact Hacc|].
  apply IH. simpl. apply union_subseteq. split; [|exact Hx].
  apply union_subseteq. split; [by apply singleton_subseteq_l | exact Hacc].
Qed.

Lemma clause_ops (op : str) (flip : bool) (m : Model) (S : gset str) :
  Forall (fun k => is_variable k = Ok true) (dict_keys m) ->
  dict_keys m <> [] -> op ∈ S -> py "~" ∈ S ->
  ops_of (clause op flip m) ⊆ S.
Proof.
  intros Hvalid Hne Hop Hn. unfold clause.
  pose proof (sorted_key_valid m Hvalid) as Hv.
  destruct (sorted (dict_keys m)) as [|v0 rest] eqn:E;
    [by destruct (sorted_nonempty _ Hne)|].
  apply joined_ops; [exact Hop | |].
  - apply Forall_forall. intros v Hin. apply lit_ops; [|exact Hn].
    apply Hv. by right.
  - apply lit_ops; [|exact Hn]. apply Hv. by left.
Qed.

Lemma normal_form_ops (op inner : str) (flip : bool) (variables : list str)
  (ms : list Model) (S : gset str) :
  variables <> [] ->
  Forall (fun v => is_variable v = Ok true) variables ->
  Forall (fun m => Forall (fun k => is_variable k = Ok true) (dict_keys m) /\
                   dict_keys m <> []) ms ->
  op ∈ S -> inner ∈ S -> py "~" ∈ S ->
  ops_of (normal_form op inner flip variables ms) ⊆ S.
Proof.
  intros Hne Hvalid Hms Hop Hin Hn. destruct Hms as [|m0 rest [H1 H2] Hrest];
    simpl.
  - destruct variables as [|p vs]; [done|]. simpl.
    apply Forall_cons in Hvalid as [Hp _].
    rewrite (variable_not_constant p Hp).
    repeat (apply union_subseteq; split);
      try apply empty_subseteq; by apply singleton_subseteq_l.
  - apply joined_ops; [exact Hop | |by apply clause_ops].
    eapply Forall_impl; [exact Hrest|]. intros m [? ?]. by apply clause_ops.
Qed.

(** X13. For a non-empty list of variable names and [2^n] values, the
    formulas of [synthesize] and [synthesize_cnf] are constructible, have no
    operator besides [~], [&] and [|], and no variable name besides the
    given ones. *)
Theorem synthesize_fragment (names : list str) (values : list bool) :
  names <> [] ->
  Forall (fun v => is_variable v = Ok true) names ->
  length values = (2 ^ length names)%nat ->
  exists dnf cnf,
    synthesize names values = Ok dnf /\
    synthesize_cnf names values = Ok cnf /\
    well_formed dnf = true /\ well_formed cnf = true /\
    (exists ops, operators dnf = Ok ops /\ ops ⊆ {[ py "~"; py "&"; py "|" ]}) /\
    (exists ops, operators cnf = Ok ops /\ ops ⊆ {[ py "~"; py "&"; py "|" ]}) /\
    (exists vs, variables dnf = Ok vs /\ vs ⊆ list_to_set names) /\
    (exists vs, variables cnf = Ok vs /\ vs ⊆ list_to_set names).
Proof.
  intros Hne Hvalid Hlen.
  eexists _, _.
  split; [by apply synthesize_Ok|]. split; [by apply synthesize_cnf_Ok|].
  assert (forall keep,
            Forall (fun m => Forall (fun k => is_variable k = Ok true)
                               (dict_keys m) /\ dict_keys m <> [])
              (selected keep
                 (map (model_of_mask names) (range (2 ^ length names)))
                 values)) as Hsel.
  { intros keep. eapply Forall_impl; [apply selected_models|].
    intros m Hm. simpl in Hm.
    split; [by apply (model_valid_keys names) |
           by apply (model_some_key names)]. }
  assert (forall op inner flip keep,
            is_binary op = true -> is_binary inner = true ->
            well_formed
              (normal_form op inner flip names
                 (selected keep
                    (map (model_of_mask names)
                       (range (2 ^ length names))) values)) = true) as Hwf.
  { intros. apply normal_form_well_formed; try done. apply selected_models. }
  split; [by apply Hwf|]. split; [by apply Hwf|].
  split; [|split; [|split]].
  - eexists. split; [apply operators_well_formed; by apply Hwf|].
    apply normal_form_ops; try done;
      rewrite !elem_of_union, !elem_of_singleton; auto.
  - eexists. split; [apply operators_well_formed; by apply Hwf|].
    apply normal_form_ops; try done;
      rewrite !elem_of_union, !elem_of_singleton; auto.
  - eexists. split; [apply variables_well_formed; by apply Hwf|].
    apply normal_form_vars; try done. apply selected_models.
  - eexists. split; [apply variables_well_formed; by apply Hwf|].
    apply normal_form_vars; try done. apply selected_models.
Qed.

Lemma synthesize_fragment_witness :
  exists dnf cnf,
    synthesize [py "p"; py "p"] [false; true; false; true] = Ok dnf /\
    synthesize_cnf [py "p"; py "p"] [false; true; false; true] = Ok cnf /\
    well_formed dnf = true /\ well_formed cnf = true.
Proof.
  destruct (synthesize_fragment [py "p"; py "p"] [false; true; false; true])
    as (dnf & cnf & H1 & H2 & H3 & H4 & _).
  - discriminate.
  - repeat constructor.
  - reflexivity.
  - exists dnf, cnf. auto.
Defined.
Lemma synthesize_Ok_inv (names : list str) (values : list bool)
  (keep : bool -> bool) (k : list Model -> result Formula) (f : Formula) :
  (let* _ := assert (0 <? length names)%nat in
   let* _ := assert_each is_variable names in
   let* models := all_models names in
   let* _ := assert (length values =? length models)%nat in
   let* ms := select_models models keep (enumerate values) in
   k ms) = Ok f ->
  names <> [] /\ Forall (fun v => is_variable v = Ok true) names /\
  length values = (2 ^ length names)%nat.
Proof.
  intros H. apply bind_Ok in H as (u1 & H1 & H). apply assert_Ok in H1.
  apply bind_Ok in H as (u2 & H2 & H). apply assert_each_Ok_inv in H2.
  apply bind_Ok in H as (models & H3 & H). rewrite (all_models_Ok _ H2) in H3.
  injection H3 as <-.
  apply bind_Ok in H as (u4 & H4 & _). apply assert_Ok in H4.
  apply Nat.eqb_eq in H4. unfold range in H4.
  rewrite !length_map, length_seq in H4.
  split; [|done]. intros ->. discriminate H1.
Qed.

Lemma synthesize_length_fail (names : list str) (values : list bool)
  (keep : bool -> bool) (k : list Model -> result Formula) :
  names <> [] -> Forall (fun v => is_variable v = Ok true) names ->
  length values <> (2 ^ length names)%nat ->
  (let* _ := assert (0 <? length names)%nat in
   let* _ := assert_each is_variable names in
   let* models := all_models names in
   let* _ := assert (length values =? length models)%nat in
   let* ms := select_models models keep (enumerate values) in
   k ms) = Raise AssertionError.
Proof.
  intros Hne Hvalid Hlen.
  replace (0 <? length names)%nat with true by (by destruct names).
  cbn [bind assert]. rewrite (assert_each_Ok _ _ Hvalid). cbn [bind].
  rewrite (all_models_Ok _ Hvalid). cbn [bind].
  replace (length values =? _)%nat with false; [reflexivity|].
  symmetry. apply Nat.eqb_neq. unfold range.
  by rewrite !length_map, length_seq.
Qed.

(** X14. [synthesize] and [synthesize_cnf] return only for a non-empty list
    of variable names and exactly [2^n] values; with no name, or with a
    number of values other than [2^n], they fail an assertion. *)
Theorem synthesize_checks_arguments (names : list str) (values : list bool) :
  synthesize [] values = Raise AssertionError /\
  synthesize_cnf [] values = Raise AssertionError /\
  (names <> [] -> Forall (fun v => is_variable v = Ok true) names ->
   length values <> (2 ^ length names)%nat ->
   synthesize names values = Raise AssertionError /\
   synthesize_cnf names values = Raise AssertionError) /\
  (forall f, synthesize names values = Ok f \/
             synthesize_cnf names values = Ok f ->
     names <> [] /\ Forall (fun v => is_variable v = Ok true) names /\
     length values = (2 ^ length names)%nat).
Proof.
  split; [reflexivity|]. split; [reflexivity|]. split.
  - intros Hne Hvalid Hlen. split; by apply synthesize_length_fail.
  - intros f [H|H]; by apply synthesize_Ok_inv in H.
Qed.

Lemma synthesize_checks_arguments_witness :
  synthesize [py "p"; py "q"] [true; false; true] = Raise AssertionError /\
  synthesize_cnf [py "p"; py "q"] [true; false; true] = Raise AssertionError.
Proof.
  apply (synthesize_checks_arguments [py "p"; py "q"] [true; false; true]).
  - discriminate.
  - repeat constructor.
  - simpl. lia.
Defined.
(** ** Every assignment is enumerated once *)

Lemma mask_of_lt (names : list str) (g : str -> bool) :
  mask_of names g < 2 ^ N.of_nat (length names).
Proof.
  induction names as [|v rest IH]; simpl length; [reflexivity|].
  cbn [mask_of]. rewrite Nat2N.inj_succ, N.pow_succ_r'.
  destruct (g v); lia.
Qed.

Lemma mask_of_testbit (names : list str) (g : str -> bool) :
  forall (i : nat) (v : str),
    names !! i = Some v ->
    N.testbit (mask_of names g) (N.of_nat (length names - 1 - i)) = g v.
Proof.
  induction names as [|v0 rest IH]; intros i v Hi; [done|].
  pose proof (mask_of_lt rest g) as Hlt.
  assert (2 ^ N.of_nat (length rest) <> 0) as Hpow
    by (apply N.pow_nonzero; lia).
  cbn [mask_of]. destruct i as [|i].
  - injection Hi as ->. simpl length.
    replace (S (length rest) - 1 - 0)%nat with (length rest) by lia.
    rewrite <- (N.add_0_l (N.of_nat (length rest))), <- N.div_pow2_bits.
    rewrite N.div_add_l, (N.div_small _ _ Hlt), N.add_0_r by done.
    by destruct (g v).
  - simpl in Hi. apply lookup_lt_Some in Hi as Hlen. simpl length.
    replace (S (length rest) - 1 - S i)%nat with (length rest - 1 - i)%nat
      by lia.
    rewrite <- (IH i v Hi).
    rewrite <- (N.mod_pow2_bits_low _ (N.of_nat (length rest))) by lia.
    f_equal. rewrite N.add_comm, N.Div0.mod_add. by apply N.mod_small.
Qed.

Lemma model_of_mask_get (names : list str) (g : str -> bool) (v : str) :
  NoDup names -> v ∈ names ->
  dict_get (model_of_mask names (mask_of names g)) v = Some (g v).
Proof.
  intros Hnd Hv. apply list_elem_of_lookup in Hv as [i Hi].
  rewrite model_of_mask_items by done.
  rewrite (mask_items_get names _ i v Hnd Hi). f_equal.
  by apply mask_of_testbit.
Qed.

Lemma range_elem (n : nat) (x : N) :
  x ∈ range n <-> x < N.of_nat n.
Proof.
  unfold range. rewrite list_elem_of_fmap. split.
  - intros (k & -> & Hk). apply list_elem_of_In, in_seq in Hk. lia.
  - intros H. exists (N.to_nat x). split; [by rewrite N2Nat.id|].
    apply list_elem_of_In, in_seq. lia.
Qed.

Lemma range_NoDup (n : nat) : NoDup (range n).
Proof.
  unfold range. apply NoDup_fmap_2_strong; [|apply NoDup_seq].
  intros x y _ _. apply Nat2N.inj.
Qed.

Lemma range_pow2 (n : nat) (x : N) :
  x ∈ range (2 ^ n) <-> x < 2 ^ N.of_nat n.
Proof.
  rewrite range_elem, Nat2N.inj_pow. reflexivity.
Qed.

(** Two masks whose models give the names the same values are equal. *)
Lemma model_of_mask_inj (names : list str) (k j : N) :
  NoDup names ->
  k < 2 ^ N.of_nat (length names) -> j < 2 ^ N.of_nat (length names) ->
  (forall v, v ∈ names ->
     dict_get (model_of_mask names k) v = dict_get (model_of_mask names j) v) ->
  k = j.
Proof.
  intros Hnd Hk Hj H.
  apply (bool_decide_eq_true (k = j)).
  rewrite <- (agree_masks names k j Hnd Hk Hj). apply agree_true.
  intros v Hv. rewrite mask_items_keys in Hv. unfold get.
  rewrite <- !model_of_mask_items by done. by rewrite (H v Hv).
Qed.

(** X15. For distinct variable names, [all_models] yields every assignment
    exactly once: each way of giving truth values to the names is the model at
    one and only one position of the enumeration, and no model is yielded
    twice. *)
Theorem all_models_each_assignment_once (names : list str) :
  NoDup names ->
  Forall (fun v => is_variable v = Ok true) names ->
  exists models,
    all_models names = Ok models /\ NoDup models /\
    forall m : Model,
      (forall v, v ∈ names -> is_Some (dict_get m v)) ->
      exists k mk,
        models !! k = Some mk /\
        (forall v, v ∈ names -> dict_get mk v = dict_get m v) /\
        forall k' mk', models !! k' = Some mk' ->
          (forall v, v ∈ names -> dict_get mk' v = dict_get m v) -> k' = k.
Proof.
  intros Hnd Hvalid. eexists. split; [by apply all_models_Ok|]. split.
  - apply NoDup_fmap_2_strong; [|apply range_NoDup].
    intros k j Hk Hj E. apply range_pow2 in Hk, Hj.
    apply (model_of_mask_inj names k j Hnd Hk Hj). intros v _. by rewrite E.
  - intros m Hm. pose proof (mask_of_lt names (get m)) as Hlt.
    exists (N.to_nat (mask_of names (get m))),
      (model_of_mask names (mask_of names (get m))).
    assert (forall v, v ∈ names ->
              dict_get (model_of_mask names (mask_of names (get m))) v =
              dict_get m v) as Hget.
    { intros v Hv. rewrite model_of_mask_get by done.
      destruct (Hm v Hv) as [b Hb]. unfold get. by rewrite Hb. }
    split; [|split; [exact Hget|]].
    + rewrite list_lookup_fmap, range_lookup_Some.
      * simpl. by rewrite N2Nat.id.
      * pose proof (Nat2N.inj_pow 2 (length names)) as Hpow.
        change (N.of_nat 2) with 2 in Hpow. lia.
    + intros k' mk' Hk' Hmk'. rewrite list_lookup_fmap in Hk'.
      destruct (range (2 ^ length names) !! k') as [x|] eqn:E; [|done].
      apply range_lookup in E as [-> Hlt']. injection Hk' as <-.
      apply Nat2N.inj. rewrite N2Nat.id.
      apply (model_of_mask_inj names); [done | by apply pow2_of_nat | done |].
      intros v Hv. by rewrite Hget, Hmk'.
Qed.

Lemma all_models_each_assignment_once_witness :
  exists models,
    all_models [py "q"; py "p"; py "r"] = Ok models /\ NoDup models.
Proof.
  destruct (all_models_each_assignment_once [py "q"; py "p"; py "r"])
    as (models & H1 & H2 & _).
  - apply (bool_decide_unpack _). vm_compute. exact I.
  - repeat constructor.
  - exists models. auto.
Defined.

(** ** Tautologies, contradictions and satisfiable formulas *)

Lemma vars_of_valid (f : Formula) :
  well_formed f = true -> forall v, v ∈ vars_of f -> is_variable v = Ok true.
Proof.
  by_shape f H; intros v Hv; cbn [vars_of] in Hv.
  - rewrite Hconst in Hv. by apply elem_of_singleton in Hv as ->.
  - rewrite Hconst in Hv. by apply elem_of_empty in Hv.
  - by apply IH.
  - apply elem_of_union in Hv as [Hv|Hv]; [by apply IHa | by apply IHb].
Qed.

(** The names that the three functions enumerate the models of. *)
Lemma vars_sorted_well_formed (f : Formula) :
  well_formed f = true ->
  exists names,
    vars_sorted f = Ok names /\ NoDup names /\
    Forall (fun v => is_variable v = Ok true) names /\
    forall v, v ∈ names <-> v ∈ vars_of f.
Proof.
  intros Hwf. exists (sorted (elements (vars_of f))).
  assert (forall v, v ∈ sorted (elements (vars_of f)) <-> v ∈ vars_of f) as Hin.
  { intros v. by rewrite sorted_elem, elem_of_elements. }
  split; [|split; [|split; [|exact Hin]]].
  - unfold vars_sorted. by rewrite (variables_well_formed f Hwf).
  - apply sorted_NoDup, NoDup_elements.
  - apply Forall_forall. intros v Hv. apply (vars_of_valid f Hwf), Hin, Hv.
Qed.

(** [evaluate] returns in every model of the enumeration. *)
Lemma enumerated_evaluate (f : Formula) (names : list str) :
  well_formed f = true -> NoDup names ->
  Forall (fun v => is_variable v = Ok true) names ->
  (forall v, v ∈ vars_of f -> v ∈ names) ->
  Forall (fun m => evaluate f m = Ok (value f m))
    (map (model_of_mask names) (range (2 ^ length names))).
Proof.
  intros Hwf Hnd Hvalid Hsub. apply Forall_forall. intros m Hm.
  apply list_elem_of_fmap in Hm as (mask & -> & _).
  apply evaluate_well_formed; [|done|].
  - apply is_model_keys_true.
    by rewrite model_of_mask_items, mask_items_keys.
  - intros v Hv. apply elem_of_list_to_set, model_of_mask_keys, Hsub, Hv.
Qed.

(** The loop over the models, once [evaluate] returns in each of them. *)
Lemma scan_models_value (f : Formula) (stop answer : bool)
  (models : list Model) :
  Forall (fun m => evaluate f m = Ok (value f m)) models ->
  scan_models f stop answer models =
  Ok (if existsb (fun m => Bool.eqb (value f m) stop) models
      then answer else negb answer).
Proof.
  induction 1 as [|m models Hm _ IH]; cbn [scan_models existsb];
    [reflexivity|].
  rewrite Hm. cbn [bind]. by destruct (Bool.eqb (value f m) stop).
Qed.

(** The enumeration holds a model of every assignment to the names, so a
    value that the formula takes in any model it takes in an enumerated
    one. *)
Lemma enumerated_value (f : Formula) (names : list str) (stop : bool) :
  NoDup names -> (forall v, v ∈ vars_of f -> v ∈ names) ->
  existsb (fun m => Bool.eqb (value f m) stop)
    (map (model_of_mask names) (range (2 ^ length names))) = true <->
  exists m : Model, value f m = stop.
Proof.
  intros Hnd Hsub. rewrite existsb_exists. split.
  - intros (m & _ & Hm). exists m. by apply eqb_prop.
  - intros [m Hm]. exists (model_of_mask names (mask_of names (get m))).
    split.
    + apply list_elem_of_In, list_elem_of_fmap.
      exists (mask_of names (get m)). split; [reflexivity|].
      apply range_pow2, mask_of_lt.
    + rewrite <- Hm. apply eq_true_iff_eq. rewrite Bool.eqb_true_iff.
      split; intros _; [reflexivity|].
      apply value_agree_get. intros v Hv. unfold get at 1.
      by rewrite model_of_mask_get by (done || by apply Hsub).
Qed.

(** The answers of the three functions on a well-formed formula. *)
Lemma truth_scans (f : Formula) :
  well_formed f = true ->
  exists models,
    Forall (fun m => evaluate f m = Ok (value f m)) models /\
    (forall stop, existsb (fun m => Bool.eqb (value f m) stop) models = true <->
                  exists m : Model, value f m = stop) /\
    is_tautology f =
      Ok (negb (existsb (fun m => Bool.eqb (value f m) false) models)) /\
    is_contradiction f =
      Ok (negb (existsb (fun m => Bool.eqb (value f m) true) models)) /\
    is_satisfiable f =
      Ok (existsb (fun m => Bool.eqb (value f m) true) models).
Proof.
  intros Hwf.
  destruct (vars_sorted_well_formed f Hwf) as (names & Hn & Hnd & Hv & Hin).
  exists (map (model_of_mask names) (range (2 ^ length names))).
  assert (forall v, v ∈ vars_of f -> v ∈ names) as Hsub
    by (intros v; apply Hin).
  pose proof (enumerated_evaluate f names Hwf Hnd Hv Hsub) as He.
  split; [exact He|]. split; [intros stop; by apply enumerated_value|].
  unfold is_tautology, is_contradiction, is_satisfiable.
  rewrite Hn. cbn [bind]. rewrite (all_models_Ok names Hv). cbn [bind].
  rewrite !(scan_models_value f _ _ _ He).
  repeat split; by destruct (existsb _ _).
Qed.

(** X16. On a well-formed formula the three functions return, and they decide
    what their names say over all models, not only the enumerated ones:
    [is_tautology] returns [True] exactly when [evaluate] returns [True] in
    every model in which it returns, [is_satisfiable] returns [True] exactly
    when [evaluate] returns [True] in some model, and [is_contradiction]
    returns the opposite of [is_satisfiable]. *)
Theorem tautology_satisfiable_decide (f : Formula) :
  well_formed f = true ->
  exists t c s,
    is_tautology f = Ok t /\ is_contradiction f = Ok c /\
    is_satisfiable f = Ok s /\
    (t = true <-> forall m b, evaluate f m = Ok b -> b = true) /\
    (s = true <-> exists m, evaluate f m = Ok true) /\
    c = negb s.
Proof.
  intros Hwf.
  destruct (truth_scans f Hwf) as (models & He & Hex & Ht & Hc & Hs).
  eexists _, _, _. split; [exact Ht|]. split; [exact Hc|].
  split; [exact Hs|]. split; [|split; [|reflexivity]].
  - rewrite negb_true_iff. split.
    + intros Hnone m b Hb. apply (evaluate_value f m b Hwf) in Hb.
      destruct b; [reflexivity|].
      rewrite (proj2 (Hex false)) in Hnone; [discriminate | by exists m].
    + intros Hall. apply not_true_is_false. intros Hsome.
      apply existsb_exists in Hsome as (m & Hm & Hb). apply eqb_prop in Hb.
      rewrite Forall_forall in He. apply list_elem_of_In in Hm.
      specialize (He m Hm). rewrite Hb in He. by specialize (Hall m false He).
  - split.
    + intros Hsome. apply existsb_exists in Hsome as (m & Hm & Hb).
      apply eqb_prop in Hb. rewrite Forall_forall in He.
      apply list_elem_of_In in Hm. specialize (He m Hm). rewrite Hb in He.
      by exists m.
    + intros [m Hm]. apply Hex. exists m. by apply (evaluate_value f m true).
Qed.

Lemma tautology_satisfiable_decide_witness :
  well_formed (Binary (py "|") (Atom (py "p")) (Unary (py "~") (Atom (py "p"))))
    = true /\
  exists t c s,
    is_tautology
      (Binary (py "|") (Atom (py "p")) (Unary (py "~") (Atom (py "p")))) = Ok t /\
    is_contradiction
      (Binary (py "|") (Atom (py "p")) (Unary (py "~") (Atom (py "p")))) = Ok c /\
    is_satisfiable
      (Binary (py "|") (Atom (py "p")) (Unary (py "~") (Atom (py "p")))) = Ok s /\
    c = negb s.
Proof.
  split; [reflexivity|].
  destruct (tautology_satisfiable_decide
              (Binary (py "|") (Atom (py "p")) (Unary (py "~") (Atom (py "p"))))
              eq_refl) as (t & c & s & Ht & Hc & Hs & _ & _ & Hcs).
  exists t, c, s. auto.
Defined.

(** X17. Negation exchanges tautologies and contradictions: on a well-formed
    formula [f], [is_tautology] of [~f] is [is_contradiction] of [f],
    [is_contradiction] of [~f] is [is_tautology] of [f], and [~f] is
    satisfiable exactly when [f] is no tautology. *)
Theorem negation_exchanges_scans (f : Formula) :
  well_formed f = true ->
  is_tautology (Unary (py "~") f) = is_contradiction f /\
  is_contradiction (Unary (py "~") f) = is_tautology f /\
  exists t, is_tautology f = Ok t /\
            is_satisfiable (Unary (py "~") f) = Ok (negb t).
Proof.
  intros Hwf.
  assert (well_formed (Unary (py "~") f) = true) as Hwn by (by simpl; rewrite Hwf).
  destruct (vars_sorted_well_formed f Hwf) as (names & Hn & Hnd & Hv & Hin).
  assert (vars_sorted (Unary (py "~") f) = Ok names) as Hnn.
  { unfold vars_sorted in *. rewrite (variables_well_formed _ Hwn).
    rewrite (variables_well_formed _ Hwf) in Hn. exact Hn. }
  assert (forall v, v ∈ vars_of f -> v ∈ names) as Hsub
    by (intros v; apply Hin).
  pose proof (enumerated_evaluate f names Hwf Hnd Hv Hsub) as He.
  pose proof (enumerated_evaluate (Unary (py "~") f) names Hwn Hnd Hv Hsub)
    as Hen.
  assert (forall stop models,
            existsb (fun m => Bool.eqb (value (Unary (py "~") f) m) stop) models =
            existsb (fun m => Bool.eqb (value f m) (negb stop)) models) as Hflip.
  { intros stop models. induction models as [|m models IH]; [reflexivity|].
    cbn [existsb]. rewrite IH. cbn [value]. by destruct (value f m), stop. }
  unfold is_tautology, is_contradiction, is_satisfiable.
  rewrite Hn, Hnn. cbn [bind]. rewrite (all_models_Ok names Hv). cbn [bind].
  rewrite !(scan_models_value _ _ _ _ He), !(scan_models_value _ _ _ _ Hen).
  rewrite !Hflip. cbn [negb]. split; [reflexivity|]. split; [reflexivity|].
  eexists. split; [reflexivity|]. by destruct (existsb _ _).
Qed.

Lemma negation_exchanges_scans_witness :
  is_tautology (Unary (py "~") (Binary (py "&") (Atom (py "p"))
                                  (Unary (py "~") (Atom (py "p"))))) =
  is_contradiction (Binary (py "&") (Atom (py "p"))
                      (Unary (py "~") (Atom (py "p")))).
Proof.
  apply (negation_exchanges_scans
           (Binary (py "&") (Atom (py "p")) (Unary (py "~") (Atom (py "p"))))).
  reflexivity.
Defined.
(** ** The printed truth table *)

Lemma join_tail_length (sep : str) (xs : list str) :
  length (concat (map (fun y => sep ++ y) xs)) =
  (length (concat xs) + length sep * length xs)%nat.
Proof.
  induction xs as [|y xs IH]; cbn [map concat length]; [lia|].
  rewrite !length_app, IH. lia.
Qed.

Lemma str_join_length (sep : str) (x : str) (xs : list str) :
  length (str_join sep (x :: xs)) =
  (length (concat (x :: xs)) + length sep * length xs)%nat.
Proof.
  cbn [str_join concat]. rewrite !length_app, join_tail_length. lia.
Qed.

(** A line of one-character cells: its length, and where the cells are. *)
Lemma table_line_cells (cs : list N) :
  cs <> [] ->
  length (table_line (map (fun c => [c]) cs)) = (4 * length cs + 1)%nat /\
  forall i c, cs !! i = Some c ->
    table_line (map (fun c => [c]) cs) !! (4 * i + 2)%nat = Some c.
Proof.
  destruct cs as [|c0 cs]; [done|]. intros _. unfold table_line.
  cbn [map str_join].
  assert (length (concat (map (fun y => py " | " ++ y)
                            (map (fun c => [c]) cs))) = (4 * length cs)%nat /\
          forall i c, cs !! i = Some c ->
            concat (map (fun y => py " | " ++ y) (map (fun c => [c]) cs))
              !! (4 * i + 3)%nat = Some c) as [Hlen Hat].
  { induction cs as [|c1 cs [IH1 IH2]]; [split; [reflexivity | done]|].
    cbn [map concat]. split.
    - rewrite !length_app, IH1. simpl. lia.
    - intros [|i] c Hc.
      + injection Hc as ->. reflexivity.
      + replace (4 * S i + 3)%nat with (4 + (4 * i + 3))%nat by lia.
        apply (IH2 i c Hc). }
  split.
  - rewrite !length_app, Hlen. simpl. lia.
  - intros [|i] c Hc.
    + injection Hc as ->. reflexivity.
    + replace (4 * S i + 2)%nat with (3 + (4 * i + 3))%nat by lia.
      change (py "| " ++ ([c0] ++ ?t) ++ py " |") with
        (chr "|" :: chr " " :: c0 :: t ++ py " |").
      cbn [lookup list_lookup Nat.add]. apply lookup_app_l_Some.
      apply (Hat i c Hc).
Qed.

Lemma header_rule_length (x : str) (xs : list str) :
  length (table_line (x :: xs)) =
    (length (concat (x :: xs)) + 3 * length xs + 4)%nat /\
  length (rule_line (x :: xs)) = length (table_line (x :: xs)).
Proof.
  unfold table_line, rule_line. cbn [map].
  rewrite !length_app, !str_join_length, length_map.
  assert (length (concat (repeat (chr "-") (length x + 2) ::
                          map (fun name => repeat (chr "-") (length name + 2)) xs))
          = (length (concat (x :: xs)) + 2 * S (length xs))%nat) as ->.
  { cbn [concat]. rewrite !length_app, repeat_length.
    induction xs as [|y xs IH]; cbn [map concat length]; [lia|].
    rewrite !length_app, repeat_length. lia. }
  simpl. split; lia.
Qed.

Lemma row_cells_Ok (m : Model) (names : list str) :
  (forall v, v ∈ names -> v ∈ dict_keys m) ->
  row_cells m names =
  Ok (map (fun c => [c])
        (map (fun v => if get m v then chr "T" else chr "F") names)).
Proof.
  induction names as [|v names IH]; intros H; cbn [row_cells map];
    [reflexivity|].
  rewrite dict_item_get by (apply H; by left). cbn [bind].
  rewrite IH by (intros w Hw; apply H; by right). cbn [bind].
  by destruct (get m v).
Qed.

Lemma print_rows_Ok (f : Formula) (names : list str) (line : Model -> str)
  (models : list Model) :
  Forall (fun m => row_line f names m = Ok (line m)) models ->
  forall out,
    print_rows f names models out = (out ++ map line models, Ok tt).
Proof.
  induction 1 as [|m models Hm _ IH]; intros out; cbn [print_rows map].
  - by rewrite app_nil_r.
  - rewrite Hm, IH, <- app_assoc. reflexivity.
Qed.

(** X18. On a well-formed formula [print_truth_table] raises nothing and
    prints a header, a rule of the same length as the header, and one row for
    each model of [all_models] over the sorted variable names, in that order.
    A row has four characters for each name and five more, whatever the
    lengths of the names and of the formula: the letter of the value of the
    name at index [i] is its character [4 * i + 2], and the letter of the
    value that [evaluate] returns in the model is its last cell. *)
Theorem print_truth_table_layout (f : Formula) :
  well_formed f = true ->
  exists names models title header rule rows,
    vars_sorted f = Ok names /\ all_models names = Ok models /\
    __repr__ f = Ok title /\
    print_truth_table f = (header :: rule :: rows, Ok tt) /\
    length header =
      (length (concat names) + length title + 3 * length names + 4)%nat /\
    length rule = length header /\
    length rows = length models /\
    forall (k : nat) (row : str) (m : Model),
      rows !! k = Some row -> models !! k = Some m ->
      length row = (4 * length names + 5)%nat /\
      (forall (i : nat) (v : str), names !! i = Some v ->
         exists b : bool, dict_get m v = Some b /\
           row !! (4 * i + 2)%nat = Some (if b then chr "T" else chr "F")) /\
      exists b : bool, evaluate f m = Ok b /\
        row !! (4 * length names + 2)%nat =
        Some (if b then chr "T" else chr "F").
Proof.
  intros Hwf.
  destruct (vars_sorted_well_formed f Hwf) as (names & Hn & Hnd & Hv & Hin).
  assert (forall v, v ∈ vars_of f -> v ∈ names) as Hsub
    by (intros v; apply Hin).
  pose proof (enumerated_evaluate f names Hwf Hnd Hv Hsub) as He.
  set (models := map (model_of_mask names) (range (2 ^ length names))) in *.
  set (cells := fun m : Model =>
         map (fun v => if get m v then chr "T" else chr "F") names ++
         [if value f m then chr "T" else chr "F"]).
  set (line := fun m : Model => table_line (map (fun c => [c]) (cells m))).
  assert (forall m, m ∈ models -> forall v, v ∈ names -> v ∈ dict_keys m)
    as Hkeys.
  { intros m Hm v Hv'. apply list_elem_of_fmap in Hm as (mask & -> & _).
    by apply model_of_mask_keys. }
  assert (Forall (fun m => row_line f names m = Ok (line m)) models) as Hrows.
  { apply Forall_forall. intros m Hm. unfold row_line.
    rewrite (row_cells_Ok m names (Hkeys m Hm)). cbn [bind].
    rewrite Forall_forall in He. rewrite (He m Hm). cbn [bind].
    unfold line, cells. rewrite map_app. cbn [map].
    by destruct (value f m). }
  exists names, models, (show f), (table_line (names ++ [show f])),
    (rule_line (names ++ [show f])), (map line models).
  split; [exact Hn|]. split; [by apply all_models_Ok|].
  split; [by apply repr_well_formed|]. split.
  { unfold print_truth_table.
    rewrite Hn, (repr_well_formed f Hwf), (all_models_Ok names Hv).
    fold models. by rewrite (print_rows_Ok f names line models Hrows). }
  assert (exists x xs, names ++ [show f] = x :: xs /\
            length xs = length names /\
            length (concat (x :: xs)) =
              (length (concat names) + length (show f))%nat)
    as (x & xs & Hcells & Hxs & Hcat).
  { pose proof (length_app names [show f]) as Hl.
    pose proof (concat_app names [show f]) as Hc.
    destruct (names ++ [show f]) as [|x xs]; simpl in Hl; [lia|].
    exists x, xs. split; [reflexivity|]. split; [lia|].
    rewrite Hc, length_app. simpl. rewrite app_nil_r. lia. }
  rewrite Hcells. destruct (header_rule_length x xs) as [Hh Hr].
  split; [rewrite Hh; lia|]. split; [exact Hr|].
  split; [by rewrite length_map|].
  intros k row m Hrow Hm. rewrite list_lookup_fmap, Hm in Hrow.
  injection Hrow as <-.
  assert (cells m <> []) as Hne by (unfold cells; by destruct (map _ names)).
  destruct (table_line_cells (cells m) Hne) as [Hlen Hat]. fold (line m) in *.
  assert (length (cells m) = S (length names)) as Hcl.
  { unfold cells. rewrite length_app, length_map. simpl. lia. }
  assert (m ∈ models) as Hmem by (by apply list_elem_of_lookup_2 in Hm).
  split; [rewrite Hlen, Hcl; lia|]. split.
  - intros i v Hi. exists (get m v).
    assert (v ∈ dict_keys m) as Hk
      by (apply (Hkeys m Hmem); by apply list_elem_of_lookup_2 in Hi).
    apply dict_get_is_Some in Hk as [b Hb]. split.
    + unfold get. by rewrite Hb.
    + apply Hat. unfold cells. apply lookup_app_l_Some.
      by rewrite list_lookup_fmap, Hi.
  - exists (value f m). rewrite Forall_forall in He. split; [by apply He|].
    apply Hat. unfold cells. rewrite lookup_app_r by (by rewrite length_map).
    by rewrite length_map, Nat.sub_diag.
Qed.

Lemma print_truth_table_layout_witness :
  exists lines,
    print_truth_table (Unary (py "~") (Binary (py "&") (Atom (py "p"))
                                          (Atom (py "q76")))) = (lines, Ok tt).
Proof.
  destruct (print_truth_table_layout
              (Unary (py "~") (Binary (py "&") (Atom (py "p"))
                                 (Atom (py "q76")))) eq_refl)
    as (names & models & title & header & rule & rows & _ & _ & _ & H & _).
  by exists (header :: rule :: rows).
Defined.
(** ** The variable names and the operators of a formula *)

Lemma ops_of_tokens (f : Formula) :
  well_formed f = true ->
  forall o, o ∈ ops_of f ->
    is_constant o = true \/ is_unary o = true \/ is_binary o = true.
Proof.
  by_shape f H; intros o Ho; cbn [ops_of] in Ho.
  - rewrite Hconst in Ho. by apply elem_of_empty in Ho.
  - rewrite Hconst in Ho. apply elem_of_singleton in Ho as ->. by left.
  - apply elem_of_union in Ho as [Ho|Ho]; [|by apply IH].
    apply elem_of_singleton in Ho as ->. right. by left.
  - apply elem_of_union in Ho as [Ho|Ho]; [|by apply IHb].
    apply elem_of_union in Ho as [Ho|Ho]; [|by apply IHa].
    apply elem_of_singleton in Ho as ->. right. by right.
Qed.

(** X19. On a well-formed formula [variables] and [operators] return, every
    element of the first set is a variable name, every element of the second
    is a constant, the unary operator or a binary operator, and the two sets
    have no element in common. *)
Theorem variables_operators_disjoint (f : Formula) :
  well_formed f = true ->
  exists vs ops : gset str,
    variables f = Ok vs /\ operators f = Ok ops /\
    (forall v, v ∈ vs -> is_variable v = Ok true) /\
    (forall o, o ∈ ops ->
       is_constant o = true \/ is_unary o = true \/ is_binary o = true) /\
    vs ## ops.
Proof.
  intros Hwf. exists (vars_of f), (ops_of f).
  split; [by apply variables_well_formed|].
  split; [by apply operators_well_formed|].
  split; [by apply vars_of_valid|]. split; [by apply ops_of_tokens|].
  intros x Hv Ho. apply (vars_of_valid f Hwf) in Hv.
  apply (ops_of_tokens f Hwf) in Ho as [Ho|[Ho|Ho]].
  - apply constant_not_variable in Ho. congruence.
  - apply is_unary_eq in Ho as ->. discriminate.
  - apply binary_root in Ho as [Ho _]. congruence.
Qed.

Lemma variables_operators_disjoint_witness :
  exists vs ops : gset str,
    variables (Binary (py "->") (Atom (py "x12")) (Unary (py "~") (Atom (py "T"))))
      = Ok vs /\
    operators (Binary (py "->") (Atom (py "x12")) (Unary (py "~") (Atom (py "T"))))
      = Ok ops /\
    vs ## ops.
Proof.
  destruct (variables_operators_disjoint
              (Binary (py "->") (Atom (py "x12"))
                 (Unary (py "~") (Atom (py "T")))) eq_refl)
    as (vs & ops & Hv & Ho & _ & _ & Hd).
  by exists vs, ops.
Defined.
